(** * rainflayer: the Brain's action ledger, directive lifecycle, transport
      guard and decision-provider output parsing.

    Shallow embedding of
      - [src/brain/brain_controller.py] ([RoR2BrainController]),
      - [src/brain/socket_bridge.py]    ([SocketBridge.send_query]),
      - [src/brain/model.py]            ([RoR2BrainModel._parse_json_output],
                                         [generate_commands]).

    Conventions of the embedding.
      - A Python [str] is a [string] (a byte string; text is read as its
        UTF-8 encoding).  [str.lower] is ASCII lower-casing, which agrees
        with Python on every needle the code searches for.
      - The ledger [self.action_ledger : list[dict]] is a [list action];
        every dict in it is created by [_add_to_ledger] and has the three
        keys command, status and reason, typed [str] by that function's
        signature.
      - An event is the dict decoded from one wire record: a finite map
        from field names to string payloads. *)

From Stdlib Require Import String Ascii List Bool Arith ZArith QArith Lia.
From Stdlib Require PrimFloat.
From stdpp Require Import gmap strings list.

(** ** Python string primitives *)

Module Py.

(** [s.startswith(p)] *)
Definition startswith (s p : string) : bool := String.prefix p s.

(** [p in s] for two strings *)
Fixpoint contains (p s : string) : bool :=
  match s with
  | EmptyString => String.prefix p s
  | String _ s' => String.prefix p s || contains p s'
  end.

Definition lower_ascii (c : ascii) : ascii :=
  let n := nat_of_ascii c in
  if (65 <=? n) && (n <=? 90) then ascii_of_nat (n + 32) else c.

(** [s.lower()] *)
Fixpoint lower (s : string) : string :=
  match s with
  | EmptyString => EmptyString
  | String c s' => String (lower_ascii c) (lower s')
  end.

(** Truth value of a string: [if s:] *)
Definition truthy (s : string) : bool :=
  match s with EmptyString => false | _ => true end.

(** [d.get(k, dflt)] *)
Definition get (d : gmap string string) (k dflt : string) : string :=
  default dflt (d !! k).

(** [for a in l: if p(a): a := f(a); break] on a list of mutable
    records; [None] when the loop ends without a hit. *)
Fixpoint update_first {A} (p : A -> bool) (f : A -> A) (l : list A)
  : option (list A) :=
  match l with
  | [] => None
  | a :: r =>
      if p a then Some (f a :: r)
      else match update_first p f r with
           | Some r' => Some (a :: r')
           | None => None
           end
  end.

(** [for a in l: if p(a): a := f(a)] (no break) *)
Definition update_all {A} (p : A -> bool) (f : A -> A) (l : list A)
  : list A :=
  map (fun a => if p a then f a else a) l.

End Py.

(** ** The action ledger ([brain_controller.py], "Action ledger") *)

Record action := Action { command : string; status : string; reason : string }.

Definition set_status (st : string) (a : action) : action :=
  {| command := command a; status := st; reason := reason a |}.
Definition set_reason (rs : string) (a : action) : action :=
  {| command := command a; status := status a; reason := rs |}.

(** [self.max_ledger_entries = 10] *)
Definition max_ledger_entries : nat := 10.

(** [_add_to_ledger(command, status, reason)]:
    append, then [pop(0)] when the length exceeds the capacity. *)
Definition _add_to_ledger (cmd st rs : string) (l : list action) : list action :=
  let l' := l ++ [Action cmd st rs] in
  if max_ledger_entries <? length l' then tail l' else l'.

(** The four statuses the controller writes. *)
Definition pending : string := "pending".
Definition interrupted : string := "interrupted".
Definition success : string := "success".
Definition failed : string := "failed".

(** Loop guards of [_process_event], one per branch. *)
Definition is_pending_for (c : string) (a : action) : bool :=
  String.eqb (command a) c && String.eqb (status a) pending.

Definition is_open_for (c : string) (a : action) : bool :=
  String.eqb (command a) c &&
  (String.eqb (status a) pending || String.eqb (status a) interrupted).

Definition is_pending_navigation (a : action) : bool :=
  String.eqb (status a) pending &&
  (Py.startswith (command a) "FIND_AND_INTERACT" ||
   Py.startswith (command a) "GOTO:").

(** [combat_entered]: the guard of the [if], minus the entries skipped by
    [continue] (the teleporter is a stage objective). *)
Definition is_interruptible (a : action) : bool :=
  String.eqb (status a) pending &&
  Py.startswith (command a) "FIND_AND_INTERACT" &&
  negb (Py.contains "teleporter" (Py.lower (command a))).

(** [event_data = {k: v for k, v in event.items()
                   if k not in ("type", "event_type")}] *)
Definition event_data_of (event : gmap string string) : gmap string string :=
  filter (fun kv => kv.1 <> "type" /\ kv.1 <> "event_type") event.

(** [_process_event(event)]: the ledger after the event. *)
Definition _process_event (event : gmap string string) (l : list action)
  : list action :=
  let event_name := Py.get event "event_type" EmptyString in
  if negb (Py.truthy event_name) then l
  else
    let event_data := event_data_of event in
    if String.eqb event_name "action_started" then
      let command := Py.get event_data "command" EmptyString in
      if Py.truthy command then
        let reason := "found " +:+ Py.get event_data "target" "?" +:+
                      " at " +:+ Py.get event_data "distance" "?" +:+ "m" in
        match Py.update_first (is_pending_for command) (set_reason reason) l with
        | Some l' => l'
        | None => _add_to_ledger command pending reason l
        end
      else l
    else if String.eqb event_name "action_complete" then
      let command := Py.get event_data "command" EmptyString in
      let status := Py.get event_data "status" success in
      if Py.truthy command then
        match Py.update_first (is_open_for command)
                (fun a => set_reason "completed" (set_status status a)) l with
        | Some l' => l'
        | None => l
        end
      else l
    else if String.eqb event_name "action_failed" then
      let command := Py.get event_data "command" EmptyString in
      let reason := Py.get event_data "reason" "unknown" in
      if Py.truthy command then
        match Py.update_first (is_pending_for command)
                (fun a => set_reason reason (set_status failed a)) l with
        | Some l' => l'
        | None => _add_to_ledger command failed reason l
        end
      else l
    else if String.eqb event_name "stuck" then
      Py.update_all is_pending_navigation
        (fun a => set_reason "stuck" (set_status failed a)) l
    else if String.eqb event_name "combat_entered" then
      Py.update_all is_interruptible
        (fun a => set_reason "combat" (set_status interrupted a)) l
    else if String.eqb event_name "low_health" then l
    else l.

(** Events as the mod sends them. *)
Definition mk_event (name : string) (fields : list (string * string))
  : gmap string string :=
  <["type" := "EVENT"]> (<["event_type" := name]> (list_to_map fields)).

Definition ev_started (c : string) : gmap string string :=
  mk_event "action_started" [("command", c)].
Definition ev_complete (c st : string) : gmap string string :=
  mk_event "action_complete" [("command", c); ("status", st)].
Definition ev_failed (c rs : string) : gmap string string :=
  mk_event "action_failed" [("command", c); ("reason", rs)].

(** ** The ledger with object identity

    A ledger entry is a Python dict object that [_process_event] mutates in
    place; a status transition is a change to one such object.  To speak of
    "the same entry before and after" each object is paired with its
    allocation number: [_add_to_ledger] is the only place that creates one,
    and gives it the next number.  [Tracked._process_event] is the same
    dispatch as [_process_event] on the numbered objects; erasing the
    numbers gives back [_process_event]. *)

Module Tracked.

Record ledger := Ledger { entries : list (nat * action); next_id : nat }.

Definition erase (t : ledger) : list action := map snd (entries t).

Definition on_obj (p : action -> bool) (x : nat * action) : bool := p x.2.
Definition in_obj (f : action -> action) (x : nat * action) : nat * action :=
  (x.1, f x.2).

Definition mutated (t : ledger) (es : list (nat * action)) : ledger :=
  {| entries := es; next_id := next_id t |}.

Definition _add_to_ledger (cmd st rs : string) (t : ledger) : ledger :=
  let l' := entries t ++ [(next_id t, Action cmd st rs)] in
  {| entries := if max_ledger_entries <? length l' then tail l' else l';
     next_id := S (next_id t) |}.

Definition _process_event (event : gmap string string) (t : ledger) : ledger :=
  let event_name := Py.get event "event_type" EmptyString in
  if negb (Py.truthy event_name) then t
  else
    let event_data := event_data_of event in
    if String.eqb event_name "action_started" then
      let command := Py.get event_data "command" EmptyString in
      if Py.truthy command then
        let reason := "found " +:+ Py.get event_data "target" "?" +:+
                      " at " +:+ Py.get event_data "distance" "?" +:+ "m" in
        match Py.update_first (on_obj (is_pending_for command))
                (in_obj (set_reason reason)) (entries t) with
        | Some l' => mutated t l'
        | None => _add_to_ledger command pending reason t
        end
      else t
    else if String.eqb event_name "action_complete" then
      let command := Py.get event_data "command" EmptyString in
      let status := Py.get event_data "status" success in
      if Py.truthy command then
        match Py.update_first (on_obj (is_open_for command))
                (in_obj (fun a => set_reason "completed" (set_status status a)))
                (entries t) with
        | Some l' => mutated t l'
        | None => t
        end
      else t
    else if String.eqb event_name "action_failed" then
      let command := Py.get event_data "command" EmptyString in
      let reason := Py.get event_data "reason" "unknown" in
      if Py.truthy command then
        match Py.update_first (on_obj (is_pending_for command))
                (in_obj (fun a => set_reason reason (set_status failed a)))
                (entries t) with
        | Some l' => mutated t l'
        | None => _add_to_ledger command failed reason t
        end
      else t
    else if String.eqb event_name "stuck" then
      mutated t (Py.update_all (on_obj is_pending_navigation)
                   (in_obj (fun a => set_reason "stuck" (set_status failed a)))
                   (entries t))
    else if String.eqb event_name "combat_entered" then
      mutated t (Py.update_all (on_obj is_interruptible)
                   (in_obj (fun a => set_reason "combat" (set_status interrupted a)))
                   (entries t))
    else if String.eqb event_name "low_health" then t
    else t.

(** The drain loop of [_run_decision_loop]:
    [for event in self.bridge.poll_events(): self._process_event(event)] *)
Definition process_events (events : list (gmap string string)) (t : ledger)
  : ledger :=
  fold_left (fun t ev => _process_event ev t) events t.

(** The ledger of a fresh controller: [self.action_ledger = []]. *)
Definition empty : ledger := {| entries := []; next_id := 0 |}.

(** Every object of the ledger has its own number, below the next one. *)
Definition wf (t : ledger) : Prop :=
  List.NoDup (map fst (entries t)) /\
  Forall (fun x => x.1 < next_id t) (entries t).

(** The forward-only transition set of the ledger statuses; no change
    is always allowed. *)
Definition forward (old new : string) : Prop :=
  old = new \/
  (old = pending /\ (new = success \/ new = failed \/ new = interrupted)) \/
  (old = interrupted /\ (new = success \/ new = failed)).

(** Every object present before and after kept its command and moved
    its status forward (or not at all). *)
Definition respects_forward (t t' : ledger) : Prop :=
  forall i a a',
    In (i, a) (entries t) -> In (i, a') (entries t') ->
    command a = command a' /\ forward (status a) (status a').

(** An [action_complete] event that reports one of the statuses
    success, failed or interrupted, or none (the default is success). *)
Definition reports_known_status (event : gmap string string) : Prop :=
  Py.get event "event_type" EmptyString = "action_complete" ->
  let st := Py.get (event_data_of event) "status" success in
  st = success \/ st = failed \/ st = interrupted.

(** One object before and after a step. *)
Definition entry_step (x y : nat * action) : Prop :=
  x.1 = y.1 /\ command x.2 = command y.2 /\ forward (status x.2) (status y.2).

End Tracked.

(** The drain loop on the plain ledger. *)
Definition process_events (events : list (gmap string string)) (l : list action)
  : list action :=
  fold_left (fun l ev => _process_event ev l) events l.

(** ** The controller: completion inference and the user directive *)

(** [types.InteractableInfo], the two fields the controller reads. *)
Record InteractableInfo := { type : string; name : string }.

(** The attributes of [RoR2BrainController] used by the ledger and the
    directive code.  [boss_active] is [self.game_state.boss_active].
    Wall-clock readings ([time.time()], seconds) are rationals. *)
Record RoR2BrainController := {
  action_ledger : list action;
  last_seen_interactables : gset (string * string);
  _prev_boss_active : bool;
  boss_active : bool;
  user_directive : option string;
  directive_timestamp : option Q;
  directive_type : string;
  directive_ttl : Q
}.

(** [__init__] *)
Definition init_controller : RoR2BrainController := {|
  action_ledger := [];
  last_seen_interactables := ∅;
  _prev_boss_active := false;
  boss_active := false;
  user_directive := None;
  directive_timestamp := None;
  directive_type := "strategic";
  directive_ttl := 600
|}.

Definition is_open (a : action) : bool :=
  String.eqb (status a) pending || String.eqb (status a) interrupted.

(** Guard of the inner loop of [_check_action_completion] for a target of
    category [inter_type]. *)
Definition is_open_find (inter_type : string) (a : action) : bool :=
  is_open a && Py.startswith (command a) ("FIND_AND_INTERACT:" +:+ inter_type).

Definition is_open_teleporter (a : action) : bool :=
  is_open a && Py.contains "teleporter" (Py.lower (command a)).

Definition mark_opened (target : string * string) (l : list action) : list action :=
  Py.update_all (is_open_find target.1)
    (fun a => set_reason (target.2 +:+ " opened") (set_status success a)) l.

(** [set((i.type, i.name) for i in current_interactables)
     if current_interactables else set()] *)
Definition current_ids_of (current_interactables : list InteractableInfo)
  : gset (string * string) :=
  match current_interactables with
  | [] => ∅
  | _ => list_to_set (map (fun i => (type i, name i)) current_interactables)
  end.

Section SetIteration.

(** The order in which Python iterates over a set is unspecified:
    [set_iter] is the enumeration the interpreter happens to use; the
    statements below assume only that it lists the members of the set. *)
Variable set_iter : gset (string * string) -> list (string * string).

(** [_check_action_completion(current_interactables)]: the loop over the
    disappeared targets, then the teleporter activation inferred from
    [boss_active] turning true. *)
Definition _check_action_completion
    (current_interactables : list InteractableInfo)
    (self : RoR2BrainController) : RoR2BrainController :=
  let current_ids := current_ids_of current_interactables in
  let disappeared := last_seen_interactables self ∖ current_ids in
  let ledger1 :=
    fold_left (fun l target => mark_opened target l)
              (set_iter disappeared) (action_ledger self) in
  let boss_now := boss_active self in
  let ledger2 :=
    if boss_now && negb (_prev_boss_active self) then
      Py.update_all is_open_teleporter
        (fun a => set_reason "teleporter activated (boss spawned)"
                    (set_status success a)) ledger1
    else ledger1 in
  {| action_ledger := ledger2;
     last_seen_interactables := current_ids;
     _prev_boss_active := boss_now;
     boss_active := boss_active self;
     user_directive := user_directive self;
     directive_timestamp := directive_timestamp self;
     directive_type := directive_type self;
     directive_ttl := directive_ttl self |}.

End SetIteration.

(** *** User directive *)

Definition tactical_keywords : list string :=
  ["go to"; "find"; "use"; "open"; "interact"; "buy";
   "teleporter"; "chest"; "shrine"; "navigate"; "get"].

Definition _classify_directive (directive : string) : string :=
  let directive_lower := Py.lower directive in
  if existsb (fun kw => Py.contains kw directive_lower) tactical_keywords
  then "tactical" else "strategic".

(** [set_user_directive(directive)]; [now] is the reading of [time.time()]. *)
Definition set_user_directive (directive : string) (now : Q)
    (self : RoR2BrainController) : RoR2BrainController :=
  let dtype := _classify_directive directive in
  {| action_ledger := action_ledger self;
     last_seen_interactables := last_seen_interactables self;
     _prev_boss_active := _prev_boss_active self;
     boss_active := boss_active self;
     user_directive := Some directive;
     directive_timestamp := Some now;
     directive_type := dtype;
     directive_ttl := if String.eqb dtype "tactical" then 45 else 600 |}.

(** [x < y] on clock readings *)
Definition Qlt_bool (x y : Q) : bool := negb (Qle_bool y x).

(** [_is_directive_valid()]; [now] is the reading of [time.time()]. *)
Definition _is_directive_valid (now : Q) (self : RoR2BrainController) : bool :=
  match user_directive self, directive_timestamp self with
  | Some _, Some t => Qlt_bool (now - t) (directive_ttl self)
  | _, _ => false
  end.

(** ** Transport: [SocketBridge.send_query] *)

Module Transport.
Section Bridge.

(** A decoded wire record, and [json.dumps] on the outgoing dict. *)
Variable message : Type.
Variable json_dumps : gmap string string -> string.

Record SocketBridge := {
  connected : bool;
  client_socket : option nat;          (* the peer's socket, if any *)
  _response_queue : list message;
  _event_queue : list message
}.

(** The I/O a call performs, in order. *)
Inductive io :=
  | SocketSendall (sock : nat) (data : string)
  | ResponseQueueGet.

(** What happens around one call: whether [sendall] succeeds, and the
    responses the reader thread enqueues before the 5 s timeout. *)
Record world := { sendall_ok : bool; arrivals : list message }.

Definition set_connected (b : bool) (self : SocketBridge) : SocketBridge :=
  {| connected := b; client_socket := client_socket self;
     _response_queue := _response_queue self;
     _event_queue := _event_queue self |}.

Definition set_response_queue (q : list message) (self : SocketBridge)
  : SocketBridge :=
  {| connected := connected self; client_socket := client_socket self;
     _response_queue := q; _event_queue := _event_queue self |}.

(** [send_query(query_type, **kwargs)]: the result ([None] on error or
    timeout), the bridge afterwards, and the I/O performed. *)
Definition send_query (query_type : string) (kwargs : gmap string string)
    (w : world) (self : SocketBridge)
  : option message * SocketBridge * list io :=
  match connected self, client_socket self with
  | true, Some sock =>
      let message :=
        json_dumps (kwargs ∪ {["type" := query_type]}) +:+ String "010" EmptyString in
      if sendall_ok w then
        match _response_queue self ++ arrivals w with
        | response :: rest =>
            (Some response, set_response_queue rest self,
             [SocketSendall sock message; ResponseQueueGet])
        | [] =>
            (* queue.Empty *)
            (None, self, [SocketSendall sock message; ResponseQueueGet])
        end
      else
        (* any other exception *)
        (None, set_connected false self, [SocketSendall sock message])
  | _, _ => (None, self, [])
  end.

End Bridge.

Arguments connected {message} _.
Arguments client_socket {message} _.
Arguments _response_queue {message} _.
Arguments _event_queue {message} _.
Arguments sendall_ok {message} _.
Arguments arrivals {message} _.
Arguments send_query {message} json_dumps query_type kwargs w self.

End Transport.

(** ** Decision provider: parsing the model's reply ([model.py]) *)

Module Model.

(** A value decoded by [json.loads].  A JSON object is a Python dict:
    its items in insertion order, keys distinct. *)
#[warnings="-register-all"] Inductive json :=
  | JNull
  | JBool (b : bool)
  | JInt (z : Z)
  | JFloat (f : PrimFloat.float)
  | JStr (s : string)
  | JArr (items : list json)
  | JObj (items : list (string * json)).

Inductive outcome (A : Type) :=
  | Returned (a : A)
  | Raised (exception : string).
Arguments Returned {A} a.
Arguments Raised {A} exception.

(** Dict operations *)
Definition dict_get (d : list (string * json)) (k : string) : option json :=
  snd <$> find (fun kv => String.eqb kv.1 k) d.

Definition setdefault (k : string) (v : json) (d : list (string * json))
  : list (string * json) :=
  match dict_get d k with
  | Some _ => d
  | None => d ++ [(k, v)]
  end.

(** [re.search(r"\{.*\}", s, re.DOTALL)]: the leftmost opening brace and,
    the star being greedy, everything up to the last closing brace after
    it. *)
Fixpoint from_first (c : ascii) (s : string) : option string :=
  match s with
  | EmptyString => None
  | String a r => if Ascii.eqb a c then Some s else from_first c r
  end.

Fixpoint upto_last (c : ascii) (s : string) : option string :=
  match s with
  | EmptyString => None
  | String a r =>
      match upto_last c r with
      | Some p => Some (String a p)
      | None => if Ascii.eqb a c then Some (String a EmptyString) else None
      end
  end.

Definition search_braces (s : string) : option string :=
  match from_first "{" s with
  | Some (String open r) =>
      match upto_last "}" r with
      | Some p => Some (String open p)
      | None => None
      end
  | _ => None
  end.

Definition safe_commands : json :=
  JArr [JStr "STRATEGY:balanced"; JStr "MODE:roam"].

(** [RoR2BrainOutput], without the two clock readings. *)
Record RoR2BrainOutput := { commands : json; reasoning : json }.

(** [len(x)] is defined *)
Definition has_len (j : json) : bool :=
  match j with
  | JStr _ | JArr _ | JObj _ => true
  | _ => false
  end.

(** [c in s] for a character *)
Fixpoint has_char (c : ascii) (s : string) : bool :=
  match s with
  | EmptyString => false
  | String a r => Ascii.eqb a c || has_char c r
  end.

(** The two [setdefault] calls of [_parse_json_output]. *)
Definition defaults (d : list (string * json)) : list (string * json) :=
  setdefault "reasoning" (JStr "No reasoning provided")
    (setdefault "commands" safe_commands d).

Section Decoder.

(** [json.loads] on a [str]; [None] is [JSONDecodeError]. *)
Variable json_loads : string -> option json.

(** [parsed.setdefault(...)] twice; a decoded value that is not a dict
    has no [setdefault]. *)
Definition with_defaults (parsed : json) : outcome (list (string * json)) :=
  match parsed with
  | JObj d => Returned (defaults d)
  | _ => Raised "AttributeError"
  end.

Definition _parse_json_output (response_text : string)
  : outcome (list (string * json)) :=
  let parsed :=
    match json_loads response_text with
    | Some parsed => parsed
    | None =>
        match search_braces response_text with
        | Some group0 =>
            match json_loads group0 with
            | Some parsed => parsed
            | None => JObj []
            end
        | None => JObj []
        end
    end in
  with_defaults parsed.

Definition fallback_output : RoR2BrainOutput :=
  {| commands := safe_commands;
     reasoning := JStr "Error in brain generation — using safe fallback" |}.

(** [generate_commands]: [api_reply] is the message content returned by
    the completion endpoint, or the exception of the HTTP exchange.
    Everything runs under one [try]; the log line evaluates
    [len(brain_output.commands)]. *)
Definition generate_commands (api_reply : outcome string) : RoR2BrainOutput :=
  match api_reply with
  | Raised _ => fallback_output
  | Returned response_text =>
      match _parse_json_output response_text with
      | Raised _ => fallback_output
      | Returned response_dict =>
          let out :=
            {| commands := default (JArr []) (dict_get response_dict "commands");
               reasoning := default (JStr EmptyString)
                              (dict_get response_dict "reasoning") |} in
          if has_len (commands out) then out else fallback_output
      end
  end.

End Decoder.

(** What the provider's contract asks of the commands: a list of one to
    five strings. *)
Definition is_str (j : json) : bool :=
  match j with JStr _ => true | _ => false end.

Definition one_to_five_intents (j : json) : bool :=
  match j with
  | JArr items =>
      forallb is_str items && (1 <=? length items) && (length items <=? 5)
  | _ => false
  end.

End Model.

(** ** A decoder for a subset of JSON

    [json.loads] is a library function; the statements about
    [_parse_json_output] hold for any decoder.  To run the parsing on
    concrete replies, [MiniJson.loads] decodes the JSON texts built from
    objects, arrays, strings without escapes, integers, [true], [false]
    and [null], as [json.loads] does.  It answers [Unsupported] (never
    [DecodeError]) on what it does not cover: fractions, exponents,
    escapes, [NaN], [Infinity], or too little fuel. *)

Module MiniJson.
Import Model.

Inductive pres (A : Type) :=
| POk (a : A) (rest : string)
| PErr
| PUnsup.
Arguments POk {A} a rest.
Arguments PErr {A}.
Arguments PUnsup {A}.

Definition quote : ascii := "034"%char.

Definition is_ws (c : ascii) : bool :=
  match c with
  | " " | "009" | "010" | "013" => true
  | _ => false
  end%char.

Fixpoint skip_ws (s : string) : string :=
  match s with
  | String c r => if is_ws c then skip_ws r else s
  | EmptyString => s
  end.

(** The characters of a string literal, after its opening quote. *)
Fixpoint scan_string (s : string) : pres string :=
  match s with
  | EmptyString => PErr
  | String c r =>
      if Ascii.eqb c quote then POk EmptyString r
      else if Ascii.eqb c "\" then PUnsup
      else if nat_of_ascii c <? 32 then PErr
      else match scan_string r with
           | POk t r' => POk (String c t) r'
           | PErr => PErr
           | PUnsup => PUnsup
           end
  end.

Definition digit_of (c : ascii) : option Z :=
  let n := nat_of_ascii c in
  if (48 <=? n) && (n <=? 57) then Some (Z.of_nat (n - 48)) else None.

Fixpoint scan_digits (acc : Z) (s : string) : Z * string :=
  match s with
  | String c r =>
      match digit_of c with
      | Some d => scan_digits (10 * acc + d) r
      | None => (acc, s)
      end
  | EmptyString => (acc, s)
  end.

(** An integer is not followed by a fraction or an exponent. *)
Definition int_end (v : Z) (rest : string) : pres json :=
  match rest with
  | String c _ =>
      if Ascii.eqb c "." || Ascii.eqb c "e" || Ascii.eqb c "E"
      then PUnsup else POk (JInt v) rest
  | EmptyString => POk (JInt v) rest
  end.

(** [0] or a digit string without leading zero. *)
Definition scan_nat (sign : Z) (s : string) : pres json :=
  match s with
  | String c r =>
      match digit_of c with
      | Some 0%Z => int_end 0 r
      | Some d => let '(v, rest) := scan_digits d r in int_end (sign * v) rest
      | None => if Ascii.eqb c "I" then PUnsup else PErr
      end
  | EmptyString => PErr
  end.

Definition scan_scalar (s : string) : pres json :=
  if String.prefix "true" s then POk (JBool true) (String.substring 4 (String.length s - 4) s)
  else if String.prefix "false" s then POk (JBool false) (String.substring 5 (String.length s - 5) s)
  else if String.prefix "null" s then POk JNull (String.substring 4 (String.length s - 4) s)
  else if String.prefix "NaN" s || String.prefix "Infinity" s then PUnsup
  else match s with
       | String "-" r => scan_nat (-1) r
       | _ => scan_nat 1 s
       end.

(** A repeated key keeps its place and takes the later value. *)
Fixpoint dict_set (k : string) (v : json) (d : list (string * json))
  : list (string * json) :=
  match d with
  | [] => [(k, v)]
  | (k', v') :: r =>
      if String.eqb k' k then (k, v) :: r else (k', v') :: dict_set k v r
  end.

Fixpoint parse_value (fuel : nat) (s : string) : pres json :=
  match fuel with
  | O => PUnsup
  | S fuel =>
      match s with
      | String "{" r =>
          match skip_ws r with
          | String "}" r' => POk (JObj []) r'
          | r1 => parse_members fuel [] r1
          end
      | String "[" r =>
          match skip_ws r with
          | String "]" r' => POk (JArr []) r'
          | r1 => parse_elements fuel [] r1
          end
      | String "034" r =>
          match scan_string r with
          | POk t r' => POk (JStr t) r'
          | PErr => PErr
          | PUnsup => PUnsup
          end
      | _ => scan_scalar s
      end
  end
with parse_elements (fuel : nat) (acc : list json) (s : string) : pres json :=
  match fuel with
  | O => PUnsup
  | S fuel =>
      match parse_value fuel s with
      | POk v r =>
          match skip_ws r with
          | String "," r' => parse_elements fuel (acc ++ [v]) (skip_ws r')
          | String "]" r' => POk (JArr (acc ++ [v])) r'
          | _ => PErr
          end
      | PErr => PErr
      | PUnsup => PUnsup
      end
  end
with parse_members (fuel : nat) (acc : list (string * json)) (s : string)
  : pres json :=
  match fuel with
  | O => PUnsup
  | S fuel =>
      match s with
      | String "034" r =>
          match scan_string r with
          | POk k r1 =>
              match skip_ws r1 with
              | String ":" r2 =>
                  match parse_value fuel (skip_ws r2) with
                  | POk v r3 =>
                      match skip_ws r3 with
                      | String "," r4 =>
                          parse_members fuel (dict_set k v acc) (skip_ws r4)
                      | String "}" r4 => POk (JObj (dict_set k v acc)) r4
                      | _ => PErr
                      end
                  | PErr => PErr
                  | PUnsup => PUnsup
                  end
              | _ => PErr
              end
          | PErr => PErr
          | PUnsup => PUnsup
          end
      | _ => PErr
      end
  end.

Inductive decode_result :=
| Decoded (j : json)
| DecodeError
| Unsupported.

(** Leading whitespace, one value, trailing whitespace, end of text. *)
Definition decode (s : string) : decode_result :=
  match parse_value (2 * String.length s + 2) (skip_ws s) with
  | POk v rest =>
      match skip_ws rest with
      | EmptyString => Decoded v
      | _ => DecodeError
      end
  | PErr => DecodeError
  | PUnsup => Unsupported
  end.

Definition loads (s : string) : option json :=
  match decode s with
  | Decoded j => Some j
  | _ => None
  end.

End MiniJson.

(** A double quote, and a quoted word, for writing JSON texts. *)
Definition dq : string := String MiniJson.quote EmptyString.
Definition quoted (s : string) : string := dq +:+ s +:+ dq.

(** A run of [_add_to_ledger] calls, each with its three arguments. *)
Definition add_all (calls : list (string * string * string)) (l : list action)
  : list action :=
  fold_left (fun l c => _add_to_ledger c.1.1 c.1.2 c.2 l) calls l.

(** The six event names [_process_event] has a branch for. *)
Definition recognized_event_names : list string :=
  ["action_started"; "action_complete"; "action_failed";
   "stuck"; "combat_entered"; "low_health"].

(** ** Vocabulary of the statements *)

(** The reason an [action_started] event writes. *)
Definition started_reason (event : gmap string string) : string :=
  "found " +:+ Py.get event "target" "?" +:+
  " at " +:+ Py.get event "distance" "?" +:+ "m".

(** Number of pending entries for a command. *)
Definition count_pending (c : string) (l : list action) : nat :=
  length (List.filter (is_pending_for c) l).

(** The dedup of start notifications, for two [action_started] events
    that carry the command [c]. *)
Definition started_dedup (event1 event2 : gmap string string) (c : string)
    (l : list action) : Prop :=
  let after1 := _process_event event1 l in
  let after2 := _process_event event2 after1 in
  (count_pending c l = 1 ->
     count_pending c after2 = 1 /\
     exists l1 a l2,
       l = l1 ++ a :: l2 /\ is_pending_for c a = true /\
       after2 = l1 ++ set_reason (started_reason event2) a :: l2) /\
  (count_pending c l = 0 ->
     after1 = _add_to_ledger c pending (started_reason event1) l).

(** The handling of an [action_failed] event that carries the command [c]. *)
Definition failed_recorded (event : gmap string string) (c : string)
    (l : list action) : Prop :=
  let rs := Py.get event "reason" "unknown" in
  (forall l1 a l2,
     l = l1 ++ a :: l2 ->
     Forall (fun x => is_pending_for c x = false) l1 ->
     is_pending_for c a = true ->
     _process_event event l = l1 ++ Action c failed rs :: l2) /\
  (Forall (fun x => is_pending_for c x = false) l ->
     _process_event event l = _add_to_ledger c failed rs l).

(** Started, completed and failed notifications that carry the command
    [c]. *)
Definition on_command (c : string) (event : gmap string string) : Prop :=
  event !! "command" = Some c /\
  In (Py.get event "event_type" EmptyString)
     ["action_started"; "action_complete"; "action_failed"].

(** Forward-only transitions at the last event of a run that starts from
    the empty ledger. *)
Definition forward_only_on (c : string) (before : list (gmap string string))
    (event : gmap string string) : Prop :=
  Forall (on_command c) (before ++ [event]) ->
  Tracked.respects_forward
    (Tracked.process_events before Tracked.empty)
    (Tracked.process_events (before ++ [event]) Tracked.empty).

(** What the inner loop of [_check_action_completion] does to one entry. *)
Definition mark_opened_entry (target : string * string) (a : action) : action :=
  if is_open_find target.1 a
  then set_reason (target.2 +:+ " opened") (set_status success a)
  else a.

(** ** Sample data *)

Definition teleporter_cmd : string := "FIND_AND_INTERACT:teleporter".
Definition chest_cmd : string := "FIND_AND_INTERACT:chest".

Definition ten_entries : list action :=
  map (fun st => Action "MODE:roam" st EmptyString)
    [success; failed; pending; interrupted; pending;
     pending; pending; pending; pending; pending].

Definition combat_ledger : list action :=
  [Action "FIND_AND_INTERACT:chest" pending "found Chest1 at 30m";
   Action "FIND_AND_INTERACT:teleporter" pending "found Teleporter1 at 80m";
   Action "MODE:roam" pending EmptyString;
   Action "FIND_AND_INTERACT:shrine" success "Shrine opened"].

(** The scenario of the disappearance inference: the chest "Chest_A" was
    seen at the previous tick, one chest interaction is pending. *)
Definition chest_scenario : RoR2BrainController := {|
  action_ledger := [Action "FIND_AND_INTERACT:chest" pending "found Chest_A at 12m"];
  last_seen_interactables := {[ ("chest", "Chest_A") ]};
  _prev_boss_active := false;
  boss_active := false;
  user_directive := None;
  directive_timestamp := None;
  directive_type := "strategic";
  directive_ttl := 600
|}.

Definition stale_bridge : Transport.SocketBridge string := {|
  Transport.connected := false;
  Transport.client_socket := Some 5;
  Transport._response_queue := ["stale response"];
  Transport._event_queue := []
|}.

(** Two replies. *)
Definition reply_no_commands : string := "{" +:+ quoted "commands" +:+ ": []}".

Definition reply_object : string :=
  "{" +:+ quoted "commands" +:+ ": [" +:+ quoted "MODE:combat" +:+ "]}".

Definition reply_two_objects : string := "ok " +:+ reply_object +:+ " and {}".

(** ** More of the controller: directive auto-clear and decision execution *)

(** [l[-n:]] for a positive [n] *)
Definition last_n {A} (n : nat) (l : list A) : list A := drop (length l - n) l.

Definition match_keywords : list string := ["teleporter"; "chest"; "shrine"; "shop"].

(** [_action_matches_directive(command)] *)
Definition _action_matches_directive (command : string)
    (self : RoR2BrainController) : bool :=
  match user_directive self with
  | None => false
  | Some directive =>
      if negb (Py.truthy directive) then false
      else
        let directive_lower := Py.lower directive in
        let command_lower := Py.lower command in
        existsb (fun kw => Py.contains kw directive_lower &&
                           Py.contains kw command_lower) match_keywords
  end.

Definition clear_directive (self : RoR2BrainController) : RoR2BrainController :=
  {| action_ledger := action_ledger self;
     last_seen_interactables := last_seen_interactables self;
     _prev_boss_active := _prev_boss_active self;
     boss_active := boss_active self;
     user_directive := None;
     directive_timestamp := None;
     directive_type := directive_type self;
     directive_ttl := directive_ttl self |}.

(** [not self.user_directive] *)
Definition no_directive (self : RoR2BrainController) : bool :=
  match user_directive self with
  | None => true
  | Some directive => negb (Py.truthy directive)
  end.

(** [_try_auto_clear_directive()] *)
Definition _try_auto_clear_directive (self : RoR2BrainController)
  : RoR2BrainController :=
  if negb (String.eqb (directive_type self) "tactical") || no_directive self
  then self
  else if existsb (fun a => String.eqb (status a) success &&
                            _action_matches_directive (command a) self)
                  (last_n 5 (action_ledger self))
       then clear_directive self
       else self.

(** [s.upper()], on ASCII text *)
Definition upper_ascii (c : ascii) : ascii :=
  let n := nat_of_ascii c in
  if (97 <=? n) && (n <=? 122) then ascii_of_nat (n - 32) else c.

Fixpoint upper (s : string) : string :=
  match s with
  | EmptyString => EmptyString
  | String c s' => String (upper_ascii c) (upper s')
  end.

(** [s.split(':', 1)]: the text before the first colon, and the text after
    it when there is a colon. *)
Fixpoint split_colon (s : string) : string * option string :=
  match s with
  | EmptyString => (EmptyString, None)
  | String c r =>
      if Ascii.eqb c ":" then (EmptyString, Some r)
      else let '(a, b) := split_colon r in (String c a, b)
  end.

(** What [_execute_decision] reads and writes: the ledger and the two
    persistent settings [game_state.current_strategy] and
    [game_state.current_mode]. *)
Record exec_state := {
  exec_ledger : list action;
  current_strategy : string;
  current_mode : string
}.

(** A call [self.bridge.send_command(command, args)]; [set_strategy],
    [set_mode] and [goto_cancel] are such calls. *)
Definition bridge_call : Type := string * string.

(** First loop of [_execute_decision]: every command that does not start
    with FIND_AND_INTERACT is registered as pending. *)
Definition register_commands (commands : list string) (l : list action)
  : list action :=
  fold_left
    (fun l cmd_str =>
       if Py.startswith cmd_str "FIND_AND_INTERACT" then l
       else _add_to_ledger cmd_str pending EmptyString l)
    commands l.

(** Body of the second loop, for one command. *)
Definition dispatch_command (cmd_str : string) (st : exec_state)
  : exec_state * list bridge_call :=
  match split_colon cmd_str with
  | (_, None) => (st, [])
  | (head, Some args) =>
      let cmd := upper head in
      let args_lower := Py.lower args in
      if String.eqb cmd "STRATEGY" then
        if negb (String.eqb args_lower (current_strategy st)) then
          ({| exec_ledger := exec_ledger st;
              current_strategy := args_lower;
              current_mode := current_mode st |},
           [("STRATEGY", args_lower)])
        else (st, [])
      else if String.eqb cmd "MODE" then
        if negb (String.eqb args_lower (current_mode st)) then
          ({| exec_ledger := exec_ledger st;
              current_strategy := current_strategy st;
              current_mode := args_lower |},
           [("MODE", args_lower)])
        else (st, [])
      else if String.eqb cmd "FIND_AND_INTERACT" then
        (st, [("FIND_AND_INTERACT", args_lower)])
      else if String.eqb cmd "GOTO" && String.eqb args_lower "cancel" then
        (st, [("GOTO", "CANCEL")])
      else if String.eqb cmd "BUY_SHOP_ITEM" then
        (st, [("BUY_SHOP_ITEM", args)])
      else (st, [])
  end.

Fixpoint dispatch_commands (commands : list string) (st : exec_state)
  : exec_state * list bridge_call :=
  match commands with
  | [] => (st, [])
  | cmd_str :: rest =>
      let '(st1, calls1) := dispatch_command cmd_str st in
      let '(st2, calls2) := dispatch_commands rest st1 in
      (st2, calls1 ++ calls2)
  end.

(** [_execute_decision(decision)] on the commands of the decision: the
    state afterwards and the calls made on the bridge, in order. *)
Definition _execute_decision (commands : list string) (st : exec_state)
  : exec_state * list bridge_call :=
  dispatch_commands commands
    {| exec_ledger := register_commands commands (exec_ledger st);
       current_strategy := current_strategy st;
       current_mode := current_mode st |}.

(** The arguments of the calls with a given verb. *)
Definition args_of (verb : string) (calls : list bridge_call) : list string :=
  map snd (List.filter (fun call => String.eqb call.1 verb) calls).

(** Each value differs from the one before it, the first from [cur]. *)
Fixpoint each_changes (cur : string) (xs : list string) : Prop :=
  match xs with
  | [] => True
  | x :: r => x <> cur /\ each_changes x r
  end.

Definition bridge_verbs : list string :=
  ["STRATEGY"; "MODE"; "FIND_AND_INTERACT"; "GOTO"; "BUY_SHOP_ITEM"].

(** Text made of ASCII characters only: on such text [Py.lower] and
    [upper] are Python's [str.lower] and [str.upper]. *)
Definition ascii_char (c : ascii) : bool := nat_of_ascii c <? 128.

Fixpoint ascii_text (s : string) : bool :=
  match s with
  | EmptyString => true
  | String c r => ascii_char c && ascii_text r
  end.

(** ** Transport: the reader thread, the two queues, reconnection, commands *)

Module Wire.
Import Model.

(** A wire record that is a JSON object (a Python dict). *)
Definition wire_record : Type := list (string * json).

(** [queue.Queue(maxsize=200)] *)
Definition event_queue_maxsize : nat := 200.

Definition set_event_queue (q : list wire_record)
    (self : Transport.SocketBridge wire_record)
  : Transport.SocketBridge wire_record :=
  {| Transport.connected := Transport.connected self;
     Transport.client_socket := Transport.client_socket self;
     Transport._response_queue := Transport._response_queue self;
     Transport._event_queue := q |}.

(** [put_nowait(msg)]; on [queue.Full], [get_nowait()] drops the oldest
    and [put_nowait(msg)] is tried again; [queue.Empty] there is passed
    over. *)
Definition put_event (msg : wire_record) (q : list wire_record)
  : list wire_record :=
  if length q <? event_queue_maxsize then q ++ [msg]
  else match q with
       | _ :: q' => q' ++ [msg]
       | [] => q
       end.

(** [msg.get("type") == "EVENT"] *)
Definition is_event (msg : wire_record) : bool :=
  match dict_get msg "type" with
  | Some (JStr t) => String.eqb t "EVENT"
  | _ => false
  end.

(** What one [readline()] of the reader brings, after [decode], [strip]
    and [json.loads]. *)
Inductive reader_input :=
| EndOfStream                (* no bytes: the peer closed *)
| Undecodable                (* not UTF-8: [decode] raises *)
| BlankLine
| BadJson                    (* [JSONDecodeError]: logged, skipped *)
| Parsed (msg : json).

(** One iteration of the loop of [_reader_loop].  A decoded value that is
    not a dict has no [get]: the exception ends the reader like any other,
    with the connected flag down. *)
Definition reader_step (input : reader_input)
    (self : Transport.SocketBridge wire_record)
  : Transport.SocketBridge wire_record :=
  match input with
  | EndOfStream | Undecodable => Transport.set_connected wire_record false self
  | BlankLine | BadJson => self
  | Parsed (JObj msg) =>
      if is_event msg
      then set_event_queue (put_event msg (Transport._event_queue self)) self
      else Transport.set_response_queue wire_record
             (Transport._response_queue self ++ [msg]) self
  | Parsed _ => Transport.set_connected wire_record false self
  end.

(** [_reader_loop]: [while self.connected: ...] over the lines received. *)
Fixpoint _reader_loop (inputs : list reader_input)
    (self : Transport.SocketBridge wire_record)
  : Transport.SocketBridge wire_record :=
  match inputs with
  | [] => self
  | input :: rest =>
      if Transport.connected self then _reader_loop rest (reader_step input self)
      else self
  end.

(** [poll_events()]: the drained events, oldest first, and the bridge
    afterwards. *)
Definition poll_events (self : Transport.SocketBridge wire_record)
  : list wire_record * Transport.SocketBridge wire_record :=
  (Transport._event_queue self, set_event_queue [] self).

(** One iteration of [_accept_loop] in which the peer [client] connects:
    while connected the loop only sleeps; otherwise both queues are
    flushed and the new socket replaces the old one. *)
Definition accept_iteration (client : nat)
    (self : Transport.SocketBridge wire_record)
  : Transport.SocketBridge wire_record :=
  if Transport.connected self then self
  else {| Transport.connected := true;
          Transport.client_socket := Some client;
          Transport._response_queue := [];
          Transport._event_queue := [] |}.

(** The inputs that keep the reader running. *)
Definition benign (input : reader_input) : bool :=
  match input with
  | BlankLine | BadJson | Parsed (JObj _) => true
  | _ => false
  end.

(** The events, and the other records, among the inputs, in order. *)
Fixpoint events_of (inputs : list reader_input) : list wire_record :=
  match inputs with
  | Parsed (JObj msg) :: rest =>
      if is_event msg then msg :: events_of rest else events_of rest
  | _ :: rest => events_of rest
  | [] => []
  end.

Fixpoint responses_of (inputs : list reader_input) : list wire_record :=
  match inputs with
  | Parsed (JObj msg) :: rest =>
      if is_event msg then responses_of rest else msg :: responses_of rest
  | _ :: rest => responses_of rest
  | [] => []
  end.

Section Commands.

Variable json_dumps : gmap string string -> string.

(** [bool(response and "error" not in response)] *)
Definition accepted (response : option wire_record) : bool :=
  match response with
  | Some [] => false
  | Some msg => negb (bool_decide (is_Some (dict_get msg "error")))
  | None => false
  end.

(** [Bridge.send_command(command, args)] *)
Definition send_command (command args : string)
    (w : Transport.world wire_record)
    (self : Transport.SocketBridge wire_record)
  : bool * Transport.SocketBridge wire_record * list Transport.io :=
  if negb (Transport.connected self) then (false, self, [])
  else
    let '(response, self', trace) :=
      Transport.send_query json_dumps "COMMAND"
        (<["command" := command]> (<["args" := args]> ∅)) w self in
    (accepted response, self', trace).

End Commands.

End Wire.

(** ** The rule-based decision ([game_state.py], [_generate_heuristic_decision]) *)

Module Types.

(** [types.ObjectiveData], the fields the game state reads. *)
Record ObjectiveData := {
  teleporter_charged : bool;
  teleporter_charge : Q;
  boss_active : bool
}.

End Types.

Module GameState.

(** [types.InteractableInfo], the fields the game state reads; [int] is
    [Z], [float] is a rational.  [boss_active_] is the attribute
    [boss_active] of an interactable (the game state has one of the same
    name). *)
Record InteractableInfo := {
  type : string;
  name : string;
  cost : Z;
  distance : Q;
  charged : bool;
  charge_percent : Q;
  boss_active_ : bool
}.

(** [RoR2GameState], the attributes the decision reads. *)
Record RoR2GameState := {
  health_percent : Q;
  money : Z;
  num_enemies : Z;
  in_combat : bool;
  teleporter_charged : bool;
  teleporter_charge : Q;
  boss_active : bool;
  interactables : list InteractableInfo
}.

Definition is_critical_health (g : RoR2GameState) : bool :=
  Qlt_bool (health_percent g) 30.

Definition is_low_health (g : RoR2GameState) : bool :=
  Qlt_bool (health_percent g) 50.

Definition is_surrounded (g : RoR2GameState) : bool := (5 <=? num_enemies g)%Z.

Definition should_be_defensive (g : RoR2GameState) : bool :=
  is_critical_health g || (is_low_health g && is_surrounded g).

Definition should_be_aggressive (g : RoR2GameState) : bool :=
  Qlt_bool 70 (health_percent g) && boss_active g && negb (is_surrounded g).

Definition get_affordable_chests (g : RoR2GameState) : list InteractableInfo :=
  List.filter (fun i => String.eqb (type i) "chest" && (cost i <=? money g)%Z)
    (interactables g).

(** [min(l, key=lambda c: c.distance)] on a non-empty list: the first
    element of least distance. *)
Fixpoint min_by_distance (best : InteractableInfo) (l : list InteractableInfo)
  : InteractableInfo :=
  match l with
  | [] => best
  | x :: r =>
      min_by_distance (if Qlt_bool (distance x) (distance best) then x else best) r
  end.

Definition get_nearest_chest (g : RoR2GameState) : option InteractableInfo :=
  match get_affordable_chests g with
  | [] => None
  | x :: r => Some (min_by_distance x r)
  end.

Definition set_interactables (inters : list InteractableInfo)
    (g : RoR2GameState) : RoR2GameState :=
  {| health_percent := health_percent g;
     money := money g;
     num_enemies := num_enemies g;
     in_combat := in_combat g;
     teleporter_charged := teleporter_charged g;
     teleporter_charge := teleporter_charge g;
     boss_active := boss_active g;
     interactables := inters |}.

Definition set_teleporter (is_charged : bool) (charge : Q) (boss : bool)
    (g : RoR2GameState) : RoR2GameState :=
  {| health_percent := health_percent g;
     money := money g;
     num_enemies := num_enemies g;
     in_combat := in_combat g;
     teleporter_charged := is_charged;
     teleporter_charge := charge;
     boss_active := boss;
     interactables := interactables g |}.

Definition is_teleporter (i : InteractableInfo) : bool :=
  String.eqb (type i) "teleporter".

(** [update_from_interactables(interactables)]: the list is stored, and
    the first teleporter of the list, if any, sets the three flags. *)
Definition update_from_interactables (inters : list InteractableInfo)
    (g : RoR2GameState) : RoR2GameState :=
  let g := set_interactables inters g in
  match List.find is_teleporter inters with
  | Some i => set_teleporter (charged i) (charge_percent i) (boss_active_ i) g
  | None => g
  end.

(** [update_from_objective(objective)] *)
Definition update_from_objective (objective : Types.ObjectiveData)
    (g : RoR2GameState) : RoR2GameState :=
  set_teleporter (Types.teleporter_charged objective)
                 (Types.teleporter_charge objective)
                 (Types.boss_active objective) g.

(** The three flags of the stage. *)
Definition stage_flags (g : RoR2GameState) : bool * Q * bool :=
  (teleporter_charged g, teleporter_charge g, boss_active g).

Record decision := {
  commands : list string;
  reasoning : string;
  source : string
}.

Section Formatting.

(** [f"{x:.0f}"] on a float and [str(n)] on an int. *)
Variable format_0f : Q -> string.
Variable str_of_int : Z -> string.

(** [_generate_heuristic_decision()] *)
Definition _generate_heuristic_decision (g : RoR2GameState) : decision :=
  if is_critical_health g then
    {| commands := ["STRATEGY:defensive"; "GOTO:CANCEL"; "MODE:roam"];
       reasoning := "Critical health (" +:+ format_0f (health_percent g) +:+
                    "%) — retreating";
       source := "heuristic" |}
  else if teleporter_charged g then
    {| commands := ["FIND_AND_INTERACT:teleporter"];
       reasoning := "Teleporter charged — activating for next stage";
       source := "heuristic" |}
  else if Qlt_bool 0 (teleporter_charge g) then
    {| commands := ["MODE:combat"; "STRATEGY:balanced"];
       reasoning := "Teleporter charging (" +:+ format_0f (teleporter_charge g) +:+
                    "%) — defending";
       source := "heuristic" |}
  else
    match (if negb (in_combat g) && (0 <? money g)%Z
           then get_nearest_chest g else None) with
    | Some chest =>
        {| commands := ["FIND_AND_INTERACT:chest"; "MODE:combat"];
           reasoning := "Opening chest (cost: " +:+ str_of_int (cost chest) +:+ ")";
           source := "heuristic" |}
    | None =>
        if boss_active g && Qlt_bool 60 (health_percent g) then
          {| commands := ["STRATEGY:aggressive"; "MODE:combat"];
             reasoning := "Boss active — engaging aggressively";
             source := "heuristic" |}
        else
          let '(strategy, reasoning0) :=
            if should_be_defensive g then
              ("STRATEGY:defensive", "Defensive exploration")
            else if should_be_aggressive g then
              ("STRATEGY:aggressive", "Aggressive exploration")
            else ("STRATEGY:balanced", "Balanced exploration") in
          {| commands := [strategy; "MODE:roam"];
             reasoning := reasoning0 +:+ " — roaming and engaging enemies";
             source := "heuristic" |}
    end.

End Formatting.

(** The commands the rules can issue. *)
Definition heuristic_vocabulary : list string :=
  ["STRATEGY:defensive"; "STRATEGY:balanced"; "STRATEGY:aggressive";
   "MODE:roam"; "MODE:combat"; "GOTO:CANCEL";
   "FIND_AND_INTERACT:chest"; "FIND_AND_INTERACT:teleporter"].

End GameState.

(** ** [Bridge.query_interactables]: the closest interactable of each type *)

Module Queries.
Import GameState.

(** [d[k] = v] on a dict kept as its items in insertion order *)
Fixpoint dict_put (k : string) (v : InteractableInfo)
    (d : list (string * InteractableInfo)) : list (string * InteractableInfo) :=
  match d with
  | [] => [(k, v)]
  | (k', v') :: r =>
      if String.eqb k' k then (k, v) :: r else (k', v') :: dict_put k v r
  end.

(** [d.get(k)] *)
Definition dict_find (k : string) (d : list (string * InteractableInfo))
  : option InteractableInfo :=
  snd <$> find (fun kv => String.eqb kv.1 k) d.

(** Body of the loop:
    [if inter.type not in closest_by_type
        or inter.distance < closest_by_type[inter.type].distance:
       closest_by_type[inter.type] = inter] *)
Definition keep_closest (d : list (string * InteractableInfo))
    (inter : InteractableInfo) : list (string * InteractableInfo) :=
  match dict_find (type inter) d with
  | None => dict_put (type inter) inter d
  | Some current =>
      if Qlt_bool (distance inter) (distance current)
      then dict_put (type inter) inter d
      else d
  end.

(** The selection of [query_interactables] on the records built from the
    response, and [list(closest_by_type.values())]. *)
Definition closest_by_type (inters : list InteractableInfo) : list InteractableInfo :=
  map snd (fold_left keep_closest inters []).

(** What the loop keeps true of the dict [d] after the records [seen]. *)
Definition selected (d : list (string * InteractableInfo))
    (seen : list InteractableInfo) : Prop :=
  List.NoDup (map fst d) /\
  (forall k v, In (k, v) d -> type v = k /\ In v seen) /\
  (forall x, In x seen ->
     exists v, dict_find (type x) d = Some v /\ (distance v <= distance x)%Q).

(** [_run_decision_loop], the refresh of the stage data:
    [interactables = self.bridge.query_interactables()],
    [self.game_state.update_from_interactables(interactables)], and
    [self.game_state.update_from_objective(objective)] when the objective
    query was answered.  [response] lists the records of the response. *)
Definition refresh_stage (response : list InteractableInfo)
    (objective : option Types.ObjectiveData) (g : RoR2GameState) : RoR2GameState :=
  let g := update_from_interactables (closest_by_type response) g in
  match objective with
  | Some o => update_from_objective o g
  | None => g
  end.

End Queries.

(** ** The message sent to the model ([model.py], [_generate_llm_decision]) *)

Definition newline : string := String "010" EmptyString.

(** [sep.join(parts)] *)
Fixpoint join (sep : string) (parts : list string) : string :=
  match parts with
  | [] => EmptyString
  | [p] => p
  | p :: rest => p +:+ sep +:+ join sep rest
  end.

(** [_build_user_message(brain_input)] on the three fields of the input *)
Definition _build_user_message (game_state_summary : string)
    (user_directive : option string) (last_commands : list string) : string :=
  let parts := [game_state_summary] in
  let parts :=
    match last_commands with
    | [] => parts
    | _ =>
        parts ++
        [newline +:+ "Recent commands sent to mod:" +:+ newline +:+
         join newline (map (fun cmd => "  - " +:+ cmd) (last_n 3 last_commands))]
    end in
  let parts :=
    match user_directive with
    | Some directive =>
        if Py.truthy directive
        then parts ++ [newline +:+ "User directive: " +:+ directive]
        else parts
    | None => parts
    end in
  join newline parts.

(** [_generate_llm_decision]:
    [self.user_directive if self._is_directive_valid() else None] *)
Definition directive_for_model (now : Q) (self : RoR2BrainController)
  : option string :=
  if _is_directive_valid now self then user_directive self else None.

(** ** One cycle of the decision loop *)

Definition set_action_ledger (l : list action) (self : RoR2BrainController)
  : RoR2BrainController :=
  {| action_ledger := l;
     last_seen_interactables := last_seen_interactables self;
     _prev_boss_active := _prev_boss_active self;
     boss_active := boss_active self;
     user_directive := user_directive self;
     directive_timestamp := directive_timestamp self;
     directive_type := directive_type self;
     directive_ttl := directive_ttl self |}.

Section DecisionCycle.

Variable set_iter : gset (string * string) -> list (string * string).

(** [_run_decision_loop], between the queries and the decision:
    [for event in self.bridge.poll_events(): self._process_event(event)],
    then [self._check_action_completion(interactables)], then
    [self._try_auto_clear_directive()]. *)
Definition update_ledger_and_directive (events : list (gmap string string))
    (interactables : list InteractableInfo) (self : RoR2BrainController)
  : RoR2BrainController :=
  _try_auto_clear_directive
    (_check_action_completion set_iter interactables
       (set_action_ledger (process_events events (action_ledger self)) self)).

End DecisionCycle.

(** [_generate_llm_decision], the history of commands:
    [self.last_commands.extend(brain_output.commands)], then
    [if len(self.last_commands) > 10:
        self.last_commands = self.last_commands[-10:]],
    for a reply whose commands are a list of strings. *)
Definition extend_last_commands {A} (commands last_commands : list A)
  : list A :=
  let extended := last_commands ++ commands in
  if 10 <? length extended then last_n 10 extended else extended.

(** ** The decision of the model as the controller takes it *)

Module Llm.
Import Model.

(** The dict returned by [_generate_decision]. *)
Record decision := { commands : json; reasoning : json; source : string }.

Definition of_heuristic (d : GameState.decision) : decision :=
  {| commands := JArr (map JStr (GameState.commands d));
     reasoning := JStr (GameState.reasoning d);
     source := GameState.source d |}.

Section Decision.

Variable json_loads : string -> option json.
Variable format_0f : Q -> string.
Variable str_of_int : Z -> string.

(** The characters of a [str], as iterating over it yields them. *)
Variable chars : string -> list string.

(** What [list.extend(x)] appends: the items of a list, the characters
    of a str, the keys of a dict; other decoded values are not iterable. *)
Definition iterate (x : json) : outcome (list json) :=
  match x with
  | JArr items => Returned items
  | JStr s => Returned (map JStr (chars s))
  | JObj d => Returned (map (fun kv => JStr kv.1) d)
  | _ => Raised "TypeError"
  end.

(** [_generate_llm_decision()], on the reply of the completion endpoint,
    the history of commands and the game state; the result is the
    decision and the new history.  The summaries are built from typed
    attributes and a failing callback is caught on its own, so within
    the [try] only [generate_commands] and [extend] are at stake; the
    [except] branch returns the heuristic decision. *)
Definition _generate_llm_decision (api_reply : outcome string)
    (last_commands : list json) (g : GameState.RoR2GameState)
  : decision * list json :=
  let brain_output := generate_commands json_loads api_reply in
  match iterate (Model.commands brain_output) with
  | Returned items =>
      ({| commands := Model.commands brain_output;
          reasoning := Model.reasoning brain_output;
          source := "llm" |},
       extend_last_commands items last_commands)
  | Raised _ =>
      (of_heuristic (GameState._generate_heuristic_decision format_0f str_of_int g),
       last_commands)
  end.

End Decision.

End Llm.

(** ** The ledger as the model reads it ([_get_ledger_summary]) *)

(** One line of the summary: the command, an arrow, the status, and the
    reason in parentheses when there is one. *)
Definition ledger_line (a : action) : string :=
  let status_str :=
    if Py.truthy (reason a) then status a +:+ " (" +:+ reason a +:+ ")"
    else status a in
  "• " +:+ command a +:+ " → " +:+ status_str.

(** [_get_ledger_summary()] *)
Definition _get_ledger_summary (l : list action) : string :=
  match l with
  | [] => EmptyString
  | _ => join newline ("Recent Action History:" :: map ledger_line (last_n 5 l))
  end.

(** [_generate_llm_decision]: the game state, followed by a newline and
    the ledger summary when the summary is not empty. *)
Definition full_summary (game_state : string) (l : list action) : string :=
  let ledger_summary := _get_ledger_summary l in
  game_state +:+
  (if Py.truthy ledger_summary then newline +:+ ledger_summary else EmptyString).

(** ** Resolved entries under events *)

Module TrackedRel.

(** One object before and after a step that leaves resolved objects alone. *)
Definition frozen_step (x y : nat * action) : Prop :=
  x.1 = y.1 /\ (is_open x.2 = false -> y.2 = x.2).

(** Every object present before and after that was resolved is the same. *)
Definition keeps_resolved (t t' : Tracked.ledger) : Prop :=
  forall i a a',
    In (i, a) (Tracked.entries t) -> In (i, a') (Tracked.entries t') ->
    is_open a = false -> a' = a.

End TrackedRel.

(** ** More sample data *)

Definition boss_scenario : RoR2BrainController := {|
  action_ledger := [Action "FIND_AND_INTERACT:teleporter" pending "found Teleporter1 at 5m";
                    Action "FIND_AND_INTERACT:chest" failed "no gold"];
  last_seen_interactables := {[ ("teleporter", "Teleporter1") ]};
  _prev_boss_active := false;
  boss_active := true;
  user_directive := None;
  directive_timestamp := None;
  directive_type := "strategic";
  directive_ttl := 600
|}.

Definition teleporter_present : list InteractableInfo :=
  [{| type := "teleporter"; name := "Teleporter1" |}].

Definition tactical_scenario (l : list action) : RoR2BrainController := {|
  action_ledger := l;
  last_seen_interactables := ∅;
  _prev_boss_active := false;
  boss_active := false;
  user_directive := Some "Open the Chest";
  directive_timestamp := Some 1000%Q;
  directive_type := "tactical";
  directive_ttl := 45
|}.

Definition stuck_record : Wire.wire_record :=
  [("type", Model.JStr "EVENT"); ("event_type", Model.JStr "stuck")].

Definition low_health_record : Wire.wire_record :=
  [("type", Model.JStr "EVENT"); ("event_type", Model.JStr "low_health")].

Definition inventory_record : Wire.wire_record :=
  [("type", Model.JStr "INVENTORY"); ("money", Model.JInt 25)].

Definition error_record : Wire.wire_record :=
  [("type", Model.JStr "error"); ("error", Model.JStr "unknown command")].

(** A connected bridge whose event queue is full. *)
Definition full_bridge : Transport.SocketBridge Wire.wire_record := {|
  Transport.connected := true;
  Transport.client_socket := Some 5;
  Transport._response_queue := [];
  Transport._event_queue := repeat stuck_record 200
|}.

(** A bridge that lost its peer with records of the old session queued. *)
Definition dropped_bridge : Transport.SocketBridge Wire.wire_record := {|
  Transport.connected := false;
  Transport.client_socket := Some 5;
  Transport._response_queue := [inventory_record];
  Transport._event_queue := [stuck_record]
|}.

Definition idle_bridge : Transport.SocketBridge Wire.wire_record := {|
  Transport.connected := true;
  Transport.client_socket := Some 5;
  Transport._response_queue := [];
  Transport._event_queue := []
|}.

Definition wounded_state : GameState.RoR2GameState := {|
  GameState.health_percent := 25;
  GameState.money := 100;
  GameState.num_enemies := 0;
  GameState.in_combat := false;
  GameState.teleporter_charged := true;
  GameState.teleporter_charge := 100;
  GameState.boss_active := true;
  GameState.interactables :=
    [{| GameState.type := "chest"; GameState.name := "Chest1";
        GameState.cost := 25; GameState.distance := 12;
        GameState.charged := false; GameState.charge_percent := 0;
        GameState.boss_active_ := false |}]
|}.

Definition looting_state : GameState.RoR2GameState := {|
  GameState.health_percent := 90;
  GameState.money := 30;
  GameState.num_enemies := 0;
  GameState.in_combat := false;
  GameState.teleporter_charged := false;
  GameState.teleporter_charge := 0;
  GameState.boss_active := false;
  GameState.interactables :=
    [{| GameState.type := "chest"; GameState.name := "Chest2";
        GameState.cost := 50; GameState.distance := 5;
        GameState.charged := false; GameState.charge_percent := 0;
        GameState.boss_active_ := false |};
     {| GameState.type := "chest"; GameState.name := "Chest1";
        GameState.cost := 25; GameState.distance := 12;
        GameState.charged := false; GameState.charge_percent := 0;
        GameState.boss_active_ := false |}]
|}.

Definition near_teleporter : GameState.InteractableInfo := {|
  GameState.type := "teleporter"; GameState.name := "Teleporter1";
  GameState.cost := 0; GameState.distance := 8;
  GameState.charged := true; GameState.charge_percent := 100;
  GameState.boss_active_ := true
|}.

Definition far_teleporter : GameState.InteractableInfo := {|
  GameState.type := "teleporter"; GameState.name := "Teleporter2";
  GameState.cost := 0; GameState.distance := 40;
  GameState.charged := false; GameState.charge_percent := 0;
  GameState.boss_active_ := false
|}.

Definition two_teleporters : list GameState.InteractableInfo :=
  [near_teleporter; far_teleporter].

(** * Properties *)

(** ** Python primitives *)

Lemma truthy_true (s : string) : Py.truthy s = true <-> s <> EmptyString.
Proof. destruct s; simpl; split; congruence. Qed.

Lemma get_lookup (d : gmap string string) (k dflt v : string) :
  d !! k = Some v -> Py.get d k dflt = v.
Proof. intros H. unfold Py.get. now rewrite H. Qed.

Lemma event_data_get (event : gmap string string) (k dflt : string) :
  k <> "type" -> k <> "event_type" ->
  Py.get (event_data_of event) k dflt = Py.get event k dflt.
Proof.
  intros H1 H2. unfold Py.get, event_data_of. f_equal.
  destruct (event !! k) as [v|] eqn:E.
  - apply map_lookup_filter_Some. split; [exact E | simpl; auto].
  - apply map_lookup_filter_None. left. exact E.
Qed.

Section UpdateFirst.
Context {A : Type} (p : A -> bool) (f : A -> A).

Lemma update_first_None (l : list A) :
  Py.update_first p f l = None <-> Forall (fun a => p a = false) l.
Proof.
  induction l as [|a r IH]; simpl.
  - split; auto.
  - destruct (p a) eqn:E.
    + split; [discriminate | intros H; inversion H; congruence].
    + destruct (Py.update_first p f r).
      * split; [discriminate |].
        intros H. inversion H as [|? ? _ Hr]. apply IH in Hr. discriminate.
      * split; auto. intros _. constructor; [exact E | now apply IH].
Qed.

(** A hit rewrites the first element that satisfies the guard, and that
    one only. *)
Lemma update_first_Some (l l' : list A) :
  Py.update_first p f l = Some l' <->
  exists l1 a l2,
    l = l1 ++ a :: l2 /\ Forall (fun x => p x = false) l1 /\
    p a = true /\ l' = l1 ++ f a :: l2.
Proof.
  revert l'. induction l as [|a r IH]; intros l'; simpl.
  - split; [discriminate |]. intros (l1 & a & l2 & H & _). now destruct l1.
  - destruct (p a) eqn:E.
    + split.
      * intros [= <-]. exists [], a, r. auto.
      * intros (l1 & b & l2 & H & Hl1 & Hb & ->).
        destruct l1 as [|x l1]; simpl in *.
        -- now inversion H.
        -- inversion H; subst. inversion Hl1. congruence.
    + destruct (Py.update_first p f r) as [r'|] eqn:Er.
      * split.
        -- intros [= <-].
           destruct (proj1 (IH r') eq_refl) as (l1 & b & l2 & -> & Hl1 & Hb & ->).
           exists (a :: l1), b, l2. repeat split; auto.
        -- intros (l1 & b & l2 & H & Hl1 & Hb & ->).
           destruct l1 as [|x l1]; simpl in *.
           ++ inversion H; subst. congruence.
           ++ inversion H; subst. inversion Hl1; subst.
              f_equal. f_equal.
              assert (Some r' = Some (l1 ++ f b :: l2)) as [= ->]; [|reflexivity].
              apply IH. exists l1, b, l2. auto.
      * split; [discriminate |].
        intros (l1 & b & l2 & H & Hl1 & Hb & ->).
        destruct l1 as [|x l1]; simpl in *.
        -- inversion H; subst. congruence.
        -- inversion H; subst. inversion Hl1; subst.
           assert (None = Some (l1 ++ f b :: l2)) as H0; [|discriminate H0].
           apply IH. exists l1, b, l2. auto.
Qed.

Lemma update_first_length (l l' : list A) :
  Py.update_first p f l = Some l' -> length l' = length l.
Proof.
  intros H. apply update_first_Some in H.
  destruct H as (l1 & a & l2 & -> & _ & _ & ->).
  rewrite !length_app. reflexivity.
Qed.

End UpdateFirst.

Lemma update_all_length {A} (p : A -> bool) (f : A -> A) (l : list A) :
  length (Py.update_all p f l) = length l.
Proof. apply length_map. Qed.

(** ** Capacity of the ledger *)

Lemma add_to_ledger_length (cmd st rs : string) (l : list action) :
  length l <= max_ledger_entries ->
  length (_add_to_ledger cmd st rs l) <= max_ledger_entries.
Proof.
  intros H. unfold _add_to_ledger. cbv zeta.
  destruct (Nat.ltb_spec max_ledger_entries (length (l ++ [Action cmd st rs]))) as [Hlt|Hle].
  - rewrite length_tl, length_app in *. simpl in *. unfold max_ledger_entries in *. lia.
  - exact Hle.
Qed.

Lemma add_to_ledger_full (cmd st rs : string) (l : list action) :
  length l = max_ledger_entries ->
  _add_to_ledger cmd st rs l = tail l ++ [Action cmd st rs].
Proof.
  intros H. unfold _add_to_ledger. cbv zeta.
  rewrite length_app, H. simpl.
  destruct l; [discriminate H | reflexivity].
Qed.

Lemma add_to_ledger_room (cmd st rs : string) (l : list action) :
  length l < max_ledger_entries ->
  _add_to_ledger cmd st rs l = l ++ [Action cmd st rs].
Proof.
  intros H. unfold _add_to_ledger. cbv zeta.
  destruct (Nat.ltb_spec max_ledger_entries (length (l ++ [Action cmd st rs]))) as [Hlt|Hle].
  - rewrite length_app in Hlt. simpl in Hlt. lia.
  - reflexivity.
Qed.

Lemma add_all_length (calls : list (string * string * string)) (l : list action) :
  length l <= max_ledger_entries ->
  length (add_all calls l) <= max_ledger_entries.
Proof.
  revert l. induction calls as [|c calls IH]; intros l H; simpl.
  - exact H.
  - apply IH. now apply add_to_ledger_length.
Qed.

Lemma add_all_snoc calls c l :
  add_all (calls ++ [c]) l = _add_to_ledger c.1.1 c.1.2 c.2 (add_all calls l).
Proof. unfold add_all. now rewrite fold_left_app. Qed.

(** C2. Capacity of the ledger.  Appending to a ledger that holds
    [max_ledger_entries] (10) entries removes the oldest entry, whatever
    its status, and keeps the others in order ahead of the new entry; an
    append never leaves more than 10 entries; and after any run of
    [_add_to_ledger] calls on the empty ledger of a fresh controller the
    ledger holds at most 10 entries. *)
Theorem C2_add_to_ledger_evicts_oldest
    (l : list action) (cmd st rs : string)
    (calls : list (string * string * string)) :
  (length l = max_ledger_entries ->
     exists oldest rest,
       l = oldest :: rest /\
       _add_to_ledger cmd st rs l = rest ++ [Action cmd st rs]) /\
  (length l <= max_ledger_entries ->
     length (_add_to_ledger cmd st rs l) <= max_ledger_entries) /\
  length (add_all calls []) <= max_ledger_entries.
Proof.
  split; [|split].
  - intros H. destruct l as [|oldest rest]; [discriminate H|].
    exists oldest, rest. split; [reflexivity|].
    now rewrite add_to_ledger_full.
  - apply add_to_ledger_length.
  - apply add_all_length. simpl. unfold max_ledger_entries. lia.
Qed.

Lemma C2_add_to_ledger_evicts_oldest_witness :
  length ten_entries = max_ledger_entries /\
  _add_to_ledger "MODE:combat" pending EmptyString ten_entries =
    tail ten_entries ++ [Action "MODE:combat" pending EmptyString].
Proof.
  split; [reflexivity|].
  destruct (C2_add_to_ledger_evicts_oldest ten_entries
              "MODE:combat" pending EmptyString []) as [H _].
  destruct (H eq_refl) as (oldest & rest & Hl & ->).
  injection Hl as _ <-. reflexivity.
Defined.

(** C10. Events without a ledger effect.  When the [event_type] field is
    missing, empty, [low_health], or a name the dispatcher has no branch
    for, [_process_event] returns the ledger as it received it. *)
Theorem C10_unrecognized_event_keeps_ledger
    (event : gmap string string) (l : list action) :
  (event !! "event_type" = None \/
   exists n, event !! "event_type" = Some n /\
     (n = EmptyString \/ n = "low_health" \/ ~ In n recognized_event_names)) ->
  _process_event event l = l.
Proof.
  intros H. unfold _process_event. cbv zeta.
  assert (Hn : let n := Py.get event "event_type" EmptyString in
               n = EmptyString \/ n = "low_health" \/ ~ In n recognized_event_names).
  { cbv zeta. unfold Py.get. destruct H as [-> | (n & -> & Hn)]; simpl; auto. }
  cbv zeta in Hn. destruct Hn as [-> | [-> | Hn]]; [reflexivity | reflexivity |].
  destruct (Py.truthy _); simpl; [|reflexivity].
  repeat match goal with
  | |- context [String.eqb ?a ?b] =>
      destruct (String.eqb_spec a b) as [E|_];
      [exfalso; apply Hn; rewrite E; simpl; tauto|]
  end.
  reflexivity.
Qed.

Lemma C10_unrecognized_event_keeps_ledger_witness :
  _process_event (mk_event "boss_spawned" [("command", "MODE:roam")]) ten_entries
  = ten_entries.
Proof.
  apply C10_unrecognized_event_keeps_ledger.
  right. exists "boss_spawned". split; [reflexivity|].
  right. right. unfold recognized_event_names. simpl.
  intros H. decompose [or] H; try discriminate; assumption.
Defined.

(** ** The branches of [_process_event] *)

Ltac enter_branch H :=
  unfold _process_event; cbv zeta;
  rewrite (get_lookup _ _ _ _ H);
  cbn [Py.truthy negb String.eqb Ascii.eqb Bool.eqb];
  rewrite ?event_data_get by discriminate.

Lemma process_started (event : gmap string string) (c : string) (l : list action) :
  event !! "event_type" = Some "action_started" ->
  event !! "command" = Some c -> c <> EmptyString ->
  _process_event event l =
    match Py.update_first (is_pending_for c) (set_reason (started_reason event)) l with
    | Some l' => l'
    | None => _add_to_ledger c pending (started_reason event) l
    end.
Proof.
  intros Ht Hc Hne. enter_branch Ht.
  rewrite (get_lookup _ _ _ _ Hc).
  apply truthy_true in Hne. rewrite Hne. reflexivity.
Qed.

Lemma process_complete (event : gmap string string) (c : string) (l : list action) :
  event !! "event_type" = Some "action_complete" ->
  event !! "command" = Some c -> c <> EmptyString ->
  _process_event event l =
    match Py.update_first (is_open_for c)
            (fun a => set_reason "completed"
                        (set_status (Py.get event "status" success) a)) l with
    | Some l' => l'
    | None => l
    end.
Proof.
  intros Ht Hc Hne. enter_branch Ht.
  rewrite (get_lookup _ _ _ _ Hc).
  apply truthy_true in Hne. rewrite Hne. reflexivity.
Qed.

Lemma process_failed (event : gmap string string) (c : string) (l : list action) :
  event !! "event_type" = Some "action_failed" ->
  event !! "command" = Some c -> c <> EmptyString ->
  _process_event event l =
    match Py.update_first (is_pending_for c)
            (fun a => set_reason (Py.get event "reason" "unknown")
                        (set_status failed a)) l with
    | Some l' => l'
    | None => _add_to_ledger c failed (Py.get event "reason" "unknown") l
    end.
Proof.
  intros Ht Hc Hne. enter_branch Ht.
  rewrite (get_lookup _ _ _ _ Hc).
  apply truthy_true in Hne. rewrite Hne. reflexivity.
Qed.

Lemma process_combat_entered (event : gmap string string) (l : list action) :
  event !! "event_type" = Some "combat_entered" ->
  _process_event event l =
    Py.update_all is_interruptible
      (fun a => set_reason "combat" (set_status interrupted a)) l.
Proof. intros Ht. enter_branch Ht. reflexivity. Qed.

(** An event whose command is empty is dropped by the [if command:] guard. *)
Lemma process_empty_command (event : gmap string string) (l : list action) :
  In (Py.get event "event_type" EmptyString)
     ["action_started"; "action_complete"; "action_failed"] ->
  Py.get event "command" EmptyString = EmptyString ->
  _process_event event l = l.
Proof.
  intros Ht Hc. unfold _process_event. cbv zeta.
  rewrite ?event_data_get by discriminate. rewrite Hc.
  simpl in Ht. destruct Ht as [<- | [<- | [<- | []]]]; reflexivity.
Qed.

Lemma count_pending_zero (c : string) (l : list action) :
  count_pending c l = 0 <-> Forall (fun a => is_pending_for c a = false) l.
Proof.
  unfold count_pending. induction l as [|a r IH]; simpl.
  - split; auto.
  - destruct (is_pending_for c a) eqn:E; simpl.
    + split; [discriminate | intros H; inversion H; congruence].
    + rewrite IH. split; [now constructor | intros H; now inversion H].
Qed.

Lemma count_pending_app (c : string) (l1 l2 : list action) :
  count_pending c (l1 ++ l2) = count_pending c l1 + count_pending c l2.
Proof. unfold count_pending. now rewrite List.filter_app, length_app. Qed.

Lemma count_pending_tail_zero (c : string) (l : list action) :
  count_pending c l = 0 -> count_pending c (tail l) = 0.
Proof.
  rewrite !count_pending_zero. intros H.
  destruct l; [exact H | now inversion H].
Qed.

Lemma is_pending_for_set_reason (c rs : string) (a : action) :
  is_pending_for c (set_reason rs a) = is_pending_for c a.
Proof. reflexivity. Qed.

(** Refreshing the reason of the first pending entry changes no count. *)
Lemma count_pending_refresh (c rs : string) (l l' : list action) :
  Py.update_first (is_pending_for c) (set_reason rs) l = Some l' ->
  count_pending c l' = count_pending c l /\ length l' = length l.
Proof.
  intros H. split; [|now apply update_first_length in H].
  apply update_first_Some in H.
  destruct H as (l1 & a & l2 & -> & _ & Ha & ->).
  rewrite !count_pending_app. f_equal.
  unfold count_pending. simpl.
  now rewrite is_pending_for_set_reason, Ha.
Qed.

Lemma count_pending_added (c rs : string) (l : list action) :
  count_pending c l = 0 ->
  count_pending c (_add_to_ledger c pending rs l) = 1.
Proof.
  intros H. unfold _add_to_ledger. cbv zeta.
  assert (Hnew : count_pending c [Action c pending rs] = 1).
  { unfold count_pending, is_pending_for. simpl. now rewrite !String.eqb_refl. }
  destruct (Nat.ltb_spec max_ledger_entries (length (l ++ [Action c pending rs])))
    as [Hlt|_].
  - destruct l as [|a r]; simpl.
    + simpl in Hlt. unfold max_ledger_entries in Hlt. lia.
    + rewrite count_pending_app, Hnew.
      apply count_pending_tail_zero in H. simpl in H. now rewrite H.
  - now rewrite count_pending_app, Hnew, H.
Qed.

Lemma update_first_at {A} (p : A -> bool) (f : A -> A) (l1 l2 : list A) (a : A) :
  Forall (fun x => p x = false) l1 -> p a = true ->
  Py.update_first p f (l1 ++ a :: l2) = Some (l1 ++ f a :: l2).
Proof.
  intros H1 Ha. apply update_first_Some. exists l1, a, l2. auto.
Qed.

(** C3 (amended).  For a non-empty command [c] and two [action_started]
    events that carry it: a ledger with exactly one pending entry for [c]
    still has exactly one afterwards, the ledger being unchanged but for
    the reason of that entry, refreshed by the second event; a ledger with
    no pending entry for [c] gets a new pending entry for [c] appended by
    the first event, and holds exactly one pending entry for [c] after
    both. *)
Theorem C3_started_dedup
    (event1 event2 : gmap string string) (c : string) (l : list action) :
  c <> EmptyString ->
  event1 !! "event_type" = Some "action_started" -> event1 !! "command" = Some c ->
  event2 !! "event_type" = Some "action_started" -> event2 !! "command" = Some c ->
  started_dedup event1 event2 c l /\
  (count_pending c l = 0 ->
     count_pending c (_process_event event2 (_process_event event1 l)) = 1).
Proof.
  intros Hne Ht1 Hc1 Ht2 Hc2.
  assert (Hadd : count_pending c l = 0 ->
            _process_event event1 l = _add_to_ledger c pending (started_reason event1) l).
  { intros H0. rewrite (process_started event1 c l Ht1 Hc1 Hne).
    apply count_pending_zero in H0.
    now rewrite (proj2 (update_first_None _ _ _) H0). }
  split; [split|]; cbv zeta.
  - intros H1.
    rewrite (process_started event1 c l Ht1 Hc1 Hne).
    destruct (Py.update_first _ _ l) as [l'|] eqn:E.
    2:{ apply update_first_None, count_pending_zero in E. lia. }
    apply update_first_Some in E.
    destruct E as (l1 & a & l2 & -> & Hl1 & Ha & ->).
    rewrite (process_started event2 c _ Ht2 Hc2 Hne).
    rewrite (update_first_at _ _ l1 l2 (set_reason (started_reason event1) a) Hl1 Ha).
    split.
    + rewrite <- H1, !count_pending_app. f_equal.
      unfold count_pending. cbn [List.filter].
      rewrite !is_pending_for_set_reason, Ha. reflexivity.
    + exists l1, a, l2. auto.
  - exact Hadd.
  - intros H0. rewrite (Hadd H0).
    rewrite (process_started event2 c _ Ht2 Hc2 Hne).
    pose proof (count_pending_added c (started_reason event1) l H0) as H1.
    destruct (Py.update_first _ _ _) as [l'|] eqn:E.
    + apply count_pending_refresh in E. lia.
    + apply update_first_None, count_pending_zero in E. lia.
Qed.

Lemma C3_started_dedup_witness :
  count_pending teleporter_cmd
    (_process_event (ev_started teleporter_cmd)
       (_process_event (ev_started teleporter_cmd)
          [Action teleporter_cmd pending "found Teleporter1 at 80m"])) = 1 /\
  count_pending teleporter_cmd
    (_process_event (ev_started teleporter_cmd)
       (_process_event (ev_started teleporter_cmd) [])) = 1.
Proof.
  assert (Hne : teleporter_cmd <> EmptyString) by discriminate.
  assert (Ht : ev_started teleporter_cmd !! "event_type" = Some "action_started")
    by (vm_compute; reflexivity).
  assert (Hc : ev_started teleporter_cmd !! "command" = Some teleporter_cmd)
    by (vm_compute; reflexivity).
  destruct (C3_started_dedup (ev_started teleporter_cmd) (ev_started teleporter_cmd)
              teleporter_cmd [Action teleporter_cmd pending "found Teleporter1 at 80m"]
              Hne Ht Hc Ht Hc) as [[H1 _] _].
  destruct (C3_started_dedup (ev_started teleporter_cmd) (ev_started teleporter_cmd)
              teleporter_cmd [] Hne Ht Hc Ht Hc) as [_ H0].
  split; [apply H1 | apply H0]; vm_compute; reflexivity.
Defined.

(** C3 fails for the empty command string: no pending entry for it exists
    in the empty ledger, and the event appends none. *)
Lemma C3_empty_command_not_appended :
  ev_started EmptyString !! "event_type" = Some "action_started" /\
  ev_started EmptyString !! "command" = Some EmptyString /\
  count_pending EmptyString [] = 0 /\
  _process_event (ev_started EmptyString) [] = [] /\
  ~ started_dedup (ev_started EmptyString) (ev_started EmptyString) EmptyString [].
Proof.
  split; [vm_compute; reflexivity|]. split; [vm_compute; reflexivity|].
  split; [reflexivity|]. split; [vm_compute; reflexivity|].
  intros [_ H]. specialize (H eq_refl). vm_compute in H. discriminate H.
Qed.

(** C4 (amended).  For an [action_failed] event that carries a non-empty
    command [c]: the oldest pending entry for [c], and no other entry,
    becomes failed with the event's reason ("unknown" when the event has
    none); when the ledger has no pending entry for [c], an entry for [c]
    with status failed and that reason is appended. *)
Theorem C4_failed_recorded
    (event : gmap string string) (c : string) (l : list action) :
  c <> EmptyString ->
  event !! "event_type" = Some "action_failed" ->
  event !! "command" = Some c ->
  failed_recorded event c l.
Proof.
  intros Hne Ht Hc. split.
  - intros l1 a l2 -> Hl1 Ha.
    rewrite (process_failed event c _ Ht Hc Hne).
    rewrite (update_first_at _ _ l1 l2 a Hl1 Ha).
    do 2 f_equal. unfold set_reason, set_status. simpl. f_equal.
    unfold is_pending_for in Ha. apply andb_true_iff in Ha.
    now apply String.eqb_eq.
  - intros Hnone.
    rewrite (process_failed event c _ Ht Hc Hne).
    now rewrite (proj2 (update_first_None _ _ _) Hnone).
Qed.

Lemma C4_failed_recorded_witness :
  _process_event (ev_failed chest_cmd "no gold")
    [Action chest_cmd failed "stuck"; Action chest_cmd pending EmptyString;
     Action chest_cmd pending EmptyString]
  = [Action chest_cmd failed "stuck"; Action chest_cmd failed "no gold";
     Action chest_cmd pending EmptyString] /\
  _process_event (ev_failed chest_cmd "no gold") [Action chest_cmd failed "stuck"]
  = [Action chest_cmd failed "stuck"; Action chest_cmd failed "no gold"].
Proof.
  assert (Hne : chest_cmd <> EmptyString) by discriminate.
  assert (Ht : ev_failed chest_cmd "no gold" !! "event_type" = Some "action_failed")
    by (vm_compute; reflexivity).
  assert (Hc : ev_failed chest_cmd "no gold" !! "command" = Some chest_cmd)
    by (vm_compute; reflexivity).
  split.
  - destruct (C4_failed_recorded _ _
                [Action chest_cmd failed "stuck"; Action chest_cmd pending EmptyString;
                 Action chest_cmd pending EmptyString] Hne Ht Hc) as [H _].
    apply (H [Action chest_cmd failed "stuck"] (Action chest_cmd pending EmptyString)
             [Action chest_cmd pending EmptyString]).
    + reflexivity.
    + repeat constructor.
    + reflexivity.
  - destruct (C4_failed_recorded _ _ [Action chest_cmd failed "stuck"] Hne Ht Hc)
      as [_ H].
    rewrite H; [vm_compute; reflexivity | repeat constructor].
Defined.

(** C4 fails for the empty command string: the event is dropped,
    the pending entry for that command stays pending, and when there is
    none nothing is appended. *)
Lemma C4_empty_command_not_recorded :
  ev_failed EmptyString "no gold" !! "event_type" = Some "action_failed" /\
  ev_failed EmptyString "no gold" !! "command" = Some EmptyString /\
  _process_event (ev_failed EmptyString "no gold") [] = [] /\
  _process_event (ev_failed EmptyString "no gold") [Action EmptyString pending EmptyString]
    = [Action EmptyString pending EmptyString] /\
  ~ failed_recorded (ev_failed EmptyString "no gold") EmptyString [] /\
  ~ failed_recorded (ev_failed EmptyString "no gold") EmptyString
      [Action EmptyString pending EmptyString].
Proof.
  repeat (split; [vm_compute; reflexivity|]). split.
  - intros [_ H]. specialize (H ltac:(constructor)). vm_compute in H. discriminate H.
  - intros [H _].
    specialize (H [] (Action EmptyString pending EmptyString) [] eq_refl
                  ltac:(constructor) eq_refl).
    vm_compute in H. discriminate H.
Qed.

(** C5.  A [combat_entered] event keeps the ledger's length and every
    entry's command.  A pending entry whose command starts with
    FIND_AND_INTERACT becomes interrupted with reason "combat" unless its
    lower-cased command contains "teleporter", in which case it is left
    as it is; every entry that is not pending, or whose command does not
    start with FIND_AND_INTERACT, is left as it is. *)
Theorem C5_combat_interrupts_target_seeking
    (event : gmap string string) (l : list action) (i : nat) (a : action) :
  event !! "event_type" = Some "combat_entered" ->
  l !! i = Some a ->
  length (_process_event event l) = length l /\
  exists a',
    _process_event event l !! i = Some a' /\
    command a' = command a /\
    (status a = pending ->
     Py.startswith (command a) "FIND_AND_INTERACT" = true ->
       (Py.contains "teleporter" (Py.lower (command a)) = false ->
          status a' = interrupted /\ reason a' = "combat") /\
       (Py.contains "teleporter" (Py.lower (command a)) = true -> a' = a)) /\
    (status a <> pending \/ Py.startswith (command a) "FIND_AND_INTERACT" = false ->
       a' = a).
Proof.
  intros Ht Hi. rewrite (process_combat_entered event l Ht).
  split; [apply update_all_length|].
  unfold Py.update_all. rewrite list_lookup_fmap, Hi. simpl.
  eexists. split; [reflexivity|].
  unfold is_interruptible.
  destruct (String.eqb_spec (status a) pending) as [Hs|Hs];
    destruct (Py.startswith (command a) "FIND_AND_INTERACT") eqn:Hp;
    destruct (Py.contains "teleporter" (Py.lower (command a))) eqn:Hk;
    simpl; (split; [reflexivity|]); split;
    try (intros; congruence);
    try (intros _ _; split; intros; try congruence; auto);
    try (intros [?|?]; congruence).
Qed.

(** ** Status transitions of ledger entries *)

Module TrackedFacts.
Local Abbreviation plain_add_to_ledger := _add_to_ledger (only parsing).
Local Abbreviation plain_process_event := _process_event (only parsing).
Local Abbreviation plain_process_events := process_events (only parsing).
Import Tracked.

Lemma forward_refl (s : string) : forward s s.
Proof. now left. Qed.

(** Success and failed are final. *)
Lemma forward_final (old new : string) :
  forward old new -> old = success \/ old = failed -> new = old.
Proof.
  intros [H | [[H _] | [H _]]] [Hs | Hs]; subst; try reflexivity; discriminate.
Qed.

Lemma entry_step_refl (x : nat * action) : entry_step x x.
Proof. repeat split. apply forward_refl. Qed.

Lemma Forall2_entry_step_refl (es : list (nat * action)) : Forall2 entry_step es es.
Proof. induction es; constructor; auto using entry_step_refl. Qed.

Lemma entry_step_ids (es es' : list (nat * action)) :
  Forall2 entry_step es es' -> map fst es' = map fst es.
Proof.
  induction 1 as [|x y es es' [Hid _] _ IH]; simpl; [reflexivity|].
  now rewrite IH, Hid.
Qed.

Lemma update_first_step (p : action -> bool) (f : action -> action)
    (es es' : list (nat * action)) :
  (forall a, p a = true ->
     command a = command (f a) /\ forward (status a) (status (f a))) ->
  Py.update_first (on_obj p) (in_obj f) es = Some es' ->
  Forall2 entry_step es es'.
Proof.
  intros Hf H. apply update_first_Some in H.
  destruct H as (l1 & x & l2 & -> & _ & Hx & ->).
  apply Forall2_app; [apply Forall2_entry_step_refl|].
  constructor; [|apply Forall2_entry_step_refl].
  destruct (Hf x.2 Hx) as [Hc Hs]. now repeat split.
Qed.

Lemma update_all_step (p : action -> bool) (f : action -> action)
    (es : list (nat * action)) :
  (forall a, p a = true ->
     command a = command (f a) /\ forward (status a) (status (f a))) ->
  Forall2 entry_step es (Py.update_all (on_obj p) (in_obj f) es).
Proof.
  intros Hf. unfold Py.update_all.
  induction es as [|x es IH]; simpl; constructor; [|exact IH].
  unfold on_obj. destruct (p x.2) eqn:Hx; [|apply entry_step_refl].
  destruct (Hf x.2 Hx) as [Hc Hs]. now repeat split.
Qed.

(** With distinct numbers, objects related position by position are
    related number by number. *)
Lemma entry_step_by_id (es es' : list (nat * action)) :
  List.NoDup (map fst es) -> Forall2 entry_step es es' ->
  forall i a a', In (i, a) es -> In (i, a') es' ->
    command a = command a' /\ forward (status a) (status a').
Proof.
  intros Hnd H. induction H as [|x y es es' Hxy Hrest IH]; intros i a a' Ha Ha'.
  - destruct Ha.
  - simpl in Hnd. apply List.NoDup_cons_iff in Hnd. destruct Hnd as [Hx Hnd].
    destruct Hxy as (Hid & Hc & Hs).
    destruct Ha as [-> | Ha], Ha' as [-> | Ha'].
    + now split.
    + exfalso. apply Hx. rewrite <- (entry_step_ids _ _ Hrest).
      apply (in_map fst _ _ Ha').
    + exfalso. apply Hx. simpl in Hid. rewrite Hid.
      apply (in_map fst _ _ Ha).
    + now apply (IH Hnd i).
Qed.

Lemma mutated_wf (t : ledger) (es : list (nat * action)) :
  wf t -> Forall2 entry_step (entries t) es -> wf (mutated t es).
Proof.
  intros [Hnd Hlt] H. split; simpl.
  - now rewrite (entry_step_ids _ _ H).
  - apply List.Forall_forall. intros y Hy.
    assert (Hin : In y.1 (map fst es)) by now apply in_map.
    rewrite (entry_step_ids _ _ H) in Hin.
    apply in_map_iff in Hin. destruct Hin as (x & <- & Hx).
    rewrite List.Forall_forall in Hlt. now apply Hlt.
Qed.

Lemma mutated_respects (t : ledger) (es : list (nat * action)) :
  wf t -> Forall2 entry_step (entries t) es -> respects_forward t (mutated t es).
Proof.
  intros [Hnd _] H i a a' Ha Ha'. now apply (entry_step_by_id _ _ Hnd H i).
Qed.

Lemma in_tail {A} (x : A) (l : list A) : In x (tail l) -> In x l.
Proof. destruct l; simpl; auto. Qed.

Lemma add_wf (cmd st rs : string) (t : ledger) :
  wf t -> wf (Tracked._add_to_ledger cmd st rs t).
Proof.
  intros [Hnd Hlt].
  assert (Hfull : List.NoDup (map fst (entries t ++ [(next_id t, Action cmd st rs)])) /\
                  Forall (fun x => x.1 < S (next_id t))
                         (entries t ++ [(next_id t, Action cmd st rs)])).
  { split.
    - rewrite map_app. simpl. apply List.NoDup_app.
      + exact Hnd.
      + repeat constructor. intros [].
      + intros i Hi [<-|[]].
        apply in_map_iff in Hi. destruct Hi as (x & Hx & Hin).
        rewrite List.Forall_forall in Hlt. apply Hlt in Hin. lia.
    - apply Forall_app. split.
      + eapply Forall_impl; [exact Hlt|]. simpl. intros. lia.
      + constructor; [simpl; lia | constructor]. }
  destruct Hfull as [Hnd' Hlt'].
  unfold Tracked._add_to_ledger, wf. cbv zeta. simpl.
  destruct (max_ledger_entries <? _); [|now split].
  destruct (entries t ++ [(next_id t, Action cmd st rs)]) as [|x r]; simpl.
  - now split.
  - simpl in Hnd'. apply List.NoDup_cons_iff in Hnd'. split; [tauto|].
    now inversion Hlt'.
Qed.

Lemma add_respects (cmd st rs : string) (t : ledger) :
  wf t -> respects_forward t (Tracked._add_to_ledger cmd st rs t).
Proof.
  intros [Hnd Hlt] i a a' Ha Ha'.
  assert (Hin : In (i, a') (entries t ++ [(next_id t, Action cmd st rs)])).
  { unfold Tracked._add_to_ledger in Ha'. cbv zeta in Ha'. simpl in Ha'.
    destruct (max_ledger_entries <? _); [now apply in_tail | exact Ha']. }
  apply in_app_iff in Hin. destruct Hin as [Hin | [[= Hi _] | []]].
  - apply (entry_step_by_id _ _ Hnd (Forall2_entry_step_refl _) i a a' Ha Hin).
  - rewrite List.Forall_forall in Hlt. apply Hlt in Ha. simpl in Ha. lia.
Qed.

Lemma unchanged_ok (t : ledger) : wf t -> wf t /\ respects_forward t t.
Proof.
  intros Hwf. split; [exact Hwf|]. destruct Hwf as [Hnd _].
  intros i a a'. apply (entry_step_by_id _ _ Hnd (Forall2_entry_step_refl _)).
Qed.

Lemma first_hit_ok (p : action -> bool) (f : action -> action) (t fb : ledger) :
  wf t ->
  (forall a, p a = true ->
     command a = command (f a) /\ forward (status a) (status (f a))) ->
  wf fb /\ respects_forward t fb ->
  let t' := match Py.update_first (on_obj p) (in_obj f) (entries t) with
            | Some l' => mutated t l'
            | None => fb
            end in
  wf t' /\ respects_forward t t'.
Proof.
  intros Hwf Hf Hfb. cbv zeta.
  destruct (Py.update_first _ _ _) as [l'|] eqn:E; [|exact Hfb].
  apply (update_first_step p f _ _ Hf) in E.
  split; [now apply mutated_wf | now apply mutated_respects].
Qed.

Lemma all_hits_ok (p : action -> bool) (f : action -> action) (t : ledger) :
  wf t ->
  (forall a, p a = true ->
     command a = command (f a) /\ forward (status a) (status (f a))) ->
  let t' := mutated t (Py.update_all (on_obj p) (in_obj f) (entries t)) in
  wf t' /\ respects_forward t t'.
Proof.
  intros Hwf Hf. cbv zeta. pose proof (update_all_step p f (entries t) Hf) as H.
  split; [now apply mutated_wf | now apply mutated_respects].
Qed.

Lemma eqb_pending (a : action) : String.eqb (status a) pending = true -> status a = pending.
Proof. apply String.eqb_eq. Qed.

(** One event: the numbering stays sound and every object moves forward. *)
Lemma process_event_step (event : gmap string string) (t : ledger) :
  wf t -> reports_known_status event ->
  wf (Tracked._process_event event t) /\
  respects_forward t (Tracked._process_event event t).
Proof.
  intros Hwf Hev. unfold Tracked._process_event. cbv zeta.
  unfold reports_known_status in Hev. cbv zeta in Hev.
  destruct (Py.truthy (Py.get event "event_type" EmptyString));
    cbn [negb]; [|now apply unchanged_ok].
  destruct (String.eqb_spec (Py.get event "event_type" EmptyString) "action_started").
  { destruct (Py.truthy _); [|now apply unchanged_ok].
    apply first_hit_ok; [exact Hwf | |].
    - intros a _. split; [reflexivity | apply forward_refl].
    - split; [now apply add_wf | now apply add_respects]. }
  destruct (String.eqb_spec (Py.get event "event_type" EmptyString) "action_complete")
    as [Hc|_].
  { destruct (Py.truthy _); [|now apply unchanged_ok].
    apply first_hit_ok; [exact Hwf | | now apply unchanged_ok].
    intros a Ha. split; [reflexivity|]. simpl.
    unfold is_open_for in Ha. apply andb_true_iff in Ha. destruct Ha as [_ Ha].
    apply orb_true_iff in Ha. specialize (Hev Hc).
    destruct Ha as [Ha|Ha]; apply String.eqb_eq in Ha; rewrite Ha.
    - right. left. split; [reflexivity | exact Hev].
    - destruct Hev as [Hs | [Hs | Hs]]; rewrite Hs.
      + right. right. split; [reflexivity | now left].
      + right. right. split; [reflexivity | now right].
      + now left. }
  destruct (String.eqb_spec (Py.get event "event_type" EmptyString) "action_failed").
  { destruct (Py.truthy _); [|now apply unchanged_ok].
    apply first_hit_ok; [exact Hwf | |].
    - intros a Ha. split; [reflexivity|]. simpl.
      unfold is_pending_for in Ha. apply andb_true_iff in Ha. destruct Ha as [_ Ha].
      apply eqb_pending in Ha. rewrite Ha. right. left. split; [reflexivity | tauto].
    - split; [now apply add_wf | now apply add_respects]. }
  destruct (String.eqb_spec (Py.get event "event_type" EmptyString) "stuck").
  { apply all_hits_ok; [exact Hwf|].
    intros a Ha. split; [reflexivity|]. simpl.
    unfold is_pending_navigation in Ha. apply andb_true_iff in Ha. destruct Ha as [Ha _].
    apply eqb_pending in Ha. rewrite Ha. right. left. split; [reflexivity | tauto]. }
  destruct (String.eqb_spec (Py.get event "event_type" EmptyString) "combat_entered").
  { apply all_hits_ok; [exact Hwf|].
    intros a Ha. split; [reflexivity|]. simpl.
    unfold is_interruptible in Ha. rewrite !andb_true_iff in Ha. destruct Ha as [[Ha _] _].
    apply eqb_pending in Ha. rewrite Ha. right. left. split; [reflexivity | tauto]. }
  destruct (String.eqb _ "low_health"); now apply unchanged_ok.
Qed.

Lemma process_events_wf (events : list (gmap string string)) (t : ledger) :
  wf t -> Forall reports_known_status events ->
  wf (Tracked.process_events events t).
Proof.
  revert t. induction events as [|ev events IH]; intros t Hwf Hev; simpl.
  - exact Hwf.
  - inversion Hev; subst. apply IH; [|assumption].
    now apply process_event_step.
Qed.

(** *** Erasing the numbers gives the plain ledger functions *)

Lemma update_first_erase (p : action -> bool) (f : action -> action)
    (es : list (nat * action)) :
  Py.update_first p f (map snd es) =
  option_map (map snd) (Py.update_first (on_obj p) (in_obj f) es).
Proof.
  induction es as [|x es IH]; simpl; [reflexivity|].
  unfold on_obj at 1. destruct (p x.2); [reflexivity|].
  rewrite IH. now destruct (Py.update_first (on_obj p) (in_obj f) es).
Qed.

Lemma update_all_erase (p : action -> bool) (f : action -> action)
    (es : list (nat * action)) :
  Py.update_all p f (map snd es) =
  map snd (Py.update_all (on_obj p) (in_obj f) es).
Proof.
  unfold Py.update_all. rewrite !map_map. apply map_ext.
  intros x. unfold on_obj. now destruct (p x.2).
Qed.

Lemma add_erase (cmd st rs : string) (t : ledger) :
  erase (Tracked._add_to_ledger cmd st rs t) = plain_add_to_ledger cmd st rs (erase t).
Proof.
  unfold erase, Tracked._add_to_ledger, plain_add_to_ledger. cbv zeta. simpl.
  rewrite !length_app, length_map. simpl.
  destruct (max_ledger_entries <? _).
  - destruct (entries t); simpl; [reflexivity | now rewrite map_app].
  - now rewrite map_app.
Qed.

Lemma erase_process_event (event : gmap string string) (t : ledger) :
  erase (Tracked._process_event event t) = plain_process_event event (erase t).
Proof.
  unfold Tracked._process_event, plain_process_event. cbv zeta.
  repeat match goal with
  | |- context [if ?b then _ else _] => destruct b; try reflexivity
  end;
  try (unfold erase at 2; rewrite update_first_erase;
       destruct (Py.update_first _ _ (entries t)); simpl;
       first [reflexivity | apply add_erase]);
  try (unfold erase at 2; rewrite update_all_erase; reflexivity).
Qed.

Lemma erase_process_events (events : list (gmap string string)) (t : ledger) :
  erase (Tracked.process_events events t) = plain_process_events events (erase t).
Proof.
  revert t. induction events as [|ev events IH]; intros t; simpl; [reflexivity|].
  now rewrite IH, erase_process_event.
Qed.

End TrackedFacts.

(** C1 (amended).  Take any ledger whose entries are distinct objects and
    any run of events in which every [action_complete] event reports the
    status success, failed or interrupted, or none.  At every event of the
    run, each entry that is in the ledger before and after keeps its
    command, and its status either stays or moves forward: pending to
    success, failed or interrupted; interrupted to success or failed; an
    entry that is success or failed keeps its status.  The numbered ledger
    is the plain one with object identity added: erasing the numbers
    commutes with the run and with the step. *)
Theorem C1_transitions_forward_only
    (t : Tracked.ledger) (before : list (gmap string string))
    (event : gmap string string) :
  Tracked.wf t ->
  Forall Tracked.reports_known_status (before ++ [event]) ->
  Tracked.respects_forward
    (Tracked.process_events before t)
    (Tracked._process_event event (Tracked.process_events before t)) /\
  (forall i a a',
     In (i, a) (Tracked.entries (Tracked.process_events before t)) ->
     In (i, a') (Tracked.entries
                   (Tracked._process_event event (Tracked.process_events before t))) ->
     status a = success \/ status a = failed -> status a' = status a) /\
  Tracked.erase (Tracked.process_events before t)
    = process_events before (Tracked.erase t) /\
  Tracked.erase (Tracked._process_event event (Tracked.process_events before t))
    = _process_event event (process_events before (Tracked.erase t)).
Proof.
  intros Hwf Hev. apply Forall_app in Hev. destruct Hev as [Hbefore Hevent].
  inversion Hevent as [|? ? Hlast _]; subst.
  assert (Hstep : Tracked.respects_forward
            (Tracked.process_events before t)
            (Tracked._process_event event (Tracked.process_events before t))).
  { apply TrackedFacts.process_event_step; [|exact Hlast].
    now apply TrackedFacts.process_events_wf. }
  split; [exact Hstep | split; [|split]].
  - intros i a a' Ha Ha' Hfinal.
    destruct (Hstep i a a' Ha Ha') as [_ Hf].
    now apply TrackedFacts.forward_final.
  - apply TrackedFacts.erase_process_events.
  - now rewrite TrackedFacts.erase_process_event, TrackedFacts.erase_process_events.
Qed.

Lemma C1_transitions_forward_only_witness :
  Tracked.respects_forward
    (Tracked.process_events
       [ev_started chest_cmd; ev_complete chest_cmd interrupted] Tracked.empty)
    (Tracked._process_event (ev_failed chest_cmd "no gold")
       (Tracked.process_events
          [ev_started chest_cmd; ev_complete chest_cmd interrupted] Tracked.empty)).
Proof.
  apply (C1_transitions_forward_only Tracked.empty
           [ev_started chest_cmd; ev_complete chest_cmd interrupted]
           (ev_failed chest_cmd "no gold")).
  - split; simpl; constructor.
  - repeat constructor; intros H; vm_compute in H |- *;
      first [discriminate H | tauto].
Defined.

(** C1 without the condition on the reported status fails: a completed
    event may report any status.  From
    the empty ledger, on one command: started, then completed reporting
    interrupted, then completed reporting pending; the one entry goes
    from interrupted back to pending. *)
Lemma C1_completed_event_moves_status_back :
  Tracked.entries
    (Tracked.process_events
       [ev_started chest_cmd; ev_complete chest_cmd interrupted] Tracked.empty)
    = [(0, Action chest_cmd interrupted "completed")] /\
  Tracked.entries
    (Tracked.process_events
       [ev_started chest_cmd; ev_complete chest_cmd interrupted;
        ev_complete chest_cmd pending] Tracked.empty)
    = [(0, Action chest_cmd pending "completed")] /\
  ~ forward_only_on chest_cmd
      [ev_started chest_cmd; ev_complete chest_cmd interrupted]
      (ev_complete chest_cmd pending).
Proof.
  split; [vm_compute; reflexivity|]. split; [vm_compute; reflexivity|].
  intros H.
  assert (Hon : Forall (on_command chest_cmd)
                  ([ev_started chest_cmd; ev_complete chest_cmd interrupted]
                   ++ [ev_complete chest_cmd pending])).
  { repeat constructor; vm_compute; tauto. }
  specialize (H Hon 0 (Action chest_cmd interrupted "completed")
                (Action chest_cmd pending "completed")).
  destruct H as [_ H].
  - vm_compute. now left.
  - vm_compute. now left.
  - vm_compute in H.
    destruct H as [H | [[H _] | [_ [H | H]]]]; discriminate H.
Qed.

(** ** Completion inferred from a target that disappeared *)

Lemma is_open_iff (a : action) :
  is_open a = true <-> status a = pending \/ status a = interrupted.
Proof.
  unfold is_open. rewrite orb_true_iff, !String.eqb_eq. reflexivity.
Qed.

Lemma mark_opened_fold (targets : list (string * string)) (l : list action) :
  fold_left (fun l target => mark_opened target l) targets l =
  map (fun a => fold_left (fun a target => mark_opened_entry target a) targets a) l.
Proof.
  revert l. induction targets as [|tg targets IH]; intros l; simpl.
  - now rewrite map_id.
  - rewrite IH. unfold mark_opened, Py.update_all. now rewrite map_map.
Qed.

Lemma closed_entry_stays (targets : list (string * string)) (a : action) :
  is_open a = false ->
  fold_left (fun a target => mark_opened_entry target a) targets a = a.
Proof.
  intros H. induction targets as [|tg targets IH]; simpl; [reflexivity|].
  unfold mark_opened_entry at 2, is_open_find. rewrite H. simpl. exact IH.
Qed.

Lemma open_entry_marked (targets : list (string * string)) (a : action) :
  is_open a = true ->
  (exists tg, In tg targets /\
     Py.startswith (command a) ("FIND_AND_INTERACT:" +:+ tg.1) = true) ->
  exists tg, In tg targets /\
    Py.startswith (command a) ("FIND_AND_INTERACT:" +:+ tg.1) = true /\
    fold_left (fun a target => mark_opened_entry target a) targets a =
      Action (command a) success (tg.2 +:+ " opened").
Proof.
  intros Hopen. induction targets as [|tg targets IH]; intros (tg0 & Hin & Hm).
  - destruct Hin.
  - simpl. unfold mark_opened_entry at 2, is_open_find. rewrite Hopen. simpl.
    destruct (Py.startswith (command a) ("FIND_AND_INTERACT:" +:+ tg.1)) eqn:E.
    + exists tg. split; [now left|]. split; [exact E|].
      now rewrite closed_entry_stays.
    + destruct Hin as [-> | Hin]; [congruence|].
      destruct IH as (tg' & Hin' & Hm' & Hfold); [now exists tg0|].
      exists tg'. split; [now right|]. now split.
Qed.

Lemma teleporter_pass_keeps_closed (l : list action) (i : nat) (a : action) :
  l !! i = Some a -> is_open a = false ->
  Py.update_all is_open_teleporter
    (fun a => set_reason "teleporter activated (boss spawned)"
                (set_status success a)) l !! i = Some a.
Proof.
  intros Hi H. unfold Py.update_all. rewrite list_lookup_fmap, Hi. simpl.
  unfold is_open_teleporter. now rewrite H.
Qed.

Section Disappearance.

Variable set_iter : gset (string * string) -> list (string * string).
Hypothesis set_iter_perm : forall s, set_iter s ≡ₚ elements s.

Lemma in_set_iter (s : gset (string * string)) (x : string * string) :
  In x (set_iter s) <-> x ∈ s.
Proof.
  rewrite <- list_elem_of_In, (set_iter_perm s). apply elem_of_elements.
Qed.

(** C6.  When a target [(t, n)] of the previous interactable set is absent
    from the current one, every ledger entry that is pending or interrupted
    and whose command starts with FIND_AND_INTERACT:[t] keeps its command
    and becomes success, its reason being the name of a disappeared target
    of a matching category followed by " opened".  In the scenario with
    previous set {(chest, "Chest_A")}, no current interactable and one
    pending entry for FIND_AND_INTERACT:chest, the entry becomes success
    with reason "Chest_A opened". *)
Theorem C6_disappearance_marks_success
    (self : RoR2BrainController) (current : list InteractableInfo) :
  (forall (t n : string) (i : nat) (a : action),
     ((t, n) ∈ last_seen_interactables self) ->
     ((t, n) ∉ current_ids_of current) ->
     action_ledger self !! i = Some a ->
     status a = pending \/ status a = interrupted ->
     Py.startswith (command a) ("FIND_AND_INTERACT:" +:+ t) = true ->
     exists t' n',
       ((t', n') ∈ last_seen_interactables self) /\
       ((t', n') ∉ current_ids_of current) /\
       Py.startswith (command a) ("FIND_AND_INTERACT:" +:+ t') = true /\
       action_ledger (_check_action_completion set_iter current self) !! i =
         Some (Action (command a) success (n' +:+ " opened"))) /\
  (forall rs : string,
     last_seen_interactables self = {[ ("chest", "Chest_A") ]} ->
     current = [] ->
     action_ledger self = [Action "FIND_AND_INTERACT:chest" pending rs] ->
     action_ledger (_check_action_completion set_iter current self) =
       [Action "FIND_AND_INTERACT:chest" success "Chest_A opened"]).
Proof.
  assert (General : forall (t n : string) (i : nat) (a : action),
     ((t, n) ∈ last_seen_interactables self) ->
     ((t, n) ∉ current_ids_of current) ->
     action_ledger self !! i = Some a ->
     status a = pending \/ status a = interrupted ->
     Py.startswith (command a) ("FIND_AND_INTERACT:" +:+ t) = true ->
     exists t' n',
       ((t', n') ∈ last_seen_interactables self) /\
       ((t', n') ∉ current_ids_of current) /\
       Py.startswith (command a) ("FIND_AND_INTERACT:" +:+ t') = true /\
       action_ledger (_check_action_completion set_iter current self) !! i =
         Some (Action (command a) success (n' +:+ " opened"))).
  { intros t n i a Hprev Hcur Hi Hst Hm.
    apply is_open_iff in Hst.
    destruct (open_entry_marked
                (set_iter (last_seen_interactables self ∖ current_ids_of current))
                a Hst) as ([t' n'] & Hin & Hm' & Hfold).
    { exists (t, n). split; [|exact Hm].
      apply in_set_iter, elem_of_difference. now split. }
    apply in_set_iter, elem_of_difference in Hin. destruct Hin as [Hp' Hc'].
    exists t', n'. repeat (split; [assumption|]).
    assert (Hone : fold_left (fun l target => mark_opened target l)
                     (set_iter (last_seen_interactables self ∖ current_ids_of current))
                     (action_ledger self) !! i
                   = Some (Action (command a) success (n' +:+ " opened"))).
    { rewrite mark_opened_fold, list_lookup_fmap, Hi. simpl. now rewrite Hfold. }
    unfold _check_action_completion. cbv zeta. simpl.
    destruct (boss_active self && negb (_prev_boss_active self)); [|exact Hone].
    now apply teleporter_pass_keeps_closed. }
  split; [exact General|].
  intros rs Hprev -> Hl.
  destruct (General "chest" "Chest_A" 0 (Action "FIND_AND_INTERACT:chest" pending rs))
    as (t' & n' & Hp' & _ & _ & Hres).
  - rewrite Hprev. now apply elem_of_singleton.
  - simpl. apply not_elem_of_empty.
  - now rewrite Hl.
  - now left.
  - reflexivity.
  - rewrite Hprev in Hp'. apply elem_of_singleton in Hp'. injection Hp' as -> ->.
    assert (Hlen : length (action_ledger (_check_action_completion set_iter [] self)) = 1).
    { unfold _check_action_completion. cbv zeta. simpl.
      destruct (_ && _); rewrite ?update_all_length, mark_opened_fold, length_map, Hl;
        reflexivity. }
    destruct (action_ledger (_check_action_completion set_iter [] self))
      as [|x [|y r]]; try discriminate Hlen.
    cbn in Hres. now injection Hres as ->.
Qed.

End Disappearance.

Lemma C6_disappearance_marks_success_witness :
  action_ledger (_check_action_completion elements [] chest_scenario) =
    [Action "FIND_AND_INTERACT:chest" success "Chest_A opened"].
Proof.
  destruct (C6_disappearance_marks_success elements
              (fun s => reflexivity (elements s)) chest_scenario []) as [_ H].
  apply (H "found Chest_A at 12m"); reflexivity.
Defined.

(** ** Directive validity *)

Lemma Qlt_bool_false (x y : Q) : Qlt_bool x y = false <-> (y <= x)%Q.
Proof.
  unfold Qlt_bool. rewrite negb_false_iff. apply Qle_bool_iff.
Qed.

Lemma Qlt_bool_true (x y : Q) : Qlt_bool x y = true <-> (x < y)%Q.
Proof.
  unfold Qlt_bool. rewrite negb_true_iff. split.
  - intros H. apply Qnot_le_lt. intros Hle.
    apply Qle_bool_iff in Hle. congruence.
  - intros H. destruct (Qle_bool y x) eqn:E; [|reflexivity].
    apply Qle_bool_iff in E. exfalso. now apply (Qlt_not_le x y).
Qed.

Lemma classify_two_way (directive : string) :
  _classify_directive directive = "tactical" \/
  _classify_directive directive = "strategic".
Proof. unfold _classify_directive. destruct (existsb _ _); auto. Qed.

(** C7.  [_is_directive_valid] is false exactly when no directive (or no
    timestamp) is set or the time elapsed since the directive was set is at
    least its ttl.  [set_user_directive] sets the ttl to 45 seconds for a
    directive classified tactical and to 600 seconds for one classified
    strategic.  Hence, 46 seconds after it was set, a tactical directive is
    invalid and a strategic one is valid. *)
Theorem C7_directive_validity
    (self : RoR2BrainController) (now set_at : Q) (directive : string) :
  (_is_directive_valid now self = false <->
     user_directive self = None \/ directive_timestamp self = None \/
     exists t, directive_timestamp self = Some t /\
               (directive_ttl self <= now - t)%Q) /\
  (_classify_directive directive = "tactical" ->
     directive_ttl (set_user_directive directive set_at self) = 45%Q /\
     _is_directive_valid (set_at + 46) (set_user_directive directive set_at self)
       = false) /\
  (_classify_directive directive = "strategic" ->
     directive_ttl (set_user_directive directive set_at self) = 600%Q /\
     _is_directive_valid (set_at + 46) (set_user_directive directive set_at self)
       = true).
Proof.
  split; [|split].
  - unfold _is_directive_valid.
    destruct (user_directive self) as [d|], (directive_timestamp self) as [t|].
    + rewrite Qlt_bool_false. split.
      * intros H. right. right. now exists t.
      * intros [H | [H | (t' & [= <-] & H)]]; [discriminate.. | exact H].
    + split; auto.
    + split; auto.
    + split; auto.
  - intros Hc. unfold set_user_directive, _is_directive_valid. simpl.
    rewrite Hc. simpl. split; [reflexivity|].
    apply Qlt_bool_false. unfold Qle, Qminus, Qplus, Qopp. simpl. lia.
  - intros Hc. unfold set_user_directive, _is_directive_valid. simpl.
    rewrite Hc. simpl. split; [reflexivity|].
    apply Qlt_bool_true. unfold Qlt, Qminus, Qplus, Qopp. simpl. nia.
Qed.

Lemma C7_directive_validity_witness :
  _is_directive_valid 1046 (set_user_directive "find the chest" 1000 init_controller)
    = false /\
  _is_directive_valid 1046 (set_user_directive "play it safe" 1000 init_controller)
    = true /\
  _is_directive_valid 1046 init_controller = false.
Proof.
  destruct (C7_directive_validity init_controller 1046 1000 "find the chest")
    as (Hnone & Htac & _).
  destruct (C7_directive_validity init_controller 1046 1000 "play it safe")
    as (_ & _ & Hstr).
  split; [|split].
  - destruct (Htac eq_refl) as [_ H]. exact H.
  - destruct (Hstr eq_refl) as [_ H]. exact H.
  - apply Hnone. now left.
Defined.

(** ** Queries on a disconnected bridge *)

(** C8.  With the connected flag down or without a client socket,
    [send_query] returns [None], leaves the bridge as it was, and performs
    no I/O: nothing is written to a socket and the response queue is not
    read. *)
Theorem C8_send_query_disconnected
    (message : Type) (json_dumps : gmap string string -> string)
    (query_type : string) (kwargs : gmap string string)
    (w : Transport.world message) (self : Transport.SocketBridge message) :
  Transport.connected self = false \/ Transport.client_socket self = None ->
  Transport.send_query json_dumps query_type kwargs w self = (None, self, []).
Proof.
  intros H. unfold Transport.send_query.
  destruct (Transport.connected self), (Transport.client_socket self);
    try reflexivity.
  destruct H; discriminate.
Qed.

Lemma C8_send_query_disconnected_witness :
  Transport.send_query (fun _ => "{}") "QUERY_INVENTORY" ∅
    {| Transport.sendall_ok := true; Transport.arrivals := ["late response"] |}
    stale_bridge
  = (None, stale_bridge, []).
Proof.
  apply C8_send_query_disconnected. left. reflexivity.
Defined.

(** ** Parsing the model's reply *)

Module ModelFacts.
Import Model.

Lemma from_first_span (c : ascii) (s r : string) :
  from_first c s = Some r ->
  exists pre r', s = pre +:+ String c r' /\ r = String c r' /\ has_char c pre = false.
Proof.
  revert r. induction s as [|a s IH]; intros r; simpl; [discriminate|].
  destruct (Ascii.eqb_spec a c) as [->|Hne].
  - intros [= <-]. exists EmptyString, s. auto.
  - intros H. destruct (IH r H) as (pre & r' & -> & -> & Hpre).
    exists (String a pre), r'. simpl. repeat split; auto.
    apply Ascii.eqb_neq in Hne. now rewrite Hne.
Qed.

Lemma upto_last_span (c : ascii) (s p : string) :
  upto_last c s = Some p ->
  exists mid post,
    s = mid +:+ String c post /\ p = mid +:+ String c EmptyString /\
    has_char c post = false.
Proof.
  revert p. induction s as [|a s IH]; intros p; simpl; [discriminate|].
  destruct (upto_last c s) as [p0|] eqn:E.
  - intros [= <-]. destruct (IH p0 eq_refl) as (mid & post & -> & -> & Hpost).
    exists (String a mid), post. auto.
  - destruct (Ascii.eqb_spec a c) as [->|Hne]; [|discriminate].
    intros [= <-]. exists EmptyString, s. repeat split.
    clear IH. induction s as [|b s IHs]; simpl in *; [reflexivity|].
    destruct (upto_last c s); [discriminate|].
    destruct (Ascii.eqb b c); [discriminate|]. now apply IHs.
Qed.

(** The match of the regular expression: from the first opening brace to
    the last closing brace. *)
Lemma search_braces_span (s g : string) :
  search_braces s = Some g ->
  exists pre mid post,
    s = pre +:+ g +:+ post /\
    g = "{" +:+ mid +:+ "}" /\
    has_char "{" pre = false /\ has_char "}" post = false.
Proof.
  unfold search_braces. intros H.
  destruct (from_first "{" s) as [r|] eqn:E1; [|discriminate].
  apply from_first_span in E1. destruct E1 as (pre & r' & -> & -> & Hpre).
  destruct (upto_last "}" r') as [p|] eqn:E2; [|discriminate].
  injection H as <-.
  apply upto_last_span in E2. destruct E2 as (mid & post & Hr & Hp & Hpost).
  subst r' p. exists pre, mid, post. repeat split; auto.
  f_equal. change (String "{" (mid +:+ String "}" post) =
                   String "{" ((mid +:+ "}") +:+ post)).
  f_equal.
  clear. induction mid as [|a mid IH]; [reflexivity|].
  change (String a (mid +:+ String "}" post) = String a ((mid +:+ "}") +:+ post)).
  now rewrite IH.
Qed.

Lemma dict_get_app (d1 d2 : list (string * json)) (k : string) :
  dict_get (d1 ++ d2) k =
  match dict_get d1 k with Some v => Some v | None => dict_get d2 k end.
Proof.
  unfold dict_get. induction d1 as [|[k' v'] d1 IH]; simpl; [reflexivity|].
  destruct (String.eqb k' k); [reflexivity | exact IH].
Qed.

Lemma dict_get_setdefault (d : list (string * json)) (k k' : string) (v : json) :
  dict_get (setdefault k v d) k' =
  match dict_get d k' with
  | Some x => Some x
  | None => if String.eqb k k' then Some v else None
  end.
Proof.
  unfold setdefault. destruct (dict_get d k) as [x|] eqn:E.
  - destruct (dict_get d k') eqn:E'; [reflexivity|].
    destruct (String.eqb_spec k k') as [->|_]; [congruence | reflexivity].
  - rewrite dict_get_app. destruct (dict_get d k'); [reflexivity|].
    unfold dict_get. simpl. now destruct (String.eqb k k').
Qed.

Lemma defaults_commands (d : list (string * json)) :
  dict_get (defaults d) "commands" = Some (default safe_commands (dict_get d "commands")).
Proof.
  unfold defaults. rewrite !dict_get_setdefault. simpl.
  now destruct (dict_get d "commands").
Qed.

Lemma defaults_reasoning (d : list (string * json)) :
  dict_get (defaults d) "reasoning" =
  Some (default (JStr "No reasoning provided") (dict_get d "reasoning")).
Proof.
  unfold defaults. rewrite !dict_get_setdefault. simpl.
  now destruct (dict_get d "reasoning").
Qed.

End ModelFacts.

Section ReplyParsing.
Import Model ModelFacts.

Variable json_loads : string -> option json.


End ReplyParsing.



Lemma C5_combat_interrupts_target_seeking_witness :
  length (_process_event (mk_event "combat_entered" []) combat_ledger)
    = length combat_ledger /\
  exists a',
    _process_event (mk_event "combat_entered" []) combat_ledger !! 0 = Some a' /\
    status a' = interrupted /\ reason a' = "combat".
Proof.
  destruct (C5_combat_interrupts_target_seeking
              (mk_event "combat_entered" []) combat_ledger 0
              (Action "FIND_AND_INTERACT:chest" pending "found Chest1 at 30m"))
    as [Hlen (a' & Hi & _ & Hp & _)].
  - vm_compute. reflexivity.
  - reflexivity.
  - split; [exact Hlen|]. exists a'. split; [exact Hi|].
    apply Hp; reflexivity.
Defined.

(** * Further properties of the code *)

(** ** Ledger: the other events *)

Lemma process_stuck (event : gmap string string) (l : list action) :
  event !! "event_type" = Some "stuck" ->
  _process_event event l =
    Py.update_all is_pending_navigation
      (fun a => set_reason "stuck" (set_status failed a)) l.
Proof. intros Ht. enter_branch Ht. reflexivity. Qed.

(** X1.  A [stuck] event keeps the ledger's length and every entry's
    command; it fails, with reason "stuck", every pending entry whose
    command starts with FIND_AND_INTERACT or with GOTO:, whatever the
    target, and leaves every other entry as it is. *)
Theorem X1_stuck_fails_pending_navigation
    (event : gmap string string) (l : list action) (i : nat) (a : action) :
  event !! "event_type" = Some "stuck" ->
  l !! i = Some a ->
  length (_process_event event l) = length l /\
  exists a',
    _process_event event l !! i = Some a' /\
    command a' = command a /\
    (status a = pending ->
     Py.startswith (command a) "FIND_AND_INTERACT" = true \/
     Py.startswith (command a) "GOTO:" = true ->
       status a' = failed /\ reason a' = "stuck") /\
    (status a <> pending \/
     (Py.startswith (command a) "FIND_AND_INTERACT" = false /\
      Py.startswith (command a) "GOTO:" = false) ->
       a' = a).
Proof.
  intros Ht Hi. rewrite (process_stuck event l Ht).
  split; [apply update_all_length|].
  unfold Py.update_all. rewrite list_lookup_fmap, Hi. simpl.
  eexists. split; [reflexivity|].
  unfold is_pending_navigation.
  destruct (String.eqb_spec (status a) pending) as [Hs|Hs];
    destruct (Py.startswith (command a) "FIND_AND_INTERACT") eqn:Hp;
    destruct (Py.startswith (command a) "GOTO:") eqn:Hg;
    simpl; (split; [reflexivity|]); split;
    try (intros _ _; now split);
    try (intros _ [?|?]; discriminate);
    try (intros ? _; congruence);
    try (intros [?|[? ?]]; congruence).
Qed.

Lemma X1_stuck_fails_pending_navigation_witness :
  exists a',
    _process_event (mk_event "stuck" []) combat_ledger !! 1 = Some a' /\
    status a' = failed /\ reason a' = "stuck".
Proof.
  destruct (X1_stuck_fails_pending_navigation
              (mk_event "stuck" []) combat_ledger 1
              (Action "FIND_AND_INTERACT:teleporter" pending "found Teleporter1 at 80m"))
    as [_ (a' & Hi & _ & Hp & _)].
  - vm_compute. reflexivity.
  - reflexivity.
  - exists a'. split; [exact Hi|]. apply Hp; [reflexivity | now left].
Defined.

(** X2.  An [action_complete] event with a non-empty command [c] writes
    the reported status (success when the event reports none) and the
    reason "completed" into the oldest entry for [c] that is pending or
    interrupted, and into no other entry; when the ledger has no such
    entry it is left unchanged: unlike a failure, a completion is never
    back-filled. *)
Theorem X2_complete_resolves_oldest_open
    (event : gmap string string) (c : string) (l : list action) :
  c <> EmptyString ->
  event !! "event_type" = Some "action_complete" ->
  event !! "command" = Some c ->
  (forall l1 a l2,
     l = l1 ++ a :: l2 ->
     Forall (fun x => is_open_for c x = false) l1 ->
     is_open_for c a = true ->
     _process_event event l =
       l1 ++ Action c (Py.get event "status" success) "completed" :: l2) /\
  (Forall (fun x => is_open_for c x = false) l -> _process_event event l = l).
Proof.
  intros Hne Ht Hc. split.
  - intros l1 a l2 -> Hl1 Ha.
    rewrite (process_complete event c _ Ht Hc Hne).
    rewrite (update_first_at _ _ l1 l2 a Hl1 Ha).
    do 2 f_equal. unfold set_reason, set_status. simpl. f_equal.
    unfold is_open_for in Ha. apply andb_true_iff in Ha.
    now apply String.eqb_eq.
  - intros Hnone.
    rewrite (process_complete event c _ Ht Hc Hne).
    now rewrite (proj2 (update_first_None _ _ _) Hnone).
Qed.

Lemma X2_complete_resolves_oldest_open_witness :
  _process_event (ev_complete chest_cmd success)
    [Action chest_cmd pending EmptyString]
  = [Action chest_cmd success "completed"] /\
  _process_event (ev_complete chest_cmd success) [] = [].
Proof.
  assert (Hne : chest_cmd <> EmptyString) by discriminate.
  assert (Ht : ev_complete chest_cmd success !! "event_type" = Some "action_complete")
    by (vm_compute; reflexivity).
  assert (Hc : ev_complete chest_cmd success !! "command" = Some chest_cmd)
    by (vm_compute; reflexivity).
  split.
  - destruct (X2_complete_resolves_oldest_open _ _
                [Action chest_cmd pending EmptyString] Hne Ht Hc) as [H _].
    rewrite (H [] (Action chest_cmd pending EmptyString) []);
      [vm_compute; reflexivity | reflexivity | constructor | reflexivity].
  - destruct (X2_complete_resolves_oldest_open _ _ [] Hne Ht Hc) as [_ H].
    apply H. constructor.
Defined.

(** ** Ledger: capacity under every operation *)

Lemma process_event_length (event : gmap string string) (l : list action) :
  length l <= max_ledger_entries ->
  length (_process_event event l) <= max_ledger_entries.
Proof.
  intros H. unfold _process_event. cbv zeta.
  repeat match goal with
  | |- context [if ?b then _ else _] => destruct b; try exact H
  end;
  try (destruct (Py.update_first _ _ l) as [l'|] eqn:E;
       [apply update_first_length in E; now rewrite E
       | first [exact H | now apply add_to_ledger_length]]);
  try (now rewrite update_all_length).
Qed.

Lemma register_commands_length (commands : list string) (l : list action) :
  length l <= max_ledger_entries ->
  length (register_commands commands l) <= max_ledger_entries.
Proof.
  revert l. induction commands as [|c commands IH]; intros l H; simpl; [exact H|].
  apply IH. destruct (Py.startswith c "FIND_AND_INTERACT"); [exact H|].
  now apply add_to_ledger_length.
Qed.

Lemma mark_opened_length (targets : list (string * string)) (l : list action) :
  length (fold_left (fun l target => mark_opened target l) targets l) = length l.
Proof. now rewrite mark_opened_fold, length_map. Qed.

Lemma check_action_completion_length
    (set_iter : gset (string * string) -> list (string * string))
    (current : list InteractableInfo) (self : RoR2BrainController) :
  length (action_ledger (_check_action_completion set_iter current self)) =
  length (action_ledger self).
Proof.
  unfold _check_action_completion. cbv zeta. simpl.
  destruct (_ && _); rewrite ?update_all_length; apply mark_opened_length.
Qed.

(** X3.  The capacity is an invariant of everything that touches the
    ledger: a ledger of at most 10 entries has at most 10 entries after
    any run of events, after the registration of any decision's commands,
    and after a completion check (which never changes the length). *)
Theorem X3_ledger_never_exceeds_capacity
    (l : list action) (events : list (gmap string string))
    (commands : list string)
    (set_iter : gset (string * string) -> list (string * string))
    (current : list InteractableInfo) (self : RoR2BrainController) :
  length l <= max_ledger_entries ->
  length (process_events events l) <= max_ledger_entries /\
  length (register_commands commands l) <= max_ledger_entries /\
  length (action_ledger (_check_action_completion set_iter current self))
    = length (action_ledger self).
Proof.
  intros H. split; [|split].
  - revert l H. induction events as [|ev events IH]; intros l H; simpl; [exact H|].
    apply IH. now apply process_event_length.
  - now apply register_commands_length.
  - apply check_action_completion_length.
Qed.

Lemma X3_ledger_never_exceeds_capacity_witness :
  length (process_events
            [ev_started chest_cmd; ev_failed teleporter_cmd "stuck";
             ev_started teleporter_cmd] ten_entries) <= max_ledger_entries.
Proof.
  apply (X3_ledger_never_exceeds_capacity ten_entries
           [ev_started chest_cmd; ev_failed teleporter_cmd "stuck";
            ev_started teleporter_cmd] [] elements [] init_controller).
  vm_compute. lia.
Defined.

(** ** Ledger: the ten most recent entries *)

Lemma last_n_cons {A} (n : nat) (a : A) (l : list A) :
  n <= length l -> last_n n (a :: l) = last_n n l.
Proof.
  intros H. unfold last_n. simpl length.
  replace (S (length l) - n) with (S (length l - n)) by lia. reflexivity.
Qed.

Lemma last_n_short {A} (n : nat) (l : list A) : length l <= n -> last_n n l = l.
Proof.
  intros H. unfold last_n. replace (length l - n) with 0 by lia. reflexivity.
Qed.

Lemma add_to_ledger_window (cmd st rs : string) (l rest : list action) :
  length l <= max_ledger_entries ->
  last_n max_ledger_entries (_add_to_ledger cmd st rs l ++ rest) =
  last_n max_ledger_entries (l ++ Action cmd st rs :: rest).
Proof.
  intros H. destruct (Nat.eq_dec (length l) max_ledger_entries) as [Hfull|Hroom].
  - rewrite (add_to_ledger_full _ _ _ _ Hfull).
    destruct l as [|a r]; [discriminate Hfull|]. simpl tail.
    rewrite <- app_assoc. simpl app.
    rewrite last_n_cons; [reflexivity|].
    rewrite length_app. simpl in *. lia.
  - rewrite add_to_ledger_room by lia. now rewrite <- app_assoc.
Qed.

Lemma add_all_window (calls : list (string * string * string)) (l : list action) :
  length l <= max_ledger_entries ->
  add_all calls l =
    last_n max_ledger_entries
      (l ++ map (fun c => Action c.1.1 c.1.2 c.2) calls).
Proof.
  revert l. induction calls as [|c calls IH]; intros l H; simpl.
  - rewrite app_nil_r. symmetry. now apply last_n_short.
  - change (add_all calls (_add_to_ledger c.1.1 c.1.2 c.2 l) = 
            last_n max_ledger_entries
              (l ++ Action c.1.1 c.1.2 c.2 ::
                 map (fun c => Action c.1.1 c.1.2 c.2) calls)).
    rewrite IH by now apply add_to_ledger_length.
    now apply add_to_ledger_window.
Qed.

Lemma register_commands_add_all (commands : list string) (l : list action) :
  register_commands commands l =
  add_all (map (fun c => (c, pending, EmptyString))
             (List.filter (fun c => negb (Py.startswith c "FIND_AND_INTERACT"))
                commands)) l.
Proof.
  revert l. induction commands as [|c commands IH]; intros l; simpl; [reflexivity|].
  destruct (Py.startswith c "FIND_AND_INTERACT"); simpl; apply IH.
Qed.

(** X4.  The ledger is a window on the ten most recent entries.  After any
    run of [_add_to_ledger] calls on a ledger within capacity, the ledger
    is the last 10 of the old entries followed by the new ones, in order.
    In particular, executing a decision registers its commands that do not
    start with FIND_AND_INTERACT as pending entries with an empty reason,
    in order, and registers none of the others. *)
Theorem X4_ledger_is_most_recent_window
    (l : list action) (calls : list (string * string * string))
    (commands : list string) (st : exec_state) :
  length l <= max_ledger_entries ->
  add_all calls l =
    last_n max_ledger_entries (l ++ map (fun c => Action c.1.1 c.1.2 c.2) calls) /\
  register_commands commands l =
    last_n max_ledger_entries
      (l ++ map (fun c => Action c pending EmptyString)
              (List.filter (fun c => negb (Py.startswith c "FIND_AND_INTERACT"))
                 commands)) /\
  (exec_ledger st = l ->
   exec_ledger (_execute_decision commands st).1 = register_commands commands l).
Proof.
  intros H. split; [now apply add_all_window|]. split.
  - rewrite register_commands_add_all, add_all_window by exact H.
    now rewrite map_map.
  - intros <-. unfold _execute_decision.
    set (st0 := {| exec_ledger := _ |}).
    change (register_commands commands (exec_ledger st)) with (exec_ledger st0).
    generalize st0. clear. induction commands as [|c commands IH]; intros st0; simpl.
    + reflexivity.
    + destruct (dispatch_command c st0) as [st1 calls1] eqn:E1.
      destruct (dispatch_commands commands st1) as [st2 calls2] eqn:E2.
      simpl. specialize (IH st1). rewrite E2 in IH. simpl in IH. rewrite IH.
      unfold dispatch_command in E1.
      destruct (split_colon c) as [head [args|]]; [|now injection E1 as <- _].
      repeat match type of E1 with
      | context [if ?b then _ else _] => destruct b
      end; now injection E1 as <- _.
Qed.

Lemma X4_ledger_is_most_recent_window_witness :
  register_commands ["STRATEGY:balanced"; "FIND_AND_INTERACT:chest"; "MODE:roam"]
    ten_entries
  = drop 2 ten_entries ++
    [Action "STRATEGY:balanced" pending EmptyString;
     Action "MODE:roam" pending EmptyString].
Proof.
  destruct (X4_ledger_is_most_recent_window ten_entries []
              ["STRATEGY:balanced"; "FIND_AND_INTERACT:chest"; "MODE:roam"]
              {| exec_ledger := ten_entries;
                 current_strategy := "balanced"; current_mode := "roam" |})
    as (_ & H & _).
  - vm_compute. lia.
  - rewrite H. vm_compute. reflexivity.
Defined.

(** ** Decision execution: what goes to the bridge *)

Lemma dispatch_command_cases (cmd_str : string) (st : exec_state) :
  let '(st', calls) := dispatch_command cmd_str st in
  (calls = [] /\ st' = st) \/
  (exists a, calls = [("STRATEGY", a)] /\ a <> current_strategy st /\
             current_strategy st' = a /\ current_mode st' = current_mode st) \/
  (exists a, calls = [("MODE", a)] /\ a <> current_mode st /\
             current_mode st' = a /\ current_strategy st' = current_strategy st) \/
  (exists a, st' = st /\
     (calls = [("FIND_AND_INTERACT", a)] \/ calls = [("GOTO", "CANCEL")] \/
      calls = [("BUY_SHOP_ITEM", a)])).
Proof.
  unfold dispatch_command.
  destruct (split_colon cmd_str) as [head [args|]]; [|now left].
  destruct (String.eqb (upper head) "STRATEGY").
  { destruct (String.eqb_spec (Py.lower args) (current_strategy st)); simpl.
    - now left.
    - right. left. exists (Py.lower args). auto. }
  destruct (String.eqb (upper head) "MODE").
  { destruct (String.eqb_spec (Py.lower args) (current_mode st)); simpl.
    - now left.
    - right. right. left. exists (Py.lower args). auto. }
  destruct (String.eqb (upper head) "FIND_AND_INTERACT").
  { right. right. right. exists (Py.lower args). auto. }
  destruct (String.eqb (upper head) "GOTO" && String.eqb (Py.lower args) "cancel").
  { right. right. right. exists args. auto. }
  destruct (String.eqb (upper head) "BUY_SHOP_ITEM").
  { right. right. right. exists args. auto. }
  now left.
Qed.

Lemma args_of_app (verb : string) (c1 c2 : list bridge_call) :
  args_of verb (c1 ++ c2) = args_of verb c1 ++ args_of verb c2.
Proof. unfold args_of. now rewrite List.filter_app, map_app. Qed.

Lemma last_cons_default {A} (a d : A) (xs : list A) :
  List.last (a :: xs) d = List.last xs a.
Proof.
  revert a d. induction xs as [|x xs IH]; intros a d; [reflexivity|].
  change (List.last (x :: xs) d = List.last (x :: xs) a).
  now rewrite (IH x d), (IH x a).
Qed.

Lemma dispatch_commands_changes (commands : list string) (st : exec_state) :
  let '(st', calls) := dispatch_commands commands st in
  each_changes (current_strategy st) (args_of "STRATEGY" calls) /\
  each_changes (current_mode st) (args_of "MODE" calls) /\
  current_strategy st' = List.last (args_of "STRATEGY" calls) (current_strategy st) /\
  current_mode st' = List.last (args_of "MODE" calls) (current_mode st) /\
  Forall (fun call => In call.1 bridge_verbs /\
                      (call.1 = "GOTO" -> call.2 = "CANCEL")) calls.
Proof.
  revert st. induction commands as [|c commands IH]; intros st; simpl.
  - repeat split; constructor.
  - pose proof (dispatch_command_cases c st) as Hc.
    destruct (dispatch_command c st) as [st1 calls1].
    specialize (IH st1). destruct (dispatch_commands commands st1) as [st2 calls2].
    destruct IH as (IHs & IHm & IHls & IHlm & IHv).
    rewrite !args_of_app.
    destruct Hc as [[-> ->] | [(a & -> & Ha & Hs & Hm) | [(a & -> & Ha & Hm & Hs)
                    | (a & -> & Hcalls)]]].
    + simpl. auto.
    + change (args_of "STRATEGY" [("STRATEGY", a)]) with [a].
      change (args_of "MODE" [("STRATEGY", a)]) with (@nil string).
      simpl app. rewrite Hs in IHs, IHls. rewrite Hm in IHm, IHlm.
      repeat split; auto.
      * now rewrite IHls, last_cons_default.
      * constructor; [|exact IHv]. simpl. split; [tauto | discriminate].
    + change (args_of "MODE" [("MODE", a)]) with [a].
      change (args_of "STRATEGY" [("MODE", a)]) with (@nil string).
      simpl app. rewrite Hs in IHs, IHls. rewrite Hm in IHm, IHlm.
      repeat split; auto.
      * now rewrite IHlm, last_cons_default.
      * constructor; [|exact IHv]. simpl. split; [tauto | discriminate].
    + destruct Hcalls as [-> | [-> | ->]];
        (repeat split; auto; constructor; [|exact IHv]; simpl;
         split; [tauto | first [discriminate | reflexivity]]).
Qed.

(** X5.  Executing a decision made of ASCII commands calls the bridge only
    with the five verbs STRATEGY, MODE, FIND_AND_INTERACT, GOTO and
    BUY_SHOP_ITEM, GOTO only with CANCEL.  STRATEGY and MODE are sent on
    change only: each STRATEGY sent differs from the strategy in force
    just before it (the recorded one, then the one sent last), likewise
    each MODE; and the recorded strategy and mode afterwards are the last
    ones sent, or the old ones when none was sent. *)
Theorem X5_bridge_calls_on_change_only
    (commands : list string) (st : exec_state) :
  Forall (fun c => ascii_text c = true) commands ->
  let st' := (_execute_decision commands st).1 in
  let calls := (_execute_decision commands st).2 in
  Forall (fun call => In call.1 bridge_verbs /\
                      (call.1 = "GOTO" -> call.2 = "CANCEL")) calls /\
  each_changes (current_strategy st) (args_of "STRATEGY" calls) /\
  each_changes (current_mode st) (args_of "MODE" calls) /\
  current_strategy st' = List.last (args_of "STRATEGY" calls) (current_strategy st) /\
  current_mode st' = List.last (args_of "MODE" calls) (current_mode st).
Proof.
  intros _. cbv zeta. unfold _execute_decision.
  pose proof (dispatch_commands_changes commands
                {| exec_ledger := register_commands commands (exec_ledger st);
                   current_strategy := current_strategy st;
                   current_mode := current_mode st |}) as H.
  destruct (dispatch_commands commands _) as [st' calls].
  simpl in *. tauto.
Qed.

Lemma X5_bridge_calls_on_change_only_witness :
  (_execute_decision ["STRATEGY:Balanced"; "MODE:combat"; "GOTO:cancel"; "wait"]
     {| exec_ledger := []; current_strategy := "balanced"; current_mode := "roam" |}).2
  = [("MODE", "combat"); ("GOTO", "CANCEL")] /\
  each_changes "roam"
    (args_of "MODE"
       (_execute_decision ["STRATEGY:Balanced"; "MODE:combat"; "GOTO:cancel"; "wait"]
          {| exec_ledger := []; current_strategy := "balanced";
             current_mode := "roam" |}).2).
Proof.
  split; [vm_compute; reflexivity|].
  apply (X5_bridge_calls_on_change_only
           ["STRATEGY:Balanced"; "MODE:combat"; "GOTO:cancel"; "wait"]
           {| exec_ledger := []; current_strategy := "balanced";
              current_mode := "roam" |}).
  repeat constructor.
Defined.

(** ** Completion check: the teleporter inference, repetition, resolved entries *)

Lemma mark_opened_entry_cases (targets : list (string * string)) (a : action) :
  fold_left (fun a target => mark_opened_entry target a) targets a = a \/
  exists tg, In tg targets /\
    Py.startswith (command a) ("FIND_AND_INTERACT:" +:+ tg.1) = true /\
    fold_left (fun a target => mark_opened_entry target a) targets a =
      Action (command a) success (tg.2 +:+ " opened").
Proof.
  destruct (is_open a) eqn:Hopen; [|left; now apply closed_entry_stays].
  induction targets as [|tg targets IH]; simpl; [now left|].
  unfold mark_opened_entry at 2 4, is_open_find. rewrite Hopen. simpl.
  destruct (Py.startswith (command a) ("FIND_AND_INTERACT:" +:+ tg.1)) eqn:E.
  - right. exists tg. split; [now left|]. split; [exact E|].
    now rewrite closed_entry_stays.
  - destruct IH as [IH | (tg' & Hin & Hm & Hfold)]; [now left|].
    right. exists tg'. split; [now right|]. now split.
Qed.

Section CompletionCheck.

Variable set_iter : gset (string * string) -> list (string * string).
Hypothesis set_iter_perm : forall s, set_iter s ≡ₚ elements s.

Lemma set_iter_empty : set_iter ∅ = [].
Proof.
  apply Permutation_nil. rewrite (set_iter_perm ∅). now rewrite elements_empty.
Qed.

(** X6.  Teleporter activation is inferred from the boss flag.  When
    [boss_active] is true and was false at the previous check, every
    pending or interrupted entry whose lower-cased command contains
    "teleporter" keeps its command and becomes success; its reason is
    "teleporter activated (boss spawned)", unless the same check already
    resolved it through a target that disappeared.  The check records the
    flag, and the current targets as the last seen ones. *)
Theorem X6_boss_spawn_resolves_teleporter
    (self : RoR2BrainController) (current : list InteractableInfo)
    (i : nat) (a : action) :
  boss_active self = true -> _prev_boss_active self = false ->
  action_ledger self !! i = Some a ->
  status a = pending \/ status a = interrupted ->
  Py.contains "teleporter" (Py.lower (command a)) = true ->
  exists a',
    action_ledger (_check_action_completion set_iter current self) !! i = Some a' /\
    command a' = command a /\ status a' = success /\
    (reason a' = "teleporter activated (boss spawned)" \/
     exists t n, ((t, n) ∈ last_seen_interactables self) /\
                 ((t, n) ∉ current_ids_of current) /\
                 reason a' = n +:+ " opened") /\
    _prev_boss_active (_check_action_completion set_iter current self) = true /\
    last_seen_interactables (_check_action_completion set_iter current self)
      = current_ids_of current.
Proof.
  intros Hboss Hprev Hi Hst Htp. apply is_open_iff in Hst.
  unfold _check_action_completion. cbv zeta. simpl.
  rewrite Hboss, Hprev. simpl.
  unfold Py.update_all. rewrite list_lookup_fmap, mark_opened_fold, list_lookup_fmap, Hi.
  simpl.
  destruct (mark_opened_entry_cases
              (set_iter (last_seen_interactables self ∖ current_ids_of current)) a)
    as [-> | ([t n] & Hin & _ & ->)].
  - unfold is_open_teleporter. rewrite Hst, Htp. simpl.
    eexists. split; [reflexivity|]. simpl. auto.
  - eexists. split; [reflexivity|]. simpl. repeat split; auto.
    right. exists t, n.
    rewrite <- list_elem_of_In, (set_iter_perm _), elem_of_elements,
      elem_of_difference in Hin.
    destruct Hin. auto.
Qed.

(** X7.  A completion check repeated on the same interactables changes
    nothing: after one check nothing has disappeared since the last one
    and the boss flag has not changed, so the second check returns the
    controller as the first left it. *)
Theorem X7_completion_check_idempotent
    (self : RoR2BrainController) (current : list InteractableInfo) :
  _check_action_completion set_iter current
    (_check_action_completion set_iter current self)
  = _check_action_completion set_iter current self.
Proof.
  unfold _check_action_completion at 1. cbv zeta.
  set (once := _check_action_completion set_iter current self).
  assert (Hseen : last_seen_interactables once = current_ids_of current) by reflexivity.
  assert (Hprev : _prev_boss_active once = boss_active once) by reflexivity.
  rewrite Hseen, Hprev, difference_diag_L, set_iter_empty. simpl.
  rewrite andb_negb_r. reflexivity.
Qed.

(** X8.  An entry that is neither pending nor interrupted is never
    rewritten by a completion check: it keeps its command, status and
    reason, at the same position. *)
Theorem X8_completion_check_keeps_resolved
    (self : RoR2BrainController) (current : list InteractableInfo)
    (i : nat) (a : action) :
  action_ledger self !! i = Some a ->
  status a <> pending -> status a <> interrupted ->
  action_ledger (_check_action_completion set_iter current self) !! i = Some a.
Proof.
  intros Hi Hp Hn.
  assert (Hclosed : is_open a = false).
  { destruct (is_open a) eqn:E; [|reflexivity].
    apply is_open_iff in E. tauto. }
  assert (Hone : fold_left (fun l target => mark_opened target l)
                   (set_iter (last_seen_interactables self ∖ current_ids_of current))
                   (action_ledger self) !! i = Some a).
  { rewrite mark_opened_fold, list_lookup_fmap, Hi. simpl.
    now rewrite closed_entry_stays. }
  unfold _check_action_completion. cbv zeta. simpl.
  destruct (_ && _); [|exact Hone].
  now apply teleporter_pass_keeps_closed.
Qed.

End CompletionCheck.

Lemma X6_boss_spawn_resolves_teleporter_witness :
  exists a',
    action_ledger (_check_action_completion elements teleporter_present boss_scenario)
      !! 0 = Some a' /\
    status a' = success.
Proof.
  destruct (X6_boss_spawn_resolves_teleporter elements
              (fun s => reflexivity (elements s)) boss_scenario teleporter_present 0
              (Action "FIND_AND_INTERACT:teleporter" pending "found Teleporter1 at 5m"))
    as (a' & Hi & _ & Hs & _); try reflexivity; [now left|].
  exists a'. now split.
Defined.

Lemma X7_completion_check_idempotent_witness :
  _check_action_completion elements teleporter_present
    (_check_action_completion elements teleporter_present boss_scenario)
  = _check_action_completion elements teleporter_present boss_scenario.
Proof.
  apply (X7_completion_check_idempotent elements (fun s => reflexivity (elements s))).
Defined.

Lemma X8_completion_check_keeps_resolved_witness :
  action_ledger (_check_action_completion elements teleporter_present boss_scenario)
    !! 1 = Some (Action "FIND_AND_INTERACT:chest" failed "no gold").
Proof.
  apply (X8_completion_check_keeps_resolved elements boss_scenario teleporter_present 1);
    [reflexivity | discriminate | discriminate].
Defined.

(** ** Events never rewrite a resolved entry *)

Module TrackedFrozen.
Import TrackedRel.

Lemma frozen_refl (es : list (nat * action)) : Forall2 frozen_step es es.
Proof. induction es; constructor; auto. now split. Qed.

Lemma frozen_ids (es es' : list (nat * action)) :
  Forall2 frozen_step es es' -> map fst es' = map fst es.
Proof.
  induction 1 as [|x y es es' [Hid _] _ IH]; simpl; [reflexivity|].
  now rewrite IH, Hid.
Qed.

Lemma frozen_by_id (es es' : list (nat * action)) :
  List.NoDup (map fst es) -> Forall2 frozen_step es es' ->
  forall i a a', In (i, a) es -> In (i, a') es' -> is_open a = false -> a' = a.
Proof.
  intros Hnd H. induction H as [|x y es es' Hxy Hrest IH]; intros i a a' Ha Ha' Hc.
  - destruct Ha.
  - simpl in Hnd. apply List.NoDup_cons_iff in Hnd. destruct Hnd as [Hx Hnd].
    destruct Hxy as (Hid & Hfix).
    destruct Ha as [-> | Ha], Ha' as [-> | Ha'].
    + now apply Hfix.
    + exfalso. apply Hx. rewrite <- (frozen_ids _ _ Hrest).
      apply (in_map fst _ _ Ha').
    + exfalso. apply Hx. simpl in Hid. rewrite Hid.
      apply (in_map fst _ _ Ha).
    + now apply (IH Hnd i).
Qed.

Lemma frozen_first (p : action -> bool) (f : action -> action)
    (es es' : list (nat * action)) :
  (forall a, p a = true -> is_open a = true) ->
  Py.update_first (Tracked.on_obj p) (Tracked.in_obj f) es = Some es' ->
  Forall2 frozen_step es es'.
Proof.
  intros Hp H. apply update_first_Some in H.
  destruct H as (l1 & x & l2 & -> & _ & Hx & ->).
  apply Forall2_app; [apply frozen_refl|].
  constructor; [|apply frozen_refl].
  split; [reflexivity|]. intros Hc. apply Hp in Hx. congruence.
Qed.

Lemma frozen_all (p : action -> bool) (f : action -> action)
    (es : list (nat * action)) :
  (forall a, p a = true -> is_open a = true) ->
  Forall2 frozen_step es (Py.update_all (Tracked.on_obj p) (Tracked.in_obj f) es).
Proof.
  intros Hp. unfold Py.update_all.
  induction es as [|x es IH]; simpl; constructor; [|exact IH].
  unfold Tracked.on_obj. destruct (p x.2) eqn:Hx; [|now split].
  split; [reflexivity|]. intros Hc. apply Hp in Hx. congruence.
Qed.

Lemma guard_pending_for (c : string) (a : action) :
  is_pending_for c a = true -> is_open a = true.
Proof.
  unfold is_pending_for, is_open. intros [_ H]%andb_true_iff. now rewrite H.
Qed.

Lemma guard_open_for (c : string) (a : action) :
  is_open_for c a = true -> is_open a = true.
Proof. unfold is_open_for, is_open. now intros [_ H]%andb_true_iff. Qed.

Lemma guard_navigation (a : action) :
  is_pending_navigation a = true -> is_open a = true.
Proof.
  unfold is_pending_navigation, is_open. intros [H _]%andb_true_iff. now rewrite H.
Qed.

Lemma guard_interruptible (a : action) :
  is_interruptible a = true -> is_open a = true.
Proof.
  unfold is_interruptible, is_open.
  intros [[H _]%andb_true_iff _]%andb_true_iff. now rewrite H.
Qed.

Lemma mutated_keeps (t : Tracked.ledger) (es : list (nat * action)) :
  Tracked.wf t -> Forall2 frozen_step (Tracked.entries t) es ->
  keeps_resolved t (Tracked.mutated t es).
Proof. intros [Hnd _] H i a a'. now apply (frozen_by_id _ _ Hnd H). Qed.

Lemma same_keeps (t : Tracked.ledger) : Tracked.wf t -> keeps_resolved t t.
Proof.
  intros [Hnd _] i a a'. apply (frozen_by_id _ _ Hnd (frozen_refl _)).
Qed.

Lemma add_keeps (cmd st rs : string) (t : Tracked.ledger) :
  Tracked.wf t -> keeps_resolved t (Tracked._add_to_ledger cmd st rs t).
Proof.
  intros [Hnd Hlt] i a a' Ha Ha'.
  assert (Hin : In (i, a') (Tracked.entries t ++ [(Tracked.next_id t, Action cmd st rs)])).
  { unfold Tracked._add_to_ledger in Ha'. cbv zeta in Ha'. simpl in Ha'.
    destruct (max_ledger_entries <? _); [now apply TrackedFacts.in_tail | exact Ha']. }
  apply in_app_iff in Hin. destruct Hin as [Hin | [[= Hi _] | []]].
  - apply (frozen_by_id _ _ Hnd (frozen_refl _) i a a' Ha Hin).
  - rewrite List.Forall_forall in Hlt. apply Hlt in Ha. simpl in Ha. lia.
Qed.

Lemma first_keeps (p : action -> bool) (f : action -> action)
    (t fb : Tracked.ledger) :
  Tracked.wf t -> (forall a, p a = true -> is_open a = true) ->
  keeps_resolved t fb ->
  keeps_resolved t
    match Py.update_first (Tracked.on_obj p) (Tracked.in_obj f) (Tracked.entries t) with
    | Some l' => Tracked.mutated t l'
    | None => fb
    end.
Proof.
  intros Hwf Hp Hfb.
  destruct (Py.update_first _ _ _) as [l'|] eqn:E; [|exact Hfb].
  apply mutated_keeps; [exact Hwf|]. now apply (frozen_first p f).
Qed.

Lemma process_event_keeps_resolved (event : gmap string string) (t : Tracked.ledger) :
  Tracked.wf t -> keeps_resolved t (Tracked._process_event event t).
Proof.
  intros Hwf. unfold Tracked._process_event. cbv zeta.
  repeat match goal with
  | |- context [if ?b then _ else _] => destruct b; try (now apply same_keeps)
  end.
  - apply first_keeps; [exact Hwf | apply guard_pending_for | now apply add_keeps].
  - apply first_keeps; [exact Hwf | apply guard_open_for | now apply same_keeps].
  - apply first_keeps; [exact Hwf | apply guard_pending_for | now apply add_keeps].
  - apply mutated_keeps; [exact Hwf|]. apply frozen_all, guard_navigation.
  - apply mutated_keeps; [exact Hwf|]. apply frozen_all, guard_interruptible.
Qed.

End TrackedFrozen.

(** X9.  No event rewrites a resolved entry.  Whatever the event carries
    (any type, any command, any reported status), an entry of the ledger
    that is neither pending nor interrupted and is still in the ledger
    afterwards has the same command, status and reason. *)
Theorem X9_events_keep_resolved_entries
    (event : gmap string string) (t : Tracked.ledger) (i : nat) (a a' : action) :
  Tracked.wf t ->
  In (i, a) (Tracked.entries t) ->
  In (i, a') (Tracked.entries (Tracked._process_event event t)) ->
  status a <> pending -> status a <> interrupted ->
  a' = a /\
  Tracked.erase (Tracked._process_event event t)
    = _process_event event (Tracked.erase t).
Proof.
  intros Hwf Ha Ha' Hp Hn. split; [|apply TrackedFacts.erase_process_event].
  apply (TrackedFrozen.process_event_keeps_resolved event t Hwf i a a' Ha Ha').
  destruct (is_open a) eqn:E; [|reflexivity].
  apply is_open_iff in E. tauto.
Qed.

Lemma X9_events_keep_resolved_entries_witness :
  Tracked.entries
    (Tracked._process_event (ev_complete chest_cmd pending)
       {| Tracked.entries := [(0, Action chest_cmd failed "no gold")];
          Tracked.next_id := 1 |})
  = [(0, Action chest_cmd failed "no gold")] /\
  Action chest_cmd failed "no gold" = Action chest_cmd failed "no gold".
Proof.
  split; [vm_compute; reflexivity|].
  apply (X9_events_keep_resolved_entries (ev_complete chest_cmd pending)
           {| Tracked.entries := [(0, Action chest_cmd failed "no gold")];
              Tracked.next_id := 1 |} 0).
  - split; simpl; repeat constructor. intros [].
  - now left.
  - vm_compute. now left.
  - discriminate.
  - discriminate.
Defined.

(** ** Directive auto-clear *)

Lemma auto_clear_cases (self : RoR2BrainController) :
  _try_auto_clear_directive self = self \/
  _try_auto_clear_directive self = clear_directive self.
Proof.
  unfold _try_auto_clear_directive.
  destruct (_ || _); [now left|]. destruct (existsb _ _); auto.
Qed.

(** X10.  Only tactical directives are cleared by ledger activity.  A
    controller whose directive type is not "tactical" is returned as it
    is, whatever the ledger holds; in particular a directive that
    [set_user_directive] classifies as strategic survives every
    auto-clear, and is still valid afterwards whenever it was valid. *)
Theorem X10_strategic_directive_never_auto_cleared
    (self : RoR2BrainController) (directive : string) (set_at now : Q) :
  (directive_type self <> "tactical" -> _try_auto_clear_directive self = self) /\
  (_classify_directive directive = "strategic" ->
   _try_auto_clear_directive (set_user_directive directive set_at self)
     = set_user_directive directive set_at self /\
   _is_directive_valid now
       (_try_auto_clear_directive (set_user_directive directive set_at self))
     = Qlt_bool (now - set_at) 600).
Proof.
  split.
  - intros H. unfold _try_auto_clear_directive.
    destruct (String.eqb_spec (directive_type self) "tactical"); [contradiction|].
    reflexivity.
  - intros Hc.
    assert (Hkeep : _try_auto_clear_directive (set_user_directive directive set_at self)
                    = set_user_directive directive set_at self).
    { unfold _try_auto_clear_directive, set_user_directive. simpl.
      rewrite Hc. reflexivity. }
    split; [exact Hkeep|]. rewrite Hkeep.
    unfold _is_directive_valid, set_user_directive. simpl. now rewrite Hc.
Qed.

Lemma X10_strategic_directive_never_auto_cleared_witness :
  _try_auto_clear_directive
    {| action_ledger := [Action chest_cmd success "Chest1 opened"];
       last_seen_interactables := ∅;
       _prev_boss_active := false;
       boss_active := false;
       user_directive := Some "guard the chest area";
       directive_timestamp := Some 1000%Q;
       directive_type := "strategic";
       directive_ttl := 600 |}
  = {| action_ledger := [Action chest_cmd success "Chest1 opened"];
       last_seen_interactables := ∅;
       _prev_boss_active := false;
       boss_active := false;
       user_directive := Some "guard the chest area";
       directive_timestamp := Some 1000%Q;
       directive_type := "strategic";
       directive_ttl := 600 |}.
Proof.
  apply (X10_strategic_directive_never_auto_cleared _ EmptyString 0 0).
  discriminate.
Defined.

Lemma existsb_In {A} (f : A -> bool) (l : list A) :
  existsb f l = true <-> exists x, In x l /\ f x = true.
Proof. apply existsb_exists. Qed.

(** X11.  A tactical directive with a non-empty text is cleared exactly
    when one of the last five ledger entries is a success whose
    lower-cased command shares one of the keywords teleporter, chest,
    shrine, shop with the lower-cased directive.  Clearing removes the
    text and the timestamp, so the directive is invalid at every later
    reading of the clock; the ledger and the other attributes are not
    touched, and when it is not cleared nothing changes at all. *)
Theorem X11_tactical_directive_cleared_on_matching_success
    (self : RoR2BrainController) (directive : string) :
  directive_type self = "tactical" ->
  user_directive self = Some directive -> directive <> EmptyString ->
  let fulfilled :=
    exists a kw,
      In a (last_n 5 (action_ledger self)) /\ status a = success /\
      In kw match_keywords /\
      Py.contains kw (Py.lower directive) = true /\
      Py.contains kw (Py.lower (command a)) = true in
  (fulfilled ->
     _try_auto_clear_directive self = clear_directive self /\
     forall now, _is_directive_valid now (_try_auto_clear_directive self) = false) /\
  (~ fulfilled -> _try_auto_clear_directive self = self) /\
  action_ledger (_try_auto_clear_directive self) = action_ledger self.
Proof.
  intros Ht Hd Hne. cbv zeta.
  assert (Hguard : negb (String.eqb (directive_type self) "tactical")
                   || no_directive self = false).
  { rewrite Ht. unfold no_directive. rewrite Hd.
    apply truthy_true in Hne. now rewrite Hne. }
  assert (Hiff : existsb (fun a => String.eqb (status a) success &&
                                   _action_matches_directive (command a) self)
                         (last_n 5 (action_ledger self)) = true <->
                 exists a kw,
                   In a (last_n 5 (action_ledger self)) /\ status a = success /\
                   In kw match_keywords /\
                   Py.contains kw (Py.lower directive) = true /\
                   Py.contains kw (Py.lower (command a)) = true).
  { rewrite existsb_In. unfold _action_matches_directive. rewrite Hd.
    apply truthy_true in Hne. rewrite Hne. simpl negb. cbv iota.
    split.
    - intros (a & Ha & H). apply andb_true_iff in H. destruct H as [Hs Hm].
      apply String.eqb_eq in Hs. apply existsb_In in Hm.
      destruct Hm as (kw & Hkw & H). apply andb_true_iff in H.
      exists a, kw. tauto.
    - intros (a & kw & Ha & Hs & Hkw & H1 & H2). exists a. split; [exact Ha|].
      apply andb_true_iff. split; [now apply String.eqb_eq|].
      apply existsb_In. exists kw. split; [exact Hkw|]. now rewrite H1, H2. }
  split; [|split].
  - intros Hf. apply Hiff in Hf.
    assert (Hc : _try_auto_clear_directive self = clear_directive self).
    { unfold _try_auto_clear_directive. now rewrite Hguard, Hf. }
    split; [exact Hc|]. intros now. now rewrite Hc.
  - intros Hnf. unfold _try_auto_clear_directive. rewrite Hguard.
    destruct (existsb _ _) eqn:E; [|reflexivity].
    exfalso. apply Hnf. now apply Hiff.
  - destruct (auto_clear_cases self) as [-> | ->]; reflexivity.
Qed.

Lemma X11_tactical_directive_cleared_on_matching_success_witness :
  user_directive
    (_try_auto_clear_directive
       (tactical_scenario [Action chest_cmd success "Chest1 opened"])) = None /\
  _try_auto_clear_directive (tactical_scenario [Action chest_cmd pending EmptyString])
    = tactical_scenario [Action chest_cmd pending EmptyString].
Proof.
  split.
  - destruct (X11_tactical_directive_cleared_on_matching_success
                (tactical_scenario [Action chest_cmd success "Chest1 opened"])
                "Open the Chest" eq_refl eq_refl) as [H _]; [discriminate|].
    destruct H as [-> _]; [|reflexivity].
    exists (Action chest_cmd success "Chest1 opened"), "chest".
    repeat split; simpl; auto.
  - destruct (X11_tactical_directive_cleared_on_matching_success
                (tactical_scenario [Action chest_cmd pending EmptyString])
                "Open the Chest" eq_refl eq_refl) as (_ & H & _); [discriminate|].
    apply H. intros (a & kw & Ha & Hs & _).
    destruct Ha as [<- | []]. discriminate Hs.
Defined.

(** ** Transport: routing, bounded event queue, reconnection *)

Module WireFacts.
Import Model Wire.

Lemma put_event_length (msg : wire_record) (q : list wire_record) :
  length q <= event_queue_maxsize ->
  length (put_event msg q) <= event_queue_maxsize.
Proof.
  intros H. unfold put_event.
  destruct (Nat.ltb_spec (length q) event_queue_maxsize) as [Hlt|Hge].
  - rewrite length_app. simpl. lia.
  - destruct q as [|a q']; [exact H|]. rewrite length_app. simpl in *. lia.
Qed.

Lemma put_event_window (msg : wire_record) (q rest : list wire_record) :
  length q <= event_queue_maxsize ->
  last_n event_queue_maxsize (put_event msg q ++ rest) =
  last_n event_queue_maxsize (q ++ msg :: rest).
Proof.
  intros H. unfold put_event.
  destruct (Nat.ltb_spec (length q) event_queue_maxsize) as [Hlt|Hge].
  - now rewrite <- app_assoc.
  - destruct q as [|a q'].
    + simpl in Hge. unfold event_queue_maxsize in Hge. lia.
    + rewrite <- app_assoc. simpl app.
      rewrite last_n_cons; [reflexivity|].
      rewrite length_app. simpl in *. lia.
Qed.

Lemma benign_step_connected (input : reader_input)
    (self : Transport.SocketBridge wire_record) :
  benign input = true ->
  Transport.connected (reader_step input self) = Transport.connected self /\
  Transport.client_socket (reader_step input self) = Transport.client_socket self.
Proof.
  destruct input as [| | | |[]]; try discriminate; intros _; simpl; auto.
  destruct (is_event items); auto.
Qed.

Lemma reader_loop_benign (inputs : list reader_input)
    (self : Transport.SocketBridge wire_record) :
  forallb benign inputs = true ->
  Transport.connected self = true ->
  length (Transport._event_queue self) <= event_queue_maxsize ->
  Transport._event_queue (_reader_loop inputs self) =
    last_n event_queue_maxsize (Transport._event_queue self ++ events_of inputs) /\
  Transport._response_queue (_reader_loop inputs self) =
    Transport._response_queue self ++ responses_of inputs /\
  Transport.connected (_reader_loop inputs self) = true /\
  Transport.client_socket (_reader_loop inputs self) = Transport.client_socket self.
Proof.
  revert self. induction inputs as [|input inputs IH]; intros self Hb Hc Hlen.
  - simpl. rewrite !app_nil_r. repeat split; auto.
    symmetry. now apply last_n_short.
  - simpl in Hb. apply andb_true_iff in Hb. destruct Hb as [Hb1 Hb].
    simpl _reader_loop. rewrite Hc.
    destruct (benign_step_connected input self Hb1) as [Hc1 Hs1].
    assert (Hcases :
      (reader_step input self = self /\ events_of (input :: inputs) = events_of inputs /\
       responses_of (input :: inputs) = responses_of inputs) \/
      (exists msg, is_event msg = true /\
         reader_step input self =
           set_event_queue (put_event msg (Transport._event_queue self)) self /\
         events_of (input :: inputs) = msg :: events_of inputs /\
         responses_of (input :: inputs) = responses_of inputs) \/
      (exists msg, is_event msg = false /\
         reader_step input self =
           Transport.set_response_queue wire_record
             (Transport._response_queue self ++ [msg]) self /\
         events_of (input :: inputs) = events_of inputs /\
         responses_of (input :: inputs) = msg :: responses_of inputs)).
    { destruct input as [| | | |[]]; try discriminate Hb1; simpl; auto.
      destruct (is_event items) eqn:E.
      - right. left. exists items. auto.
      - right. right. exists items. auto. }
    destruct Hcases as [(Hs & -> & ->) | [(msg & He & Hs & -> & ->)
                       | (msg & He & Hs & -> & ->)]].
    + rewrite Hs. now apply IH.
    + rewrite Hs. rewrite Hs in Hc1.
      destruct (IH (set_event_queue (put_event msg (Transport._event_queue self)) self) Hb)
        as (H1 & H2 & H3 & H4).
      * rewrite Hc1. exact Hc.
      * simpl. now apply put_event_length.
      * simpl in *. rewrite H1, H2. repeat split; auto.
        now apply put_event_window.
    + rewrite Hs. rewrite Hs in Hc1.
      destruct (IH (Transport.set_response_queue wire_record
                      (Transport._response_queue self ++ [msg]) self) Hb)
        as (H1 & H2 & H3 & H4).
      * rewrite Hc1. exact Hc.
      * exact Hlen.
      * simpl in *. rewrite H1, H2, <- app_assoc. repeat split; auto.
Qed.

End WireFacts.

(** X12.  Routing by the reader.  While the connection is up and the
    lines are blank, malformed or JSON objects, the reader appends every
    object tagged EVENT to the event queue and every other object to the
    response queue, in arrival order, and skips the rest.  The event
    queue is bounded: it holds the most recent 200 of its old content
    followed by the new events, the oldest being dropped on overflow;
    the response queue loses nothing; the connection stays up. *)
Theorem X12_reader_routes_and_bounds_events
    (inputs : list Wire.reader_input)
    (self : Transport.SocketBridge Wire.wire_record) :
  forallb Wire.benign inputs = true ->
  Transport.connected self = true ->
  length (Transport._event_queue self) <= Wire.event_queue_maxsize ->
  Transport._event_queue (Wire._reader_loop inputs self) =
    last_n Wire.event_queue_maxsize
      (Transport._event_queue self ++ Wire.events_of inputs) /\
  length (Transport._event_queue (Wire._reader_loop inputs self))
    <= Wire.event_queue_maxsize /\
  Transport._response_queue (Wire._reader_loop inputs self) =
    Transport._response_queue self ++ Wire.responses_of inputs /\
  Transport.connected (Wire._reader_loop inputs self) = true.
Proof.
  intros Hb Hc Hlen.
  destruct (WireFacts.reader_loop_benign inputs self Hb Hc Hlen) as (H1 & H2 & H3 & _).
  repeat split; auto.
  rewrite H1. unfold last_n. rewrite length_drop. lia.
Qed.

(** X13.  What ends the reader.  At the first line that is the end of the
    stream, is not UTF-8, or decodes to a JSON value that is not an
    object, the reader lowers the connected flag and stops: the queues
    are as the lines before it left them, and no later line is read. *)
Theorem X13_reader_stops_at_fatal_input
    (before after : list Wire.reader_input) (fatal : Wire.reader_input)
    (self : Transport.SocketBridge Wire.wire_record) :
  forallb Wire.benign before = true ->
  Wire.benign fatal = false ->
  Transport.connected self = true ->
  Wire._reader_loop (before ++ fatal :: after) self =
    Transport.set_connected Wire.wire_record false (Wire._reader_loop before self).
Proof.
  revert self. induction before as [|input before IH]; intros self Hb Hf Hc.
  - simpl. rewrite Hc.
    assert (Hstep : Wire.reader_step fatal self =
                    Transport.set_connected Wire.wire_record false self).
    { destruct fatal as [| | | |[]]; try discriminate Hf; reflexivity. }
    rewrite Hstep. now destruct after.
  - simpl in Hb. apply andb_true_iff in Hb. destruct Hb as [Hb1 Hb].
    simpl. rewrite Hc. apply IH; auto.
    destruct (WireFacts.benign_step_connected input self Hb1) as [-> _]. exact Hc.
Qed.

Lemma X12_reader_routes_and_bounds_events_witness :
  Transport._event_queue
    (Wire._reader_loop
       [Wire.Parsed (Model.JObj low_health_record); Wire.BadJson;
        Wire.Parsed (Model.JObj inventory_record)] full_bridge)
  = repeat stuck_record 199 ++ [low_health_record] /\
  Transport._response_queue
    (Wire._reader_loop
       [Wire.Parsed (Model.JObj low_health_record); Wire.BadJson;
        Wire.Parsed (Model.JObj inventory_record)] full_bridge)
  = [inventory_record].
Proof.
  destruct (X12_reader_routes_and_bounds_events
              [Wire.Parsed (Model.JObj low_health_record); Wire.BadJson;
               Wire.Parsed (Model.JObj inventory_record)] full_bridge)
    as (H1 & _ & H2 & _).
  - reflexivity.
  - reflexivity.
  - vm_compute. lia.
  - rewrite H1, H2. split; vm_compute; reflexivity.
Defined.

Lemma X13_reader_stops_at_fatal_input_witness :
  Wire._reader_loop
    [Wire.BlankLine; Wire.Parsed (Model.JArr []);
     Wire.Parsed (Model.JObj inventory_record)] full_bridge
  = Transport.set_connected Wire.wire_record false full_bridge.
Proof.
  apply (X13_reader_stops_at_fatal_input [Wire.BlankLine]
           [Wire.Parsed (Model.JObj inventory_record)]
           (Wire.Parsed (Model.JArr [])) full_bridge); reflexivity.
Defined.

Section QueriesAndEvents.

Variable json_dumps : gmap string string -> string.

(** X14.  Responses and events do not interfere.  Draining the events
    changes neither the result nor the I/O of a query, and a query
    changes nothing of what the next drain returns; a drain returns the
    queued events oldest first and leaves none, so that a second drain
    right after it returns nothing. *)
Theorem X14_queries_and_events_do_not_interfere
    (query_type : string) (kwargs : gmap string string)
    (w : Transport.world Wire.wire_record)
    (self : Transport.SocketBridge Wire.wire_record) :
  let drained := (Wire.poll_events self).2 in
  let queried := (Transport.send_query json_dumps query_type kwargs w self).1.2 in
  (Transport.send_query json_dumps query_type kwargs w drained).1.1 =
    (Transport.send_query json_dumps query_type kwargs w self).1.1 /\
  (Transport.send_query json_dumps query_type kwargs w drained).2 =
    (Transport.send_query json_dumps query_type kwargs w self).2 /\
  (Wire.poll_events queried).1 = (Wire.poll_events self).1 /\
  (Wire.poll_events self).1 = Transport._event_queue self /\
  (Wire.poll_events drained).1 = [].
Proof.
  cbv zeta. unfold Wire.poll_events, Transport.send_query. simpl.
  destruct (Transport.connected self), (Transport.client_socket self);
    simpl; auto.
  destruct (Transport.sendall_ok w); simpl; auto.
  destruct (Transport._response_queue self ++ Transport.arrivals w); simpl; auto.
Qed.

(** X15.  Reconnection starts from empty queues.  When a peer connects to
    a disconnected bridge, whatever the queues held, the next drain
    returns no event and the next query is answered only by a response
    that arrives after the reconnection (none when none arrives): no
    record of the previous session is delivered.  The query is written to
    the new socket. *)
Theorem X15_reconnect_discards_previous_session
    (client : nat) (query_type : string) (kwargs : gmap string string)
    (w : Transport.world Wire.wire_record)
    (self : Transport.SocketBridge Wire.wire_record) :
  Transport.connected self = false ->
  Transport.sendall_ok w = true ->
  let fresh := Wire.accept_iteration client self in
  (Wire.poll_events fresh).1 = [] /\
  (Transport.send_query json_dumps query_type kwargs w fresh).1.1
    = head (Transport.arrivals w) /\
  Forall (fun io => match io with
                    | Transport.SocketSendall sock _ => sock = client
                    | Transport.ResponseQueueGet => True
                    end)
         (Transport.send_query json_dumps query_type kwargs w fresh).2.
Proof.
  intros Hc Hok. cbv zeta. unfold Wire.accept_iteration. rewrite Hc.
  unfold Transport.send_query. simpl. rewrite Hok.
  destruct (Transport.arrivals w); simpl; repeat split; repeat constructor.
Qed.

(** X16.  Responses are matched by position.  On a connected bridge with
    an empty response queue: a query whose response does not arrive in
    time returns [None]; if that response [late] is read afterwards, the
    next query returns [late], whatever arrives for it, and its own
    response [own] stays in the queue for the query after. *)
Theorem X16_late_response_answers_next_query
    (sock : nat) (q1 q2 : string) (kwargs1 kwargs2 : gmap string string)
    (late own : Wire.wire_record)
    (self : Transport.SocketBridge Wire.wire_record) :
  Transport.connected self = true ->
  Transport.client_socket self = Some sock ->
  Transport._response_queue self = [] ->
  Wire.is_event late = false ->
  let timed_out :=
    Transport.send_query json_dumps q1 kwargs1
      {| Transport.sendall_ok := true; Transport.arrivals := [] |} self in
  let caught_up := Wire._reader_loop [Wire.Parsed (Model.JObj late)] timed_out.1.2 in
  let second :=
    Transport.send_query json_dumps q2 kwargs2
      {| Transport.sendall_ok := true; Transport.arrivals := [own] |} caught_up in
  timed_out.1.1 = None /\
  second.1.1 = Some late /\
  Transport._response_queue second.1.2 = [own].
Proof.
  intros Hc Hs Hq He. cbv zeta.
  assert (H1 : Transport.send_query json_dumps q1 kwargs1
                 {| Transport.sendall_ok := true; Transport.arrivals := [] |} self
               = (None, self,
                  [Transport.SocketSendall sock
                     (json_dumps (kwargs1 ∪ {["type" := q1]})
                      +:+ String "010" EmptyString);
                   Transport.ResponseQueueGet])).
  { unfold Transport.send_query. now rewrite Hc, Hs, Hq. }
  rewrite H1. cbn [fst snd].
  assert (H2 : Wire._reader_loop [Wire.Parsed (Model.JObj late)] self
               = Transport.set_response_queue Wire.wire_record [late] self).
  { simpl. now rewrite Hc, He, Hq. }
  rewrite H2. unfold Transport.send_query. simpl. rewrite Hc, Hs. simpl.
  auto.
Qed.

(** X17.  A failed write disconnects.  When [sendall] fails the query
    returns [None] and lowers the connected flag; from then on every
    query and every command fails at once without any I/O, until a peer
    is accepted again. *)
Theorem X17_failed_send_short_circuits_later_calls
    (sock : nat) (query_type query_type' command args : string)
    (kwargs kwargs' : gmap string string)
    (w w' : Transport.world Wire.wire_record)
    (self : Transport.SocketBridge Wire.wire_record) :
  Transport.connected self = true ->
  Transport.client_socket self = Some sock ->
  Transport.sendall_ok w = false ->
  let broken := (Transport.send_query json_dumps query_type kwargs w self).1.2 in
  (Transport.send_query json_dumps query_type kwargs w self).1.1 = None /\
  Transport.connected broken = false /\
  Transport.send_query json_dumps query_type' kwargs' w' broken = (None, broken, []) /\
  Wire.send_command json_dumps command args w' broken = (false, broken, []) /\
  Transport.connected (Wire.accept_iteration sock broken) = true.
Proof.
  intros Hc Hs Hfail. cbv zeta.
  assert (H1 : Transport.send_query json_dumps query_type kwargs w self
               = (None, Transport.set_connected Wire.wire_record false self,
                  [Transport.SocketSendall sock
                     (json_dumps (kwargs ∪ {["type" := query_type]})
                      +:+ String "010" EmptyString)])).
  { unfold Transport.send_query. now rewrite Hc, Hs, Hfail. }
  rewrite H1. cbn [fst snd]. repeat split.
Qed.

(** X18.  [send_command] reports success only for an answer without
    error.  It returns [True] exactly when the bridge is connected with a
    socket, the write succeeds, and the response read from the queue is a
    non-empty record without an "error" key; when the bridge is not
    connected it returns [False] without any I/O. *)
Theorem X18_send_command_true_iff_clean_response
    (command args : string) (w : Transport.world Wire.wire_record)
    (self : Transport.SocketBridge Wire.wire_record) :
  ((Wire.send_command json_dumps command args w self).1.1 = true <->
     Transport.connected self = true /\
     Transport.sendall_ok w = true /\
     exists sock first_pair response rest,
       Transport.client_socket self = Some sock /\
       Transport._response_queue self ++ Transport.arrivals w
         = (first_pair :: response) :: rest /\
       Model.dict_get (first_pair :: response) "error" = None) /\
  (Transport.connected self = false ->
     Wire.send_command json_dumps command args w self = (false, self, [])).
Proof.
  split.
  - unfold Wire.send_command, Transport.send_query.
    destruct (Transport.connected self); simpl; [|split; [discriminate | tauto]].
    destruct (Transport.client_socket self) as [sock|]; simpl.
    2:{ split; [discriminate|]. intros (_ & _ & s & ? & ? & ? & H & _). discriminate H. }
    destruct (Transport.sendall_ok w); simpl.
    2:{ split; [discriminate | tauto]. }
    destruct (Transport._response_queue self ++ Transport.arrivals w)
      as [|[|pair response] rest]; simpl.
    + split; [discriminate|]. intros (_ & _ & ? & ? & ? & ? & _ & H & _). discriminate H.
    + split; [discriminate|]. intros (_ & _ & ? & ? & ? & ? & _ & H & _). discriminate H.
    + split.
      * intros H. apply negb_true_iff, bool_decide_eq_false in H.
        repeat split. exists sock, pair, response, rest.
        repeat split.
        destruct (Model.dict_get (pair :: response) "error") eqn:E; [|reflexivity].
        exfalso. apply H. eauto.
      * intros (_ & _ & ? & ? & ? & ? & _ & [= <- <- <-] & H).
        apply negb_true_iff, bool_decide_eq_false. rewrite H.
        intros [? ?]. discriminate.
  - intros H. unfold Wire.send_command. now rewrite H.
Qed.

End QueriesAndEvents.

Lemma X15_reconnect_discards_previous_session_witness :
  (Wire.poll_events (Wire.accept_iteration 6 dropped_bridge)).1 = [] /\
  (Transport.send_query (fun _ => "{}") "QUERY_INVENTORY" ∅
     {| Transport.sendall_ok := true; Transport.arrivals := [] |}
     (Wire.accept_iteration 6 dropped_bridge)).1.1 = None.
Proof.
  destruct (X15_reconnect_discards_previous_session (fun _ => "{}") 6
              "QUERY_INVENTORY" ∅
              {| Transport.sendall_ok := true; Transport.arrivals := [] |}
              dropped_bridge eq_refl eq_refl) as (H1 & H2 & _).
  split; [exact H1 | exact H2].
Defined.

Lemma X16_late_response_answers_next_query_witness :
  (Transport.send_query (fun _ => "{}") "QUERY_OBJECTIVE" ∅
     {| Transport.sendall_ok := true; Transport.arrivals := [error_record] |}
     (Wire._reader_loop [Wire.Parsed (Model.JObj inventory_record)]
        (Transport.send_query (fun _ => "{}") "QUERY_INVENTORY" ∅
           {| Transport.sendall_ok := true; Transport.arrivals := [] |}
           idle_bridge).1.2)).1.1
  = Some inventory_record.
Proof.
  apply (X16_late_response_answers_next_query (fun _ => "{}") 5
           "QUERY_INVENTORY" "QUERY_OBJECTIVE" ∅ ∅ inventory_record error_record
           idle_bridge); reflexivity.
Defined.

Lemma X17_failed_send_short_circuits_later_calls_witness :
  Wire.send_command (fun _ => "{}") "MODE" "roam"
    {| Transport.sendall_ok := true; Transport.arrivals := [inventory_record] |}
    (Transport.send_query (fun _ => "{}") "QUERY_INVENTORY" ∅
       {| Transport.sendall_ok := false; Transport.arrivals := [] |}
       idle_bridge).1.2
  = (false,
     (Transport.send_query (fun _ => "{}") "QUERY_INVENTORY" ∅
        {| Transport.sendall_ok := false; Transport.arrivals := [] |}
        idle_bridge).1.2,
     []).
Proof.
  apply (X17_failed_send_short_circuits_later_calls (fun _ => "{}") 5
           "QUERY_INVENTORY" "QUERY_INVENTORY" "MODE" "roam" ∅ ∅
           {| Transport.sendall_ok := false; Transport.arrivals := [] |}
           {| Transport.sendall_ok := true; Transport.arrivals := [inventory_record] |}
           idle_bridge); reflexivity.
Defined.

Lemma X18_send_command_true_iff_clean_response_witness :
  (Wire.send_command (fun _ => "{}") "MODE" "roam"
     {| Transport.sendall_ok := true; Transport.arrivals := [inventory_record] |}
     idle_bridge).1.1 = true /\
  Wire.send_command (fun _ => "{}") "MODE" "roam"
    {| Transport.sendall_ok := true; Transport.arrivals := [inventory_record] |}
    dropped_bridge = (false, dropped_bridge, []).
Proof.
  destruct (X18_send_command_true_iff_clean_response (fun _ => "{}") "MODE" "roam"
              {| Transport.sendall_ok := true; Transport.arrivals := [inventory_record] |}
              idle_bridge) as [[_ H] _].
  destruct (X18_send_command_true_iff_clean_response (fun _ => "{}") "MODE" "roam"
              {| Transport.sendall_ok := true; Transport.arrivals := [inventory_record] |}
              dropped_bridge) as [_ H'].
  split; [|now apply H'].
  apply H. repeat split.
  exists 5, ("type", Model.JStr "INVENTORY"), [("money", Model.JInt 25)], [].
  repeat split.
Defined.

(** ** The rule-based decision *)

Section HeuristicDecision.
Import GameState.

Variable format_0f : Q -> string.
Variable str_of_int : Z -> string.

(** A literal that is not in a list of literals. *)
Ltac absent :=
  let H := fresh "H" in
  intros H; cbn [In commands] in H;
  repeat (destruct H as [H|H]; [discriminate H|]); destruct H.

Ltac default_branch :=
  repeat match goal with
  | |- context [if ?b then _ else _] => destruct b
  end; cbn [commands].

(** X19.  The rule table always answers: one to three commands, each
    from the eight commands the rules know, with the source "heuristic".
    So the fallback meets the bound of one to five intents that the reply
    of the model is not checked for. *)
Theorem X19_heuristic_decision_within_contract (g : RoR2GameState) :
  let d := _generate_heuristic_decision format_0f str_of_int g in
  1 <= length (commands d) <= 3 /\
  Forall (fun c => In c heuristic_vocabulary) (commands d) /\
  source d = "heuristic" /\
  Model.one_to_five_intents (Model.JArr (map Model.JStr (commands d))) = true.
Proof.
  cbv zeta. unfold _generate_heuristic_decision.
  repeat match goal with
  | |- context [if ?b then _ else _] => destruct b
  | |- context [match ?x with Some _ => _ | None => _ end] => destruct x
  end.
  all: cbn [commands source length map].
  all: split; [lia|].
  all: split; [|split; reflexivity].
  all: repeat (apply List.Forall_cons;
               [unfold heuristic_vocabulary; cbn [In];
                repeat (first [left; reflexivity | right]) |]).
  all: apply List.Forall_nil.
Qed.

(** X20.  Survival comes first and aggression is gated.  With health
    below 30 percent the decision is exactly defensive, cancel, roam,
    whatever else the state says; and the rules issue
    STRATEGY:aggressive only when the boss is active and health is above
    60 percent. *)
Theorem X20_heuristic_retreats_first_and_gates_aggression (g : RoR2GameState) :
  let d := _generate_heuristic_decision format_0f str_of_int g in
  ((health_percent g < 30)%Q ->
     commands d = ["STRATEGY:defensive"; "GOTO:CANCEL"; "MODE:roam"]) /\
  (In "STRATEGY:aggressive" (commands d) ->
     boss_active g = true /\ (60 < health_percent g)%Q) /\
  (In "STRATEGY:defensive" (commands d) -> (health_percent g < 50)%Q).
Proof.
  cbv zeta. unfold _generate_heuristic_decision. split; [|split].
  - intros H. apply Qlt_bool_true in H. unfold is_critical_health. now rewrite H.
  - destruct (is_critical_health g); [absent|].
    destruct (teleporter_charged g); [absent|].
    destruct (Qlt_bool 0 (teleporter_charge g)); [absent|].
    destruct (if negb (in_combat g) && (0 <? money g)%Z
              then get_nearest_chest g else None); [absent|].
    destruct (boss_active g) eqn:Hb; cbn [andb].
    + destruct (Qlt_bool 60 (health_percent g)) eqn:Hh.
      * intros _. split; [reflexivity|]. now apply Qlt_bool_true.
      * unfold should_be_aggressive. rewrite Hb.
        destruct (should_be_defensive g); [absent|].
        destruct (Qlt_bool 70 (health_percent g)) eqn:H70.
        -- apply Qlt_bool_true in H70. apply Qlt_bool_false in Hh.
           exfalso. apply (Qlt_irrefl 70).
           apply (Qlt_le_trans _ _ _ H70). apply (Qle_trans _ _ _ Hh).
           discriminate.
        -- cbn [andb]. absent.
    + unfold should_be_aggressive. rewrite Hb, andb_false_r. cbn [andb].
      destruct (should_be_defensive g); absent.
  - destruct (is_critical_health g) eqn:Hcrit.
    { intros _. apply Qlt_bool_true in Hcrit.
      apply (Qlt_trans _ _ _ Hcrit). reflexivity. }
    destruct (teleporter_charged g); [absent|].
    destruct (Qlt_bool 0 (teleporter_charge g)); [absent|].
    destruct (if negb (in_combat g) && (0 <? money g)%Z
              then get_nearest_chest g else None); [absent|].
    destruct (boss_active g && Qlt_bool 60 (health_percent g)); [absent|].
    unfold should_be_defensive. rewrite Hcrit. cbn [orb].
    destruct (is_low_health g) eqn:Hlow; cbn [andb].
    + intros _. now apply Qlt_bool_true.
    + destruct (should_be_aggressive g); absent.
Qed.

(** X21.  The rules loot only when it is safe and affordable.  They issue
    FIND_AND_INTERACT:chest only when health is at least 30 percent, the
    teleporter is neither charged nor charging, the player is not in
    combat and has money, and a chest costing no more than that money is
    among the interactables; under these conditions they always do. *)
Theorem X21_heuristic_loots_only_when_safe_and_affordable (g : RoR2GameState) :
  let d := _generate_heuristic_decision format_0f str_of_int g in
  In "FIND_AND_INTERACT:chest" (commands d) <->
  (30 <= health_percent g)%Q /\ teleporter_charged g = false /\
  (teleporter_charge g <= 0)%Q /\ in_combat g = false /\ (0 < money g)%Z /\
  exists chest, In chest (interactables g) /\ type chest = "chest" /\
                (cost chest <= money g)%Z.
Proof.
  cbv zeta. unfold _generate_heuristic_decision.
  assert (Hchest : (exists chest, In chest (interactables g) /\ type chest = "chest" /\
                      (cost chest <= money g)%Z) <->
                   get_nearest_chest g <> None).
  { unfold get_nearest_chest. split.
    - intros (chest & Hin & Ht & Hc).
      assert (Hf : In chest (get_affordable_chests g)).
      { apply List.filter_In. split; [exact Hin|].
        apply andb_true_iff. split; [now apply String.eqb_eq | now apply Z.leb_le]. }
      destruct (get_affordable_chests g); [destruct Hf | discriminate].
    - destruct (get_affordable_chests g) as [|x r] eqn:E; [congruence|].
      intros _. exists x.
      assert (Hf : In x (get_affordable_chests g)) by (rewrite E; now left).
      apply List.filter_In in Hf. destruct Hf as [Hin Hp].
      apply andb_true_iff in Hp. destruct Hp as [Ht Hc].
      split; [exact Hin|]. split; [now apply String.eqb_eq | now apply Z.leb_le]. }
  rewrite Hchest. unfold is_critical_health.
  destruct (Qlt_bool (health_percent g) 30) eqn:Hcrit.
  { apply Qlt_bool_true in Hcrit. split; [absent|].
    intros (H & _). exfalso. apply (Qlt_irrefl 30).
    now apply (Qle_lt_trans _ _ _ H). }
  apply Qlt_bool_false in Hcrit.
  destruct (teleporter_charged g); [split; [absent | intros (_ & H & _); discriminate H]|].
  destruct (Qlt_bool 0 (teleporter_charge g)) eqn:Hcharge.
  { apply Qlt_bool_true in Hcharge. split; [absent|].
    intros (_ & _ & H & _). exfalso. apply (Qlt_irrefl 0).
    now apply (Qlt_le_trans _ _ _ Hcharge). }
  apply Qlt_bool_false in Hcharge.
  destruct (in_combat g); cbn [negb andb].
  { split; [default_branch; absent | intros (_ & _ & _ & H & _); discriminate H]. }
  destruct (Z.ltb_spec 0 (money g)) as [Hm|Hm].
  - destruct (get_nearest_chest g) as [chest|].
    + split; [|intros _; cbn [commands In]; now left].
      intros _. repeat split; auto; discriminate.
    + split; [default_branch; absent | intros (_ & _ & _ & _ & _ & H); congruence].
  - split; [default_branch; absent | intros (_ & _ & _ & _ & H & _); lia].
Qed.

End HeuristicDecision.

Lemma X20_heuristic_retreats_first_and_gates_aggression_witness :
  GameState.commands
    (GameState._generate_heuristic_decision (fun _ => "25") (fun _ => "25")
       wounded_state)
  = ["STRATEGY:defensive"; "GOTO:CANCEL"; "MODE:roam"].
Proof.
  apply (X20_heuristic_retreats_first_and_gates_aggression
           (fun _ => "25") (fun _ => "25") wounded_state).
  reflexivity.
Defined.

Lemma X21_heuristic_loots_only_when_safe_and_affordable_witness :
  In "FIND_AND_INTERACT:chest"
     (GameState.commands
        (GameState._generate_heuristic_decision (fun _ => "90") (fun _ => "25")
           looting_state)).
Proof.
  apply (X21_heuristic_loots_only_when_safe_and_affordable
           (fun _ => "90") (fun _ => "25") looting_state).
  repeat split; try discriminate.
  exists {| GameState.type := "chest"; GameState.name := "Chest1";
            GameState.cost := 25; GameState.distance := 12;
        GameState.charged := false; GameState.charge_percent := 0;
        GameState.boss_active_ := false |}.
  repeat split; [right; now left | discriminate].
Defined.

(** ** Classification of directives *)

Lemma prefix_app_r (p s b : string) :
  String.prefix p s = true -> String.prefix p (s +:+ b) = true.
Proof.
  revert s. induction p as [|c p IH]; intros s.
  - intros _. destruct s; [now destruct b | reflexivity].
  - destruct s as [|c' s]; [discriminate|].
    change (String c' s +:+ b) with (String c' (s +:+ b)). simpl.
    destruct (ascii_dec c c'); [apply IH | discriminate].
Qed.

Lemma contains_app_r (p s b : string) :
  Py.contains p s = true -> Py.contains p (s +:+ b) = true.
Proof.
  induction s as [|c s IH].
  - simpl. intros H. destruct p; [|discriminate].
    change (EmptyString +:+ b) with b. now destruct b.
  - change (String c s +:+ b) with (String c (s +:+ b)). simpl.
    intros H. apply orb_true_iff in H. apply orb_true_iff.
    destruct H as [H | H]; [left | right; now apply IH].
    apply (prefix_app_r p (String c s) b H).
Qed.

Lemma contains_app_l (p a s : string) :
  Py.contains p s = true -> Py.contains p (a +:+ s) = true.
Proof.
  intros H. induction a as [|c a IH]; [exact H|].
  change (Py.contains p (String c (a +:+ s)) = true). simpl.
  apply orb_true_iff. now right.
Qed.

Lemma lower_app (a b : string) : Py.lower (a +:+ b) = Py.lower a +:+ Py.lower b.
Proof.
  induction a as [|c a IH]; [reflexivity|].
  change (Py.lower (String c (a +:+ b)) = String (Py.lower_ascii c) (Py.lower a +:+ Py.lower b)).
  simpl. now rewrite IH.
Qed.

Lemma lower_upper_ascii (c : ascii) :
  Py.lower_ascii (upper_ascii c) = Py.lower_ascii c.
Proof. destruct c as [[] [] [] [] [] [] [] []]; reflexivity. Qed.

Lemma lower_lower_ascii (c : ascii) :
  Py.lower_ascii (Py.lower_ascii c) = Py.lower_ascii c.
Proof. destruct c as [[] [] [] [] [] [] [] []]; reflexivity. Qed.

Lemma lower_upper (s : string) : Py.lower (upper s) = Py.lower s.
Proof. induction s as [|c s IH]; simpl; [reflexivity|]. now rewrite IH, lower_upper_ascii. Qed.

Lemma lower_lower (s : string) : Py.lower (Py.lower s) = Py.lower s.
Proof. induction s as [|c s IH]; simpl; [reflexivity|]. now rewrite IH, lower_lower_ascii. Qed.

Lemma classify_tactical_iff (directive : string) :
  _classify_directive directive = "tactical" <->
  exists kw, In kw tactical_keywords /\ Py.contains kw (Py.lower directive) = true.
Proof.
  unfold _classify_directive.
  destruct (existsb _ tactical_keywords) eqn:E.
  - split; [intros _ | reflexivity]. now apply existsb_exists in E.
  - split; [discriminate|]. intros H. apply existsb_exists in H. congruence.
Qed.

(** X22.  The classification looks for keywords anywhere in the text and
    ignores case.  A directive that is tactical stays tactical when text
    is put before or after it; on ASCII text, upper-casing or
    lower-casing a directive does not change its class; and the ttl that
    [set_user_directive] assigns follows: 45 seconds for every extension
    of a tactical directive. *)
Theorem X22_classification_by_keyword_anywhere
    (directive before after : string) (self : RoR2BrainController) (now : Q) :
  ascii_text directive = true ->
  (_classify_directive directive = "tactical" ->
     _classify_directive (before +:+ directive +:+ after) = "tactical" /\
     directive_ttl (set_user_directive (before +:+ directive +:+ after) now self)
       = 45%Q) /\
  _classify_directive (upper directive) = _classify_directive directive /\
  _classify_directive (Py.lower directive) = _classify_directive directive.
Proof.
  intros _. split; [|split].
  - intros H.
    assert (Ht : _classify_directive (before +:+ directive +:+ after) = "tactical").
    { apply classify_tactical_iff in H. destruct H as (kw & Hkw & Hc).
      apply classify_tactical_iff. exists kw. split; [exact Hkw|].
      rewrite !lower_app. now apply contains_app_l, contains_app_r. }
    split; [exact Ht|]. unfold set_user_directive. simpl. now rewrite Ht.
  - unfold _classify_directive. now rewrite lower_upper.
  - unfold _classify_directive. now rewrite lower_lower.
Qed.

Lemma X22_classification_by_keyword_anywhere_witness :
  _classify_directive ("please " +:+ "Find" +:+ " the exit") = "tactical" /\
  _classify_directive (upper "Find") = "tactical".
Proof.
  destruct (X22_classification_by_keyword_anywhere "Find" "please " " the exit"
              init_controller 0 eq_refl) as (H1 & H2 & _).
  split; [now apply H1 | now rewrite H2].
Defined.

(** ** The closest interactable of each type *)

Module QueriesFacts.
Import GameState Queries.

Lemma find_put_same k v d : dict_find k (dict_put k v d) = Some v.
Proof.
  unfold dict_find. induction d as [|[k' v'] d IH]; simpl.
  - now rewrite String.eqb_refl.
  - destruct (String.eqb k' k) eqn:E; simpl.
    + now rewrite String.eqb_refl.
    + rewrite E. exact IH.
Qed.

Lemma find_put_other k k0 v d :
  k <> k0 -> dict_find k0 (dict_put k v d) = dict_find k0 d.
Proof.
  intros Hne. unfold dict_find. induction d as [|[k' v'] d IH]; simpl.
  - apply String.eqb_neq in Hne. now rewrite Hne.
  - destruct (String.eqb_spec k' k) as [->|Hk]; simpl.
    + apply String.eqb_neq in Hne. now rewrite Hne.
    + destruct (String.eqb k' k0); [reflexivity | exact IH].
Qed.

Lemma in_put k v d x : In x (dict_put k v d) -> x = (k, v) \/ In x d.
Proof.
  induction d as [|[k' v'] d IH]; simpl.
  - intros [<- | []]. now left.
  - destruct (String.eqb k' k); simpl.
    + intros [<- | H]; auto.
    + intros [<- | H]; auto. destruct (IH H); auto.
Qed.

Lemma keys_put k v d :
  List.NoDup (map fst d) -> List.NoDup (map fst (dict_put k v d)) /\
  forall k0, In k0 (map fst (dict_put k v d)) -> k0 = k \/ In k0 (map fst d).
Proof.
  induction d as [|[k' v'] d IH]; simpl; intros Hnd.
  - split; [repeat constructor; intros [] | intros k0 [<- | []]; now left].
  - apply List.NoDup_cons_iff in Hnd. destruct Hnd as [Hk' Hnd].
    destruct (String.eqb_spec k' k) as [->|Hne]; simpl.
    + split; [now constructor | intros k0 [<- | H]; auto].
    + destruct (IH Hnd) as [Hnd' Hin']. split.
      * constructor; [|exact Hnd']. intros H. destruct (Hin' _ H); congruence.
      * intros k0 [<- | H]; auto. destruct (Hin' _ H); auto.
Qed.

Lemma find_in k v d : dict_find k d = Some v -> In (k, v) d.
Proof.
  unfold dict_find. induction d as [|[k' v'] d IH]; simpl; [discriminate|].
  destruct (String.eqb_spec k' k) as [->|Hne]; simpl.
  - intros [= <-]. now left.
  - intros H. right. now apply IH.
Qed.

Lemma selected_step d seen inter :
  selected d seen -> selected (keep_closest d inter) (seen ++ [inter]).
Proof.
  intros (Hnd & Hval & Hmin). unfold keep_closest.
  assert (Hreplace :
    (forall x, In x seen -> type x = type inter -> (distance inter <= distance x)%Q) ->
    selected (dict_put (type inter) inter d) (seen ++ [inter])).
  { intros Hcloser. split; [|split].
    - now apply keys_put.
    - intros k v Hin. apply in_put in Hin. destruct Hin as [[= -> ->] | Hin].
      + split; [reflexivity|]. apply in_app_iff. right. now left.
      + destruct (Hval k v Hin). split; [assumption|]. apply in_app_iff. now left.
    - intros x Hx. apply in_app_iff in Hx. destruct Hx as [Hx | [<- | []]].
      + destruct (string_dec (type inter) (type x)) as [He|Hne].
        * exists inter. rewrite <- He, find_put_same. split; [reflexivity|].
          now apply Hcloser.
        * rewrite (find_put_other _ _ _ _ Hne). now apply Hmin.
      + exists inter. rewrite find_put_same. split; [reflexivity | apply Qle_refl]. }
  destruct (dict_find (type inter) d) as [current|] eqn:Ecur.
  - destruct (Qlt_bool (distance inter) (distance current)) eqn:Elt.
    + apply Hreplace. intros x Hx Ht.
      destruct (Hmin x Hx) as (v & Hv & Hle). rewrite Ht, Ecur in Hv.
      injection Hv as <-. apply Qlt_bool_true in Elt.
      apply Qlt_le_weak. now apply (Qlt_le_trans _ _ _ Elt).
    + apply Qlt_bool_false in Elt. split; [exact Hnd|]. split.
      * intros k v Hin. destruct (Hval k v Hin). split; [assumption|].
        apply in_app_iff. now left.
      * intros x Hx. apply in_app_iff in Hx. destruct Hx as [Hx | [<- | []]].
        -- now apply Hmin.
        -- exists current. now split.
  - apply Hreplace. intros x Hx Ht.
    destruct (Hmin x Hx) as (v & Hv & _). rewrite Ht, Ecur in Hv. discriminate.
Qed.

Lemma selected_fold inters :
  selected (fold_left keep_closest inters []) inters.
Proof.
  induction inters as [|inter inters IH] using rev_ind.
  - split; [constructor|]. split; [intros k v [] | intros x []].
  - rewrite fold_left_app. simpl. now apply selected_step.
Qed.

End QueriesFacts.

(** X23.  [query_interactables] keeps one interactable per type, the
    closest.  The result lists records of the response only, no two of
    the same type, and for every record of the response it holds a record
    of the same type that is at least as close. *)
Theorem X23_closest_interactable_of_each_type
    (inters : list GameState.InteractableInfo) :
  List.NoDup (map GameState.type (Queries.closest_by_type inters)) /\
  (forall r, In r (Queries.closest_by_type inters) -> In r inters) /\
  (forall x, In x inters ->
     exists r, In r (Queries.closest_by_type inters) /\
       GameState.type r = GameState.type x /\
       (GameState.distance r <= GameState.distance x)%Q).
Proof.
  destruct (QueriesFacts.selected_fold inters) as (Hnd & Hval & Hmin).
  unfold Queries.closest_by_type. split; [|split].
  - assert (Hkeys : map GameState.type (map snd (fold_left Queries.keep_closest inters []))
                    = map fst (fold_left Queries.keep_closest inters [])).
    { rewrite map_map. apply map_ext_in. intros [k v] Hin.
      now destruct (Hval k v Hin). }
    now rewrite Hkeys.
  - intros r Hr. apply in_map_iff in Hr. destruct Hr as ([k v] & <- & Hin).
    now destruct (Hval k v Hin).
  - intros x Hx. destruct (Hmin x Hx) as (v & Hv & Hle).
    apply QueriesFacts.find_in in Hv. exists v. split.
    + apply in_map_iff. now exists (GameState.type x, v).
    + split; [now destruct (Hval _ _ Hv) | exact Hle].
Qed.

Lemma X23_closest_interactable_of_each_type_witness :
  exists r,
    In r (Queries.closest_by_type (GameState.interactables looting_state)) /\
    GameState.type r = "chest" /\ (GameState.distance r <= 12)%Q.
Proof.
  destruct (X23_closest_interactable_of_each_type
              (GameState.interactables looting_state)) as (_ & _ & H).
  apply (H {| GameState.type := "chest"; GameState.name := "Chest1";
              GameState.cost := 25; GameState.distance := 12;
        GameState.charged := false; GameState.charge_percent := 0;
        GameState.boss_active_ := false |}).
  right. now left.
Defined.

(** ** What the model is told *)

Lemma last_n_length {A} (n : nat) (l : list A) : length (last_n n l) <= n.
Proof. unfold last_n. rewrite length_drop. lia. Qed.

Lemma last_n_nil_iff {A} (n : nat) (l : list A) :
  0 < n -> (last_n n l = [] <-> l = []).
Proof.
  intros Hn. split; [|now intros ->].
  intros H. apply (f_equal (@length A)) in H. unfold last_n in H.
  rewrite length_drop in H. simpl in H.
  destruct l; [reflexivity | simpl in H; lia].
Qed.

(** X24.  The message to the model is bounded in its history and carries
    only a live directive.  It shows the last three of the recent
    commands and no other: the message for a history is the message for
    its last three entries.  A directive whose ttl has elapsed, or whose
    text is empty, leaves the message as it is without directive. *)
Theorem X24_user_message_recent_and_live_only
    (summary : string) (directive : option string) (history : list string)
    (self : RoR2BrainController) (now set_at : Q) :
  _build_user_message summary directive history =
    _build_user_message summary directive (last_n 3 history) /\
  _build_user_message summary (Some EmptyString) history =
    _build_user_message summary None history /\
  (directive_timestamp self = Some set_at ->
   (directive_ttl self <= now - set_at)%Q ->
   _build_user_message summary (directive_for_model now self) history =
     _build_user_message summary None history).
Proof.
  split; [|split].
  - unfold _build_user_message. cbv zeta.
    rewrite (last_n_short 3 (last_n 3 history)) by apply last_n_length.
    destruct history as [|c history]; [reflexivity|].
    destruct (last_n 3 (c :: history)) eqn:E; [|reflexivity].
    apply last_n_nil_iff in E; [discriminate | lia].
  - reflexivity.
  - intros Hts Hexp. unfold directive_for_model.
    assert (Hinv : _is_directive_valid now self = false).
    { unfold _is_directive_valid. rewrite Hts.
      destruct (user_directive self); [|reflexivity].
      now apply Qlt_bool_false. }
    now rewrite Hinv.
Qed.

Lemma X24_user_message_recent_and_live_only_witness :
  _build_user_message "HP 90%"
    (directive_for_model 1046 (tactical_scenario [])) ["MODE:roam"]
  = _build_user_message "HP 90%" None ["MODE:roam"].
Proof.
  apply (X24_user_message_recent_and_live_only "HP 90%" None ["MODE:roam"]
           (tactical_scenario []) 1046 1000); [reflexivity|].
  unfold Qle. simpl. lia.
Defined.

(** ** From the decision to the resolved entry *)

Lemma execute_decision_ledger (commands : list string) (st : exec_state) :
  exec_ledger (_execute_decision commands st).1 =
  register_commands commands (exec_ledger st).
Proof.
  unfold _execute_decision.
  set (st0 := {| exec_ledger := _ |}).
  change (register_commands commands (exec_ledger st)) with (exec_ledger st0).
  generalize st0. clear. induction commands as [|c commands IH]; intros st0; simpl.
  - reflexivity.
  - destruct (dispatch_command c st0) as [st1 calls1] eqn:E1.
    destruct (dispatch_commands commands st1) as [st2 calls2] eqn:E2.
    simpl. specialize (IH st1). rewrite E2 in IH. simpl in IH. rewrite IH.
    unfold dispatch_command in E1.
    destruct (split_colon c) as [head [args|]]; [|now injection E1 as <- _].
    repeat match type of E1 with
    | context [if ?b then _ else _] => destruct b
    end; now injection E1 as <- _.
Qed.

Lemma process_complete_at (event : gmap string string) (c : string)
    (l1 l2 : list action) (a : action) :
  c <> EmptyString ->
  event !! "event_type" = Some "action_complete" ->
  event !! "command" = Some c ->
  Forall (fun x => is_open_for c x = false) l1 ->
  is_open_for c a = true ->
  _process_event event (l1 ++ a :: l2) =
    l1 ++ Action c (Py.get event "status" success) "completed" :: l2.
Proof.
  intros Hne Ht Hc Hl1 Ha.
  rewrite (process_complete event c _ Ht Hc Hne).
  rewrite (update_first_at _ _ l1 l2 a Hl1 Ha).
  do 2 f_equal. unfold set_reason, set_status. simpl. f_equal.
  unfold is_open_for in Ha. apply andb_true_iff in Ha.
  now apply String.eqb_eq.
Qed.

(** X25.  The life of a target-seeking command [c] (one that starts with
    FIND_AND_INTERACT) in a ledger with room and without an open entry
    for [c].  Executing the decision does not register it; the
    [action_started] event of the mod appends it as pending; the
    [action_complete] event then turns that entry, and nothing else,
    into the reported status with reason "completed". *)
Theorem X25_target_seeking_command_lifecycle
    (c : string) (st : exec_state)
    (started completed : gmap string string) :
  Py.startswith c "FIND_AND_INTERACT" = true ->
  length (exec_ledger st) < max_ledger_entries ->
  Forall (fun a => is_open_for c a = false) (exec_ledger st) ->
  started !! "event_type" = Some "action_started" -> started !! "command" = Some c ->
  completed !! "event_type" = Some "action_complete" ->
  completed !! "command" = Some c ->
  let issued := exec_ledger (_execute_decision [c] st).1 in
  let acknowledged := _process_event started issued in
  let resolved := _process_event completed acknowledged in
  issued = exec_ledger st /\
  acknowledged = exec_ledger st ++ [Action c pending (started_reason started)] /\
  resolved = exec_ledger st ++
             [Action c (Py.get completed "status" success) "completed"].
Proof.
  intros Hfind Hroom Hnone Hts Hcs Htc Hcc. cbv zeta.
  assert (Hne : c <> EmptyString) by (intros ->; discriminate Hfind).
  assert (Hissued : exec_ledger (_execute_decision [c] st).1 = exec_ledger st).
  { rewrite execute_decision_ledger. simpl. now rewrite Hfind. }
  rewrite Hissued.
  assert (Hack : _process_event started (exec_ledger st) =
                 exec_ledger st ++ [Action c pending (started_reason started)]).
  { rewrite (process_started started c _ Hts Hcs Hne).
    assert (Hp : Forall (fun a => is_pending_for c a = false) (exec_ledger st)).
    { eapply Forall_impl; [exact Hnone|]. intros a Ha. unfold is_open_for in Ha.
      unfold is_pending_for.
      destruct (String.eqb (command a) c); [|reflexivity]. simpl in *.
      now apply orb_false_iff in Ha. }
    rewrite (proj2 (update_first_None _ _ _) Hp).
    now apply add_to_ledger_room. }
  rewrite Hack. repeat split.
  apply (process_complete_at completed c (exec_ledger st) []
           (Action c pending (started_reason started)) Hne Htc Hcc Hnone).
  unfold is_open_for. simpl. now rewrite String.eqb_refl.
Qed.

Lemma X25_target_seeking_command_lifecycle_witness :
  _process_event (ev_complete chest_cmd success)
    (_process_event (ev_started chest_cmd)
       (exec_ledger
          (_execute_decision [chest_cmd]
             {| exec_ledger := []; current_strategy := "balanced";
                current_mode := "roam" |}).1))
  = [Action chest_cmd success "completed"].
Proof.
  destruct (X25_target_seeking_command_lifecycle chest_cmd
              {| exec_ledger := []; current_strategy := "balanced";
                 current_mode := "roam" |}
              (ev_started chest_cmd) (ev_complete chest_cmd success))
    as (_ & _ & H).
  - reflexivity.
  - vm_compute. lia.
  - constructor.
  - vm_compute. reflexivity.
  - vm_compute. reflexivity.
  - vm_compute. reflexivity.
  - vm_compute. reflexivity.
  - rewrite H. vm_compute. reflexivity.
Defined.

(** ** One cycle: a directive fulfilled by an event is withheld from the model *)

Lemma check_keeps_closed_at
    (set_iter : gset (string * string) -> list (string * string))
    (current : list InteractableInfo) (self : RoR2BrainController)
    (i : nat) (a : action) :
  action_ledger self !! i = Some a -> is_open a = false ->
  action_ledger (_check_action_completion set_iter current self) !! i = Some a.
Proof.
  intros Hi Hclosed.
  assert (Hone : fold_left (fun l target => mark_opened target l)
                   (set_iter (last_seen_interactables self ∖ current_ids_of current))
                   (action_ledger self) !! i = Some a).
  { rewrite mark_opened_fold, list_lookup_fmap, Hi. simpl.
    now rewrite closed_entry_stays. }
  unfold _check_action_completion. cbv zeta. simpl.
  destruct (_ && _); [|exact Hone].
  now apply teleporter_pass_keeps_closed.
Qed.

Lemma in_last_n {A} (n : nat) (l : list A) (i : nat) (a : A) :
  l !! i = Some a -> length l <= i + n -> In a (last_n n l).
Proof.
  intros Hi Hlen. unfold last_n. apply list_elem_of_In.
  apply (list_elem_of_lookup_2 _ (i - (length l - n))).
  rewrite lookup_drop. rewrite <- Hi. f_equal. lia.
Qed.

Lemma keyword_nonempty (kw s : string) :
  In kw match_keywords -> Py.contains kw (Py.lower s) = true -> s <> EmptyString.
Proof.
  intros Hin H ->. simpl in H.
  repeat (destruct Hin as [<- | Hin]; [discriminate H|]). destruct Hin.
Qed.

Section CycleFacts.

Variable set_iter : gset (string * string) -> list (string * string).

(** X26.  A tactical directive that is fulfilled by an event of the cycle
    is cleared in the same cycle, before the model is asked.  When the
    last event drained reports the completion, with success, of a command
    that shares a keyword (teleporter, chest, shrine, shop) with the
    directive, and the entry it resolves is among the last five, then
    after the completion check and the auto-clear the directive is gone,
    the model is given none at any reading of the clock, and the entry
    reads success with reason "completed". *)
Theorem X26_fulfilled_directive_cleared_in_same_cycle
    (self : RoR2BrainController) (directive kw c : string)
    (before : list (gmap string string)) (event : gmap string string)
    (l1 l2 : list action) (a : action)
    (current : list InteractableInfo) (now : Q) :
  directive_type self = "tactical" ->
  user_directive self = Some directive ->
  In kw match_keywords ->
  Py.contains kw (Py.lower directive) = true ->
  Py.contains kw (Py.lower c) = true ->
  event !! "event_type" = Some "action_complete" ->
  event !! "command" = Some c ->
  Py.get event "status" success = success ->
  process_events before (action_ledger self) = l1 ++ a :: l2 ->
  Forall (fun x => is_open_for c x = false) l1 ->
  is_open_for c a = true ->
  length l2 < 5 ->
  let after :=
    update_ledger_and_directive set_iter (before ++ [event]) current self in
  user_directive after = None /\
  directive_for_model now after = None /\
  action_ledger after !! length l1 = Some (Action c success "completed").
Proof.
  intros Ht Hd Hkw Hkd Hkc Hev Hcmd Hst Hbefore Hl1 Ha Hlen. cbv zeta.
  assert (Hc : c <> EmptyString) by exact (keyword_nonempty _ _ Hkw Hkc).
  assert (Hdne : directive <> EmptyString) by exact (keyword_nonempty _ _ Hkw Hkd).
  apply truthy_true in Hdne.
  set (done := Action c success "completed").
  assert (HL : process_events (before ++ [event]) (action_ledger self)
               = l1 ++ done :: l2).
  { unfold process_events. rewrite fold_left_app. simpl.
    fold (process_events before (action_ledger self)).
    rewrite Hbefore, (process_complete_at event c l1 l2 a Hc Hev Hcmd Hl1 Ha), Hst.
    reflexivity. }
  unfold update_ledger_and_directive. rewrite HL.
  set (mid := _check_action_completion set_iter current
                (set_action_ledger (l1 ++ done :: l2) self)).
  assert (Hmid : action_ledger mid !! length l1 = Some done).
  { apply check_keeps_closed_at; [|reflexivity]. simpl.
    rewrite lookup_app_r, Nat.sub_diag; [reflexivity | lia]. }
  assert (Hmlen : length (action_ledger mid) = length l1 + S (length l2)).
  { unfold mid. rewrite check_action_completion_length. simpl.
    now rewrite length_app. }
  assert (Hin : In done (last_n 5 (action_ledger mid))).
  { apply (in_last_n 5 _ (length l1)); [exact Hmid | lia]. }
  assert (Hdir : user_directive mid = Some directive) by exact Hd.
  assert (Htype : directive_type mid = "tactical") by exact Ht.
  assert (Hclear : _try_auto_clear_directive mid = clear_directive mid).
  { assert (E : existsb (fun a0 => String.eqb (status a0) success &&
                                   _action_matches_directive (command a0) mid)
                        (last_n 5 (action_ledger mid)) = true).
    { apply existsb_In. exists done. split; [exact Hin|]. simpl.
      unfold _action_matches_directive. rewrite Hdir, Hdne. simpl negb. cbv iota.
      apply existsb_In. exists kw. split; [exact Hkw|]. now rewrite Hkd, Hkc. }
    unfold _try_auto_clear_directive, no_directive.
    rewrite Htype, Hdir, Hdne, String.eqb_refl, E. reflexivity. }
  rewrite Hclear. split; [reflexivity|]. split; [reflexivity|]. exact Hmid.
Qed.

End CycleFacts.

Lemma X26_fulfilled_directive_cleared_in_same_cycle_witness :
  user_directive
    (update_ledger_and_directive elements
       ([ev_started chest_cmd] ++ [ev_complete chest_cmd success]) []
       (tactical_scenario [])) = None.
Proof.
  apply (X26_fulfilled_directive_cleared_in_same_cycle elements
           (tactical_scenario []) "Open the Chest" "chest" chest_cmd
           [ev_started chest_cmd] (ev_complete chest_cmd success)
           [] [] (Action chest_cmd pending "found ? at ?m") [] 0).
  - reflexivity.
  - reflexivity.
  - right. left. reflexivity.
  - reflexivity.
  - reflexivity.
  - vm_compute. reflexivity.
  - vm_compute. reflexivity.
  - vm_compute. reflexivity.
  - vm_compute. reflexivity.
  - constructor.
  - reflexivity.
  - simpl. lia.
Defined.

(** ** The history of commands and the ledger summary given to the model *)

Lemma last_n_app_r {A} (n : nat) (l l' : list A) :
  n <= length l' -> last_n n (l ++ l') = last_n n l'.
Proof.
  intros H. unfold last_n. rewrite length_app.
  replace (length l + length l' - n) with (length l + (length l' - n)) by lia.
  now rewrite drop_app_add.
Qed.

Lemma last_n_last_n {A} (m n : nat) (l : list A) :
  m <= n -> last_n m (last_n n l) = last_n m l.
Proof.
  intros H. unfold last_n. rewrite drop_drop, length_drop. f_equal. lia.
Qed.

Lemma last_n_window {A} (n : nat) (l l' : list A) :
  last_n n (last_n n l ++ l') = last_n n (l ++ l').
Proof.
  unfold last_n. rewrite !length_app, length_drop.
  transitivity (drop (length (take (length l - n) l)
                      + (length l - (length l - n) + length l' - n))
                  (take (length l - n) l ++ (drop (length l - n) l ++ l'))).
  - now rewrite drop_app_add.
  - rewrite app_assoc, take_drop. f_equal. rewrite length_take. lia.
Qed.

Lemma extend_last_commands_window {A} (commands last_commands : list A) :
  extend_last_commands commands last_commands =
  last_n 10 (last_commands ++ commands).
Proof.
  unfold extend_last_commands. cbv zeta.
  destruct (Nat.ltb_spec 10 (length (last_commands ++ commands))); [reflexivity|].
  now rewrite last_n_short.
Qed.

Lemma build_user_message_window
    (summary : string) (directive : option string) (history : list string) :
  _build_user_message summary directive history =
  _build_user_message summary directive (last_n 3 history).
Proof.
  unfold _build_user_message. cbv zeta.
  rewrite (last_n_short 3 (last_n 3 history)) by apply last_n_length.
  destruct history as [|c history]; [reflexivity|].
  destruct (last_n 3 (c :: history)) eqn:E; [|reflexivity].
  apply last_n_nil_iff in E; [discriminate | lia].
Qed.

(** X27.  The history of commands kept for the model is the window of the
    ten most recent ones, whatever its length was: after one reply it is
    the last 10 of the old history followed by the reply's commands, and
    after two replies the last 10 of all of them in order.  The message
    built from it shows the last three of the old history followed by
    the reply; a reply of three commands or more hides the older ones. *)
Theorem X27_command_history_is_recent_window
    (last_commands reply1 reply2 : list string)
    (summary : string) (directive : option string) :
  extend_last_commands reply1 last_commands = last_n 10 (last_commands ++ reply1) /\
  length (extend_last_commands reply1 last_commands) <= 10 /\
  extend_last_commands reply2 (extend_last_commands reply1 last_commands)
    = last_n 10 (last_commands ++ reply1 ++ reply2) /\
  _build_user_message summary directive (extend_last_commands reply1 last_commands)
    = _build_user_message summary directive (last_n 3 (last_commands ++ reply1)) /\
  (3 <= length reply1 ->
   _build_user_message summary directive (extend_last_commands reply1 last_commands)
     = _build_user_message summary directive (last_n 3 reply1)).
Proof.
  assert (Hmsg : _build_user_message summary directive
                   (extend_last_commands reply1 last_commands)
                 = _build_user_message summary directive
                     (last_n 3 (last_commands ++ reply1))).
  { rewrite build_user_message_window, extend_last_commands_window.
    rewrite last_n_last_n by lia. reflexivity. }
  split; [apply extend_last_commands_window|].
  split; [rewrite extend_last_commands_window; apply last_n_length|].
  split; [|split].
  - rewrite !extend_last_commands_window, last_n_window. now rewrite app_assoc.
  - exact Hmsg.
  - intros H. rewrite Hmsg. now rewrite last_n_app_r.
Qed.

Lemma X27_command_history_is_recent_window_witness :
  _build_user_message "state" None
    (extend_last_commands ["STRATEGY:balanced"; "MODE:roam"; "GOTO:CANCEL"]
       ["MODE:combat"])
  = _build_user_message "state" None
      (last_n 3 ["STRATEGY:balanced"; "MODE:roam"; "GOTO:CANCEL"]).
Proof.
  apply (X27_command_history_is_recent_window
           ["MODE:combat"] ["STRATEGY:balanced"; "MODE:roam"; "GOTO:CANCEL"] []).
  simpl. lia.
Defined.

Lemma append_nil_r (s : string) : s +:+ EmptyString = s.
Proof.
  induction s as [|c s IH]; [reflexivity|].
  change (String c s +:+ EmptyString) with (String c (s +:+ EmptyString)).
  now rewrite IH.
Qed.

Lemma append_same_l (s t : string) : s +:+ t = s -> t = EmptyString.
Proof.
  induction s as [|c s IH]; [now intros H|].
  change (String c s +:+ t) with (String c (s +:+ t)).
  intros H. injection H as H. now apply IH.
Qed.

Lemma ledger_summary_empty_iff (l : list action) :
  _get_ledger_summary l = EmptyString <-> l = [].
Proof.
  split; [|now intros ->].
  destruct l as [|a l]; [reflexivity|].
  unfold _get_ledger_summary.
  destruct (map ledger_line (last_n 5 (a :: l))); discriminate.
Qed.

Lemma ledger_summary_window (l : list action) :
  _get_ledger_summary l = _get_ledger_summary (last_n 5 l).
Proof.
  unfold _get_ledger_summary.
  rewrite (last_n_short 5 (last_n 5 l)) by apply last_n_length.
  destruct l as [|a l]; [reflexivity|].
  destruct (last_n 5 (a :: l)) eqn:E; [|reflexivity].
  apply last_n_nil_iff in E; [discriminate | lia].
Qed.

(** X28.  The model reads the ledger through its last five entries only.
    The summary is empty exactly for the empty ledger, and then the
    summary given to the model is the game state alone; otherwise it
    depends on the last five entries and on nothing older: entries that
    precede five or more recent ones do not show. *)
Theorem X28_ledger_summary_shows_last_five
    (game_state : string) (l older recent : list action) :
  (_get_ledger_summary l = EmptyString <-> l = []) /\
  (full_summary game_state l = game_state <-> l = []) /\
  _get_ledger_summary l = _get_ledger_summary (last_n 5 l) /\
  (5 <= length recent ->
   full_summary game_state (older ++ recent) = full_summary game_state recent).
Proof.
  split; [apply ledger_summary_empty_iff|]. split; [|split].
  - unfold full_summary. cbv zeta. split.
    + intros H. apply append_same_l in H.
      destruct (Py.truthy (_get_ledger_summary l)) eqn:E.
      * discriminate H.
      * apply ledger_summary_empty_iff.
        destruct (_get_ledger_summary l); [reflexivity | discriminate E].
    + intros ->. simpl. apply append_nil_r.
  - apply ledger_summary_window.
  - intros H. unfold full_summary.
    rewrite (ledger_summary_window (older ++ recent)), last_n_app_r by exact H.
    now rewrite <- ledger_summary_window.
Qed.

Lemma X28_ledger_summary_shows_last_five_witness :
  full_summary "state" (combat_ledger ++ ten_entries) = full_summary "state" ten_entries.
Proof.
  apply (X28_ledger_summary_shows_last_five "state" [] combat_ledger ten_entries).
  vm_compute. lia.
Defined.

(** ** The stage flags of the game state follow the closest teleporter *)

Module StageFacts.
Import GameState Queries.

Lemma find_values (k : string) (d : list (string * InteractableInfo)) :
  (forall k' v, In (k', v) d -> type v = k') ->
  List.find (fun i => String.eqb (type i) k) (map snd d) = dict_find k d.
Proof.
  unfold dict_find. induction d as [|[k' v] d IH]; intros Hval; [reflexivity|].
  simpl. rewrite (Hval k' v) by now left.
  destruct (String.eqb k' k); [reflexivity|].
  apply IH. intros k0 v0 H. apply Hval. now right.
Qed.

Lemma first_teleporter (response : list InteractableInfo) :
  List.find is_teleporter (closest_by_type response) =
  dict_find "teleporter" (fold_left keep_closest response []).
Proof.
  destruct (QueriesFacts.selected_fold response) as (_ & Hval & _).
  unfold closest_by_type, is_teleporter. apply find_values.
  intros k v H. now destruct (Hval k v H).
Qed.

End StageFacts.

(** X29.  The stage flags of the game state come from the closest
    teleporter of the response.  After the interactables are queried and
    stored, the flags (teleporter charged, charge, boss active) are those
    of a teleporter of the response that no teleporter of the response is
    strictly closer than; when the response holds no teleporter the flags
    keep their previous values.  An answered objective query overrides
    them, and nothing else of the state is touched but the list of
    interactables. *)
Theorem X29_stage_flags_follow_closest_teleporter
    (response : list GameState.InteractableInfo)
    (objective : Types.ObjectiveData) (g : GameState.RoR2GameState) :
  let g' := Queries.refresh_stage response None g in
  GameState.interactables g' = Queries.closest_by_type response /\
  (GameState.health_percent g', GameState.money g',
   GameState.num_enemies g', GameState.in_combat g')
    = (GameState.health_percent g, GameState.money g,
       GameState.num_enemies g, GameState.in_combat g) /\
  (Forall (fun x => GameState.is_teleporter x = false) response ->
     GameState.stage_flags g' = GameState.stage_flags g) /\
  (Exists (fun x => GameState.is_teleporter x = true) response ->
     exists r,
       In r response /\ GameState.is_teleporter r = true /\
       Forall (fun x => GameState.is_teleporter x = true ->
                        (GameState.distance r <= GameState.distance x)%Q) response /\
       GameState.stage_flags g'
         = (GameState.charged r, GameState.charge_percent r,
            GameState.boss_active_ r)) /\
  GameState.stage_flags (Queries.refresh_stage response (Some objective) g)
    = (Types.teleporter_charged objective, Types.teleporter_charge objective,
       Types.boss_active objective).
Proof.
  cbv zeta. unfold Queries.refresh_stage, GameState.update_from_interactables.
  cbv zeta. rewrite StageFacts.first_teleporter.
  destruct (QueriesFacts.selected_fold response) as (_ & Hval & Hmin).
  split; [|split; [|split; [|split]]].
  - now destruct (Queries.dict_find _ _).
  - now destruct (Queries.dict_find _ _).
  - intros Hnone.
    destruct (Queries.dict_find _ _) as [v|] eqn:E; [|reflexivity].
    apply QueriesFacts.find_in in E. destruct (Hval _ _ E) as [Ht Hin].
    rewrite List.Forall_forall in Hnone. specialize (Hnone v Hin).
    unfold GameState.is_teleporter in Hnone. rewrite Ht in Hnone. discriminate.
  - intros Hsome. apply List.Exists_exists in Hsome.
    destruct Hsome as (x & Hx & Htx).
    unfold GameState.is_teleporter in Htx. apply String.eqb_eq in Htx.
    destruct (Hmin x Hx) as (v & Hv & _). rewrite Htx in Hv. rewrite Hv.
    exists v. pose proof (QueriesFacts.find_in _ _ _ Hv) as Hvin.
    destruct (Hval _ _ Hvin) as [Ht Hin].
    split; [exact Hin|]. split; [unfold GameState.is_teleporter; now rewrite Ht|].
    split; [|reflexivity].
    apply List.Forall_forall. intros y Hy Hty.
    unfold GameState.is_teleporter in Hty. apply String.eqb_eq in Hty.
    destruct (Hmin y Hy) as (v' & Hv' & Hle). rewrite Hty, Hv in Hv'.
    now injection Hv' as <-.
  - reflexivity.
Qed.

Lemma X29_stage_flags_follow_closest_teleporter_witness :
  GameState.stage_flags (Queries.refresh_stage two_teleporters None looting_state)
  = (true, 100%Q, true).
Proof.
  destruct (X29_stage_flags_follow_closest_teleporter two_teleporters
              {| Types.teleporter_charged := false; Types.teleporter_charge := 0;
                 Types.boss_active := false |} looting_state)
    as (_ & _ & _ & H & _).
  destruct H as (r & Hin & Ht & Hmin & ->).
  - apply List.Exists_exists. exists near_teleporter. split; [now left | reflexivity].
  - rewrite List.Forall_forall in Hmin.
    destruct Hin as [<- | [<- | []]]; [reflexivity|].
    exfalso. specialize (Hmin near_teleporter (or_introl eq_refl) eq_refl).
    vm_compute in Hmin. now apply Hmin.
Defined.

(** ** The rules are never a fallback for a failed reply *)

Section LlmDecision.
Import Model.

Variable json_loads : string -> option json.
Variable format_0f : Q -> string.
Variable str_of_int : Z -> string.
Variable chars : string -> list string.

Lemma generate_commands_has_len (api_reply : outcome string) :
  has_len (Model.commands (generate_commands json_loads api_reply)) = true.
Proof.
  unfold generate_commands.
  destruct api_reply as [response_text|e]; [|reflexivity].
  destruct (_parse_json_output json_loads response_text) as [d|e]; [|reflexivity].
  cbv zeta.
  match goal with
  | |- context [if ?b then _ else _] => destruct b eqn:E
  end; [exact E | reflexivity].
Qed.


End LlmDecision.

